(** * Green Battery Hack: controllers of a home battery

    A shallow embedding of the two policy modules
    ([bot/policies/modules/discrete_stateful_rnn_model.py],
    [bot/policies/modules/lazy_signature_regression_model.py]) and of the
    deployment adapter ([trading_track/calibration.py]).

    Conventions.
    - A float is a real number: rounding, infinities and NaN are left out,
      and [tanh], [exp] are the functions of the Standard Library.
    - A tensor is a nested list whose depth is its rank; the sizes of its
      dimensions are the lengths of the lists.  The inner sizes of a tensor
      with an empty leading dimension are not represented.
    - Neural layers, the battery simulator, the preprocessing and the
      signature transform are not part of these files: they are fields of
      the records that stand for the Python objects, with the argument and
      result ranks the source gives them.
    - A forward pass runs in a small state monad that carries what the
      source reads from the ambient torch runtime: the state of the random
      generator, the autograd switch, and (as a ghost component) the list
      of the calls made to the external collaborators. *)

From Stdlib Require Import Reals Lra Lia ZArith List.
From stdpp Require Import gmap strings list.

Open Scope R_scope.

(** ** Tensors *)

Abbreviation tensor1 := (list R) (only parsing).
Abbreviation tensor2 := (list (list R)) (only parsing).
Abbreviation tensor3 := (list (list (list R))) (only parsing).

(** [has_shape s t]: the tensor [t] has exactly the shape [s]. *)
Class Shaped (A : Type) := has_shape : list nat -> A -> Prop.

#[global] Instance Shaped_scalar : Shaped R :=
  fun s _ => s = [].

#[global] Instance Shaped_list {A : Type} `{Shaped A} : Shaped (list A) :=
  fun s l =>
    match s with
    | [] => False
    | n :: s' => length l = n /\ Forall (has_shape s') l
    end.

(** [x.size(0)] and [x.size(1)]. *)
Definition size0 {A : Type} (x : list A) : nat := length x.

Definition size1 {A : Type} (x : list (list A)) : nat :=
  match x with
  | [] => 0%nat
  | row :: _ => length row
  end.

(** [torch.zeros((b, t, c))] *)
Definition zeros3 (b t c : nat) : tensor3 :=
  replicate b (replicate t (replicate c 0)).

(** [x[:, i:i+1]]: a slice of the time dimension keeps the rank. *)
Definition slice_time {A : Type} (i : nat) (x : list (list A)) : list (list A) :=
  map (fun row => take 1 (drop i row)) x.

(** [x[:, i]] on a rank-2 tensor. *)
Definition select_time (i : nat) (x : tensor2) : tensor1 :=
  map (fun row => nth i row 0) x.

(** [x[:, 1:]] *)
Definition drop_first {A : Type} (x : list (list A)) : list (list A) :=
  map (drop 1) x.

(** [x[:, None, :]] *)
Definition unsqueeze1 (x : tensor2) : tensor3 :=
  map (fun row => [row]) x.

(** [x[:, :, None]] *)
Definition unsqueeze_last (x : tensor2) : tensor3 :=
  map (map (fun v => [v])) x.

(** [x[..., c]] on a rank-3 tensor. *)
Definition select_last (c : nat) (x : tensor3) : tensor2 :=
  map (map (fun v => nth c v 0)) x.

(** [x[:, 0, :]] *)
Definition select_first_time (x : tensor3) : tensor2 :=
  map (fun rows => nth 0 rows []) x.

(** [x / c] *)
Definition div_scalar3 (c : R) (x : tensor3) : tensor3 :=
  map (map (map (fun v => v / c))) x.

(** [torch.cat([a, b], dim=-1)] on rank-3 tensors that agree on the first
    two dimensions. *)
Definition cat_last (a b : tensor3) : tensor3 :=
  zip_with (zip_with app) a b.

(** [x.permute(0, 2, 1)] *)
Definition transpose (m : tensor2) : tensor2 :=
  map (fun j => map (fun row => nth j row 0) m) (seq 0 (size1 m)).

Definition permute_0_2_1 (x : tensor3) : tensor3 := map transpose x.

Definition Rsum (l : list R) : R := fold_right Rplus 0 l.

Definition dot (u v : list R) : R := Rsum (zip_with Rmult u v).

(** [a @ m] for a rank-3 [a] and a matrix [m]: every row vector of [a] is
    multiplied by [m]. *)
Definition vecmat (v : tensor1) (m : tensor2) : tensor1 :=
  map (fun j => dot v (map (fun row => nth j row 0) m)) (seq 0 (size1 m)).

Definition matmul (a : tensor3) (m : tensor2) : tensor3 :=
  map (map (fun v => vecmat v m)) a.

(** [F.sigmoid] and [F.tanh], elementwise. *)
Definition sigmoid (x : R) : R := 1 / (1 + exp (- x)).

Definition tanh2 (x : tensor2) : tensor2 := map (map tanh) x.

Definition sigmoid2 (x : tensor2) : tensor2 := map (map sigmoid) x.

(** [F.softmax(x, dim=-1)] *)
Definition softmax (l : tensor1) : tensor1 :=
  map (fun e => e / Rsum (map exp l)) (map exp l).

Definition softmax3 (x : tensor3) : tensor3 := map (map softmax) x.

(** [torch.argmax(x, dim=-1)]: the index of the first maximal entry. *)
Fixpoint argmax_from (best : nat) (vbest : R) (i : nat) (l : list R) : nat :=
  match l with
  | [] => best
  | v :: l' =>
      if Rlt_dec vbest v
      then argmax_from i v (S i) l'
      else argmax_from best vbest (S i) l'
  end.

Definition argmax (l : tensor1) : nat :=
  match l with
  | [] => 0%nat
  | v :: l' => argmax_from 0 v 1 l'
  end.

Definition argmax3 (x : tensor3) : list (list nat) := map (map argmax) x.

(** [costs.sum(1).mean()] *)
Definition mean (l : list R) : R := Rsum l / INR (length l).

Definition sum_time (x : tensor3) : tensor2 :=
  map (fun rows => map (fun j => Rsum (map (fun v => nth j v 0) rows))
                       (seq 0 (size1 rows))) x.

Definition loss_of (costs : tensor3) : R := mean (concat (sum_time costs)).

(** ** Python exceptions *)

Inductive exn : Type :=
| KeyError (key : string)
| ZeroDivisionError
| TypeError
| ValueError
| IndexError.

Inductive result (A : Type) : Type :=
| Ok (a : A)
| Raise (e : exn).

Arguments Ok {A} a.
Arguments Raise {A} e.

#[global] Instance result_ret : MRet result := fun A a => Ok a.

#[global] Instance result_bind : MBind result :=
  fun A B f r =>
    match r with
    | Ok a => f a
    | Raise e => Raise e
    end.

#[global] Instance result_fmap : FMap result :=
  fun A B f r =>
    match r with
    | Ok a => Ok (f a)
    | Raise e => Raise e
    end.

Definition returns {A : Type} (r : result A) : Prop :=
  match r with
  | Ok _ => True
  | Raise _ => False
  end.

(** ** The torch runtime seen by a forward pass *)

(** The branch an action selection takes. *)
Inductive selection : Type := hard | soft.

(** What a forward pass does that the claims speak about: the calls to the
    battery simulator and to the prediction head of the signature
    controller, each with the autograd switch at the time of the call, and
    the branch taken by each action selection of the discrete controller. *)
Inductive event : Type :=
| selected (s : selection)
| get_random_initial_state_call (batch : nat)
| get_initial_state_call (batch : nat)
| get_neutral_trace_call (batch time : nat)
| fc_call (grad : bool) (features : tensor3)
| forward_call (grad : bool) (grid pv : tensor2) (beta : option R)
               (random_initial_state : bool)
| static_forward_call (grad : bool) (estimated grid pv : tensor2)
                      (beta : option R).

Record runtime : Type := {
  generator : N;          (* state of torch's default random generator *)
  grad_enabled : bool;    (* torch.is_grad_enabled() *)
  events : list event     (* ghost: what happened so far, oldest first *)
}.

Definition M (A : Type) : Type := runtime -> A * runtime.

#[global] Instance M_ret : MRet M := fun A a w => (a, w).

#[global] Instance M_bind : MBind M :=
  fun A B f m w => let (a, w') := m w in f a w'.

Definition tell (c : event) : M unit :=
  fun w => (tt, {| generator := generator w;
                   grad_enabled := grad_enabled w;
                   events := events w ++ [c] |}).

Definition is_grad_enabled : M bool :=
  fun w => (grad_enabled w, w).

Definition set_grad_enabled (b : bool) : M unit :=
  fun w => (tt, {| generator := generator w;
                   grad_enabled := b;
                   events := events w |}).

(** A computation that draws from the random generator. *)
Definition draw {A : Type} (f : N -> A * N) : M A :=
  fun w => let (a, g) := f (generator w) in
           (a, {| generator := g;
                  grad_enabled := grad_enabled w;
                  events := events w |}).

(** [with torch.no_grad(): body] *)
Definition no_grad {A : Type} (body : M A) : M A :=
  prev ← is_grad_enabled;
  _ ← set_grad_enabled false;
  a ← body;
  _ ← set_grad_enabled prev;
  mret a.

(** [for _ in range(n): carry = body(carry)] *)
Fixpoint for_range {A : Type} (n : nat) (body : A -> M A) (carry : A) : M A :=
  match n with
  | O => mret carry
  | S n' => carry' ← body carry; for_range n' body carry'
  end.

(** [for i in range(n)] with the index. *)
Fixpoint for_each {A : Type} (idx : list nat) (body : nat -> A -> M A)
    (carry : A) : M A :=
  match idx with
  | [] => mret carry
  | i :: idx' => carry' ← body i carry; for_each idx' body carry'
  end.

(** ** The battery simulator ([.battery], interface only) *)

Module BatteryEnv.
Record t : Type := {
  capacity_kWh : R;
  get_random_initial_state : nat -> N -> tensor2 * N;
  get_initial_state : nat -> tensor2;
  (* battery(state, grid_action, pv_action, pv_t, pr_t, beta=...,
             is_peak_time_if_taxed=...) -> (state, cost) *)
  forward : tensor2 -> tensor2 -> tensor2 -> tensor2 -> tensor2 ->
            option R -> tensor1 -> tensor2 * tensor2
}.
End BatteryEnv.

Module SeqBatteryEnv.
Record t : Type := {
  capacity_kWh : R;
  get_neutral_trace : nat -> nat -> tensor2;
  (* forward(grid, pv_action, pv, pr, beta=..., random_initial_state=...,
             is_peak_time_if_taxed=...) -> (battery_trace, costs) *)
  forward : tensor2 -> tensor2 -> tensor2 -> tensor2 -> option R -> bool ->
            tensor2 -> N -> (tensor2 * tensor2) * N;
  (* static_forward(estimated_state, grid, pv_action, pv, pr, beta=...,
                    is_peak_time_if_taxed=...) -> (battery_trace, costs) *)
  static_forward : tensor2 -> tensor2 -> tensor2 -> tensor2 -> tensor2 ->
                   option R -> tensor2 -> tensor2 * tensor2
}.
End SeqBatteryEnv.

(** ** The training driver (pytorch_lightning, interface only)

    Of [Trainer.fit] only the order of the hooks matters here:
    [on_train_start] once, then for every epoch [on_train_epoch_end], during
    which [self.current_epoch] is the zero-based index of the epoch that
    just ran (the trainer advances it after the hook).  The optimisation
    between the hooks ([model.train()], [training_step], the optimizer
    steps) updates the networks and the mode flag and leaves beta alone; it
    is not part of [fit] below, which therefore says what a training run
    does to beta and nothing about the networks. *)

Module Lightning.
Class LightningModule (A : Type) : Type := {
  with_current_epoch : Z -> A -> A;
  on_train_start : A -> A;
  on_train_epoch_end : A -> result A
}.

Definition fit {A : Type} `{LightningModule A} (epochs : nat) (self : A)
    : result A :=
  foldl (fun acc e =>
           self' ← acc;
           on_train_epoch_end (with_current_epoch (Z.of_nat e) self'))
        (Ok (on_train_start self)) (seq 0 epochs).
End Lightning.

(** ** The discrete controller ([discrete_stateful_rnn_model.py]) *)

(** The seven actions: max charge, medium charge, solar only, solar low,
    hold, low discharge, high discharge; a row is (grid, panel). *)
Definition policy_matrix : tensor2 :=
  [ [1; 1];
    [0.5; 1];
    [0; 1];
    [0; 0.5];
    [0; 0];
    [-0.5; 0];
    [-1; 0] ].

(** [m[idx, column]] for an index tensor [idx]. *)
Definition lookup_policy (m : tensor2) (column : nat) (idx : list (list nat))
    : tensor2 :=
  map (map (fun a => nth column (nth a m []) 0)) idx.

(** [acc[:, i, :] += v], in place: [acc] keeps its shape.  (torch raises when
    [v] does not broadcast to the slice; an entry that [v] lacks reads as 0.) *)
Definition add_at_time (i : nat) (acc : tensor3) (v : tensor2) : tensor3 :=
  imap (fun b rows =>
          alter (imap (fun c a => a + nth c (nth b v []) 0)) i rows) acc.

Module DiscreteStatefulRNNModel.

Record t : Type := {
  (* nn.GRU(batch_first=True): (training, x_t, h0) -> (z_t, h0) *)
  encoder : bool -> tensor3 -> tensor3 -> N -> (tensor3 * tensor3) * N;
  encoder_num_layers : nat;
  encoder_hidden_size : nat;
  (* Linear, ReLU, Linear(fc_size, 7) *)
  fc : tensor3 -> tensor3;
  battery : BatteryEnv.t;
  beta : option R;
  beta_min : R;
  beta_increment : R;
  beta_max : R;
  increase_beta_per_n_epoch : Z;
  self_policy_matrix : tensor2;
  semi_discrete : bool;
  training : bool;
  current_epoch : Z
}.

Definition with_beta (b : option R) (self : t) : t :=
  {| encoder := encoder self;
     encoder_num_layers := encoder_num_layers self;
     encoder_hidden_size := encoder_hidden_size self;
     fc := fc self;
     battery := battery self;
     beta := b;
     beta_min := beta_min self;
     beta_increment := beta_increment self;
     beta_max := beta_max self;
     increase_beta_per_n_epoch := increase_beta_per_n_epoch self;
     self_policy_matrix := self_policy_matrix self;
     semi_discrete := semi_discrete self;
     training := training self;
     current_epoch := current_epoch self |}.

Definition with_epoch (e : Z) (self : t) : t :=
  {| encoder := encoder self;
     encoder_num_layers := encoder_num_layers self;
     encoder_hidden_size := encoder_hidden_size self;
     fc := fc self;
     battery := battery self;
     beta := beta self;
     beta_min := beta_min self;
     beta_increment := beta_increment self;
     beta_max := beta_max self;
     increase_beta_per_n_epoch := increase_beta_per_n_epoch self;
     self_policy_matrix := self_policy_matrix self;
     semi_discrete := semi_discrete self;
     training := training self;
     current_epoch := e |}.

Definition reset_beta (self : t) : t :=
  with_beta (Some (beta_min self)) self.

Definition on_train_start (self : t) : t := reset_beta self.

Definition get_initial_h (self : t) (batch_size : nat) : tensor3 :=
  zeros3 (encoder_num_layers self) batch_size (encoder_hidden_size self).

(** Lines 127-130 and 166-168: the row of the table at the argmax. *)
Definition hard_action (self : t) (out : tensor3) : tensor2 * tensor2 :=
  let hard_action := argmax3 out in
  (lookup_policy (self_policy_matrix self) 0 hard_action,
   lookup_policy (self_policy_matrix self) 1 hard_action).

(** Lines 132-136 and 170-174: the expectation of the table under the
    softmax of the logits. *)
Definition soft_action (self : t) (out : tensor3) : tensor2 * tensor2 :=
  let soft_action := matmul (softmax3 out) (self_policy_matrix self) in
  (select_last 0 soft_action, select_last 1 soft_action).

Definition select_action (self : t) (hard_actions : bool) (out : tensor3)
    : M (tensor2 * tensor2) :=
  if hard_actions
  then _ ← tell (selected hard); mret (hard_action self out)
  else _ ← tell (selected soft); mret (soft_action self out).

(** Lines 106-111. *)
Definition initial_battery_state (self : t) (batch : nat) : M tensor2 :=
  if training self
  then _ ← tell (get_random_initial_state_call batch);
       draw (BatteryEnv.get_random_initial_state (battery self) batch)
  else _ ← tell (get_initial_state_call batch);
       mret (BatteryEnv.get_initial_state (battery self) batch).

(** The variables the loop of [forward] updates. *)
Record loop_state : Type := {
  h0 : tensor3;
  battery_state : tensor2;
  grid_actions : tensor3;
  pv_actions : tensor3;
  battery_states : tensor3;
  costs : tensor3
}.

(** [[x_t, battery_state[:, None, :] / capacity_kWh]] *)
Definition observe (self : t) (x_t : tensor3) (battery_state : tensor2)
    : tensor3 :=
  cat_last x_t
    (div_scalar3 (BatteryEnv.capacity_kWh (battery self))
                 (unsqueeze1 battery_state)).

(** Lines 119-150: one turn of the loop. *)
Definition forward_step (self : t) (x : tensor3) (pv pr peak_ind : tensor2)
    (hard_actions : bool) (i : nat) (s : loop_state) : M loop_state :=
  let x_t := slice_time i x in
  let pv_t := slice_time i pv in
  let pr_t := slice_time i pr in
  let x_t := observe self x_t (battery_state s) in
  '(z_t, h0') ← draw (encoder self (training self) x_t (h0 s));
  let out := fc self z_t in
  '(grid_action, pv_action) ← select_action self hard_actions out;
  let '(battery_state', cost) :=
    BatteryEnv.forward (battery self) (battery_state s) grid_action
      pv_action pv_t pr_t (beta self) (select_time i peak_ind) in
  mret {| h0 := h0';
          battery_state := battery_state';
          grid_actions := add_at_time i (grid_actions s) grid_action;
          pv_actions := add_at_time i (pv_actions s) pv_action;
          battery_states := add_at_time i (battery_states s) battery_state';
          costs := add_at_time i (costs s) cost |}.

Definition forward (self : t) (x : tensor3) (pv pr peak_ind : tensor2)
    (hard_actions : bool) : M (tensor3 * tensor3 * tensor3 * tensor3) :=
  let h0 := zeros3 (encoder_num_layers self) (size0 x)
                   (encoder_hidden_size self) in
  battery_state ← initial_battery_state self (size0 x);
  s ← for_each (seq 0 (size1 x))
        (forward_step self x pv pr peak_ind hard_actions)
        {| h0 := h0;
           battery_state := battery_state;
           grid_actions := zeros3 (size0 x) (size1 x) 1;
           pv_actions := zeros3 (size0 x) (size1 x) 1;
           battery_states := zeros3 (size0 x) (size1 x) 1;
           costs := zeros3 (size0 x) (size1 x) 1 |};
  mret (grid_actions s, pv_actions s, battery_states s, costs s).

Definition step_forward (self : t) (battery_state : tensor2) (x_t : tensor3)
    (h0 : tensor3) : M (tensor2 * tensor2 * tensor2 * tensor3) :=
  let x_t := observe self x_t battery_state in
  '(z_t, h0) ← draw (encoder self (training self) x_t h0);
  let out := fc self z_t in
  '(grid_action, pv_action) ←
    select_action self (negb (semi_discrete self)) out;
  mret (grid_action, pv_action, battery_state, h0).

(** A batch is [(state, pv_power, price, peak_ind)]; calling [self] on the
    unpacked batch leaves [hard_actions] at its default [False]. *)
Definition training_step (self : t)
    (batch : tensor3 * tensor2 * tensor2 * tensor2) : M R :=
  let '(x, pv, pr, peak_ind) := batch in
  '(_, _, _, costs) ← forward self x pv pr peak_ind false;
  mret (loss_of costs).

Definition validation_step (self : t)
    (batch : tensor3 * tensor2 * tensor2 * tensor2) : M R :=
  let '(x, pv, pr, peak_ind) := batch in
  '(_, _, _, costs) ←
    forward self x pv pr peak_ind
      (if semi_discrete self then false else true);
  mret (loss_of costs).

(** [current_epoch % n] raises on [n = 0]; [beta + increment] raises on a
    [beta] that [on_predict_start] set to [None]. *)
Definition on_train_epoch_end (self : t) : result t :=
  let current_epoch := current_epoch self in
  if (increase_beta_per_n_epoch self =? 0)%Z then Raise ZeroDivisionError
  else if (current_epoch `mod` increase_beta_per_n_epoch self =? 0)%Z then
    match beta self with
    | Some b =>
        Ok (with_beta (Some (Rmin (b + beta_increment self) (beta_max self)))
                      self)
    | None => Raise TypeError
    end
  else Ok self.

Definition on_predict_start (self : t) : t := with_beta None self.

Definition predict_step (self : t)
    (batch : tensor3 * tensor2 * tensor2 * tensor2)
    : M (tensor3 * tensor3 * tensor3 * tensor3) :=
  let '(x, pv, pr, peak_ind) := batch in
  forward self x pv pr peak_ind false.

#[global] Instance discrete_lightning : Lightning.LightningModule t := {
  Lightning.with_current_epoch := with_epoch;
  Lightning.on_train_start := on_train_start;
  Lightning.on_train_epoch_end := on_train_epoch_end
}.

End DiscreteStatefulRNNModel.

(** ** The signature-regression controller
       ([lazy_signature_regression_model.py]) *)

(** A layer that acts on the last dimension sees a rank-3 input as its
    [batch * time] rows and gives the result its first two dimensions back. *)
Fixpoint chunks {A : Type} (size count : nat) (l : list A) : list (list A) :=
  match count with
  | O => []
  | S count' => take size l :: chunks size count' (drop size l)
  end.

Definition apply_rows (f : tensor2 -> N -> tensor2 * N) (x : tensor3)
    : N -> tensor3 * N :=
  fun g => let (y, g') := f (concat x) g in
           (chunks (size1 x) (size0 x) y, g').

(** [signatory.Path]: the incrementally extended path of global features. *)
Module Path.
Record ops : Type := {
  t : Type;
  (* Path(data, depth, basepoint=...) *)
  new : tensor3 -> nat -> tensor2 -> t;
  update : t -> tensor3 -> t;
  size1 : t -> nat;
  logsignature : t -> tensor2
}.
End Path.

Module LazySigRegModel.

Record t : Type := {
  (* signatory.Augment: (batch, seq_len, input) -> (batch, seq_len, feature) *)
  global_conv : tensor3 -> tensor3;
  (* Conv1d, ReLU, BatchNorm1d, Dropout, Conv1d, ReLU, BatchNorm1d on
     (batch, channels, seq_len): (training, x) -> x'.  In training mode
     BatchNorm1d raises ValueError on an input with a single value per
     channel (batch * seq_len = 1); the field stands for the layers on the
     inputs they accept. *)
  local_conv : bool -> tensor3 -> N -> tensor3 * N;
  (* Dropout, Linear, ReLU, Linear, ReLU, Linear(reg_size, 2), on rows *)
  fc : bool -> tensor2 -> N -> tensor2 * N;
  (* signatory.LogSignature(depth, stream=True): (path, basepoint) *)
  expanding_logsig_map : tensor3 -> tensor2 -> tensor3;
  sig_depth : nat;
  battery : SeqBatteryEnv.t;
  beta : option R;
  beta_min : R;
  beta_increment : R;
  beta_max : R;
  increase_beta_per_n_epoch : Z;
  e_step_iters : Z;
  training : bool;
  current_epoch : Z
}.

Definition with_beta (b : option R) (self : t) : t :=
  {| global_conv := global_conv self;
     local_conv := local_conv self;
     fc := fc self;
     expanding_logsig_map := expanding_logsig_map self;
     sig_depth := sig_depth self;
     battery := battery self;
     beta := b;
     beta_min := beta_min self;
     beta_increment := beta_increment self;
     beta_max := beta_max self;
     increase_beta_per_n_epoch := increase_beta_per_n_epoch self;
     e_step_iters := e_step_iters self;
     training := training self;
     current_epoch := current_epoch self |}.

Definition with_epoch (e : Z) (self : t) : t :=
  {| global_conv := global_conv self;
     local_conv := local_conv self;
     fc := fc self;
     expanding_logsig_map := expanding_logsig_map self;
     sig_depth := sig_depth self;
     battery := battery self;
     beta := beta self;
     beta_min := beta_min self;
     beta_increment := beta_increment self;
     beta_max := beta_max self;
     increase_beta_per_n_epoch := increase_beta_per_n_epoch self;
     e_step_iters := e_step_iters self;
     training := training self;
     current_epoch := e |}.

Definition reset_beta (self : t) : t :=
  with_beta (Some (beta_min self)) self.

Definition on_train_start (self : t) : t := reset_beta self.

Definition e_step (self : t) (grid_action pv_action pv pr : tensor2)
    (peak_indicator : tensor2) : M (tensor2 * tensor2) :=
  g ← is_grad_enabled;
  _ ← tell (forward_call g grid_action pv_action None true);
  draw (SeqBatteryEnv.forward (battery self) grid_action pv_action pv pr
          None true peak_indicator).

Definition m_step (self : t) (grid_action pv_action : tensor2)
    (estimated_battery_state pv pr : tensor2) (peak_indicator : tensor2)
    : M (tensor2 * tensor2) :=
  let grid_action := tanh2 grid_action in
  let pv_action := sigmoid2 pv_action in
  g ← is_grad_enabled;
  _ ← tell (static_forward_call g estimated_battery_state grid_action
              pv_action (beta self));
  mret (SeqBatteryEnv.static_forward (battery self) estimated_battery_state
          grid_action pv_action pv pr (beta self) peak_indicator).

(** [torch.arange(0, n * (1 / 12), 1 / 12)] *)
Definition time_ticks (n : nat) : tensor1 :=
  map (fun i => INR i * (1 / 12)) (seq 0 n).

(** [torch.cat([x_expanding_logsig, x_local_feats,
                battery_trace[:, 1:, None] / capacity_kWh], dim=-1)] *)
Definition combine_features (self : t)
    (x_expanding_logsig x_local_feats : tensor3) (battery_trace : tensor2)
    : tensor3 :=
  cat_last (cat_last x_expanding_logsig x_local_feats)
    (div_scalar3 (SeqBatteryEnv.capacity_kWh (battery self))
                 (unsqueeze_last (drop_first battery_trace))).

(** Lines 176-187 and, word for word again, 197-208: the features of the
    current trajectory estimate, the prediction head, the squashing. *)
Definition predict (self : t) (x_expanding_logsig x_local_feats : tensor3)
    (battery_trace : tensor2) : M (tensor2 * tensor2) :=
  let features :=
    combine_features self x_expanding_logsig x_local_feats battery_trace in
  g ← is_grad_enabled;
  _ ← tell (fc_call g features);
  actions ← draw (apply_rows (fc self (training self)) features);
  let '(grid_actions, pv_actions) :=
    (select_last 0 actions, select_last 1 actions) in
  let grid_actions := tanh2 grid_actions in
  let pv_actions := sigmoid2 pv_actions in
  mret (grid_actions, pv_actions).

(** Lines 175-195: one turn of the estimation loop. *)
Definition refine (self : t) (x_expanding_logsig x_local_feats : tensor3)
    (pv pr peak_ind : tensor2) (battery_trace : tensor2) : M tensor2 :=
  '(grid_actions, pv_actions) ←
    predict self x_expanding_logsig x_local_feats battery_trace;
  '(battery_trace, _costs) ←
    e_step self grid_actions pv_actions pv pr peak_ind;
  mret battery_trace.

(** Lines 171-195. *)
Definition estimate_trace (self : t) (batch time : nat)
    (x_expanding_logsig x_local_feats : tensor3) (pv pr peak_ind : tensor2)
    : M tensor2 :=
  no_grad (
    _ ← tell (get_neutral_trace_call batch time);
    let battery_trace :=
      SeqBatteryEnv.get_neutral_trace (battery self) batch time in
    for_range (Z.to_nat (e_step_iters self))
      (refine self x_expanding_logsig x_local_feats pv pr peak_ind)
      battery_trace).

Section Transforms.
(** [max_abs_norm] of [.transforms], on the rank-3 stream of
    log-signatures and on the rank-2 log-signature of a path. *)
Variable max_abs_norm : tensor3 -> tensor3.
Variable max_abs_norm_2d : tensor2 -> tensor2.
Variable P : Path.ops.

(** Lines 142-162. *)
Definition extract_features (self : t) (x : tensor3)
    : M (tensor3 * tensor3) :=
  let x_global_feats := global_conv self x in
  x_local ← draw (local_conv self (training self) (permute_0_2_1 x));
  let x_local_feats := permute_0_2_1 x_local in
  let time_ticks := time_ticks (size1 x) in
  let x_global_feats :=
    cat_last
      (replicate (size0 x_global_feats) (map (fun v => [v]) time_ticks))
      x_global_feats in
  let x_expanding_logsig :=
    expanding_logsig_map self x_global_feats
      (select_first_time x_global_feats) in
  let x_expanding_logsig := max_abs_norm x_expanding_logsig in
  mret (x_expanding_logsig, x_local_feats).

Definition forward (self : t) (x : tensor3) (pv pr peak_ind : tensor2)
    : M (tensor2 * tensor2 * tensor2 * tensor2) :=
  '(x_expanding_logsig, x_local_feats) ← extract_features self x;
  battery_trace ←
    estimate_trace self (size0 x) (size1 x) x_expanding_logsig
      x_local_feats pv pr peak_ind;
  '(grid_actions, pv_actions) ←
    predict self x_expanding_logsig x_local_feats battery_trace;
  '(fantasy_battery_trace, costs) ←
    m_step self grid_actions pv_actions (drop_first battery_trace) pv pr
      peak_ind;
  mret (grid_actions, pv_actions, battery_trace, costs).

Definition step_forward (self : t) (battery_state : tensor2)
    (x_t : tensor3) (path : option (Path.t P))
    : M (tensor2 * tensor2 * Path.t P) :=
  let x_global_feats := global_conv self x_t in
  x_local ← draw (local_conv self (training self) (permute_0_2_1 x_t));
  let x_local_feats := permute_0_2_1 x_local in
  let path :=
    match path with
    | None =>
        let x_global_feats :=
          cat_last (replicate (size0 x_global_feats) [[0]])
                   x_global_feats in
        Path.new P x_global_feats (sig_depth self)
                 (select_first_time x_global_feats)
    | Some path =>
        let current_time_tick :=
          IZR (Z.of_nat (Path.size1 P path) - 2) * (1 / 12) in
        let x_global_feats :=
          cat_last
            (map (map (map (fun _ => current_time_tick))) x_global_feats)
            x_global_feats in
        Path.update P path x_global_feats
    end in
  let x_current_logsig := max_abs_norm_2d (Path.logsignature P path) in
  let x_t :=
    cat_last (cat_last (unsqueeze1 x_current_logsig) x_local_feats)
      (div_scalar3 (SeqBatteryEnv.capacity_kWh (battery self))
                   (unsqueeze1 battery_state)) in
  z ← draw (fc self (training self) (select_first_time x_t));
  let z_t := unsqueeze1 z in
  let '(grid_action, pv_action) :=
    (select_last 0 z_t, select_last 1 z_t) in
  let grid_action := tanh2 grid_action in
  let pv_action := sigmoid2 pv_action in
  mret (grid_action, pv_action, path).

Definition training_step (self : t)
    (batch : tensor3 * tensor2 * tensor2 * tensor2) : M R :=
  let '(x, pv, pr, peak_ind) := batch in
  '(_, _, _, costs) ← forward self x pv pr peak_ind;
  mret (mean (map Rsum costs)).

Definition validation_step (self : t)
    (batch : tensor3 * tensor2 * tensor2 * tensor2) : M R :=
  let '(x, pv, pr, peak_ind) := batch in
  '(_, _, _, costs) ← forward self x pv pr peak_ind;
  mret (mean (map Rsum costs)).
End Transforms.

Definition on_train_epoch_end (self : t) : result t :=
  let current_epoch := current_epoch self in
  if (increase_beta_per_n_epoch self =? 0)%Z then Raise ZeroDivisionError
  else if (current_epoch `mod` increase_beta_per_n_epoch self =? 0)%Z then
    match beta self with
    | Some b =>
        Ok (with_beta (Some (Rmin (b + beta_increment self) (beta_max self)))
                      self)
    | None => Raise TypeError
    end
  else Ok self.

Definition on_predict_start (self : t) : t := with_beta None self.

#[global] Instance lazysig_lightning : Lightning.LightningModule t := {
  Lightning.with_current_epoch := with_epoch;
  Lightning.on_train_start := on_train_start;
  Lightning.on_train_epoch_end := on_train_epoch_end
}.

End LazySigRegModel.

(** ** The deployment adapter ([trading_track/calibration.py]) *)

(** The recurrent controller the adapter loads ([.modules.stateful_rnn_model],
    interface only), in evaluation mode. *)
Module StatefulRNNModel.
Record t : Type := {
  get_initial_h : nat -> tensor3;
  step_forward : tensor2 -> tensor3 -> tensor3 ->
                 tensor2 * tensor2 * tensor2 * tensor3
}.
End StatefulRNNModel.

Module Calibration.

(** A value of a pandas row: missing ([NaN]), a number or a text. *)
Inductive cell : Type :=
| NA
| Num (x : R)
| Txt (s : string).

Definition isna (c : cell) : bool :=
  match c with
  | NA => true
  | _ => false
  end.

(** [d[key]] *)
Definition getitem {V : Type} (d : gmap string V) (key : string) : result V :=
  match d !! key with
  | Some v => Ok v
  | None => Raise (KeyError key)
  end.

(** [current.fillna(value)] for a row [value]: a missing entry takes the
    entry of [value] under the same label, if [value] has that label. *)
Definition fillna (value current : gmap string cell) : gmap string cell :=
  map_imap (fun key c =>
              if isna c
              then match value !! key with
                   | Some v => Some v
                   | None => Some c
                   end
              else Some c) current.

(** [tensor * value] for a value read from the external state. *)
Definition scale (a : R) (c : cell) : result cell :=
  match c with
  | NA => Ok NA
  | Num x => Ok (Num (a * x))
  | Txt _ => Raise TypeError
  end.

Record t : Type := {
  model : StatefulRNNModel.t;
  historical_states : list (gmap string cell);
  (* preprocessor.transform(insert) -> (state, pv_power, price, peak) *)
  preprocessor_transform :
    gmap string cell -> result (tensor2 * tensor2 * tensor2 * tensor2);
  means : gmap string cell;
  h : tensor3
}.

Definition with_history (hs : list (gmap string cell)) (self : t) : t :=
  {| model := model self;
     historical_states := hs;
     preprocessor_transform := preprocessor_transform self;
     means := means self;
     h := h self |}.

Definition with_h (h' : tensor3) (self : t) : t :=
  {| model := model self;
     historical_states := historical_states self;
     preprocessor_transform := preprocessor_transform self;
     means := means self;
     h := h' |}.

(** A csv file as [pd.read_csv] returns it: the labels of its columns and
    its rows; a cell the file leaves empty reads as NaN. *)
Record frame : Type := {
  frame_columns : list string;
  frame_rows : list (gmap string cell)
}.

(** What [__init__] takes from outside the class, each of which may raise:
    the checkpoint (loaded for a [BatteryEnv] built from three numbers), the
    two csv files under their fixed paths, and [drop_no_solar] and the fit
    of the [PriceSolarTransformer] of [.modules.segment_dataset]; a fitted
    transformer is its [transform]. *)
Record resources : Type := {
  load_from_checkpoint : R * R * R -> result StatefulRNNModel.t;
  read_training_data : result frame;
  drop_no_solar : frame -> result frame;
  fit : frame ->
        result (gmap string cell ->
                result (tensor2 * tensor2 * tensor2 * tensor2));
  read_training_means : result frame
}.

(** [frame.iloc[0]]: [IndexError] on a frame without rows. *)
Definition iloc0 (f : frame) : result (gmap string cell) :=
  match frame_rows f with
  | [] => Raise IndexError
  | row :: _ => Ok row
  end.

(** A method of the adapter: it may update the object and then return or
    raise; an update made before a raise stays. *)
Definition method (A : Type) : Type := t -> t * result A.

#[global] Instance method_ret : MRet method := fun A a self => (self, Ok a).

#[global] Instance method_bind : MBind method :=
  fun A B f m self =>
    match m self with
    | (self', Ok a) => f a self'
    | (self', Raise e) => (self', Raise e)
    end.

Definition lift {A : Type} (r : result A) : method A :=
  fun self => (self, r).

Definition get : method t := fun self => (self, Ok self).

Definition modify (f : t -> t) : method unit :=
  fun self => (f self, Ok tt).

Section Columns.
(** [active_columns] of [.modules.segment_dataset] and [pd.to_datetime]. *)
Variable active_columns : list string.
Variable to_datetime : cell -> result cell.

(** [frame[active_columns]]: [KeyError] if one of the labels is no column
    of the frame; otherwise the frame of these columns. *)
Definition select_columns (f : frame) : result frame :=
  match filter (fun key => key ∉ frame_columns f) active_columns with
  | key :: _ => Raise (KeyError key)
  | [] =>
      Ok {| frame_columns := active_columns;
            frame_rows :=
              map (fun row : gmap string cell =>
                     list_to_map
                       (map (fun key => (key, default NA (row !! key)))
                            active_columns))
                  (frame_rows f) |}
  end.

(** Lines 19-38. *)
Definition init (world : resources) : result t :=
  let battery := (13, 5, 7.5) in
  model ← load_from_checkpoint world battery;
  let historical_states := [] in
  training_data ← read_training_data world;
  training_data ← drop_no_solar world training_data;
  preprocessor ← fit world training_data;
  training_means ← read_training_means world;
  means ← select_columns training_means ≫= iloc0;
  mret {| model := model;
          historical_states := historical_states;
          preprocessor_transform := preprocessor;
          means := means;
          h := StatefulRNNModel.get_initial_h model 1 |}.

(** Lines 42-49. *)
Definition default_missing (self : t) (external_state : gmap string cell)
    : result (gmap string cell) :=
  foldl (fun acc key =>
           current ← acc;
           v ← match external_state !! key with
               | Some v => Ok v
               | None => getitem (means self) key
               end;
           mret (<[key := v]> current))
        (Ok ∅) active_columns.

(** Lines 42-55: the row of the current call, completed. *)
Definition complete (self : t) (external_state : gmap string cell)
    : result (gmap string cell) :=
  current ← default_missing self external_state;
  match last (historical_states self) with
  | Some last => mret (fillna last current)
  | None => mret (fillna (means self) current)
  end.

Definition act (external_state : gmap string cell)
    (internal_state : gmap string R) : method (cell * R) :=
  self ← get;
  current ← lift (complete self external_state);
  timestamp ← lift (getitem current "timestamp" ≫= to_datetime);
  let insert := <["timestamp" := timestamp]> current in
  _ ← modify (fun self =>
                with_history (historical_states self ++ [current]) self);
  '(state, pv_power, price, peak_indicator) ←
    lift (preprocessor_transform self insert);
  battery_soc ← lift (getitem internal_state "battery_soc");
  let '(grid_action, pv_action, battery_state, h') :=
    StatefulRNNModel.step_forward (model self) [[battery_soc]] [state]
      (h self) in
  _ ← modify (with_h h');
  cr ← lift (getitem internal_state "max_charge_rate");
  pv_power ← lift (getitem external_state "pv_power");
  pv_charge ← lift (scale (nth 0 (nth 0 pv_action []) 0) pv_power);
  let grid_charge := nth 0 (nth 0 grid_action []) 0 * cr in
  mret (pv_charge, grid_charge).
End Columns.

End Calibration.

(** ** Vocabulary of the properties *)

(** The ranges of the two components of an action. *)
Definition grid_range (v : R) : Prop := -1 <= v <= 1.

Definition solar_range (v : R) : Prop := 0 <= v <= 1.

Definition all2 (P : R -> Prop) (x : tensor2) : Prop := Forall (Forall P) x.

Definition all3 (P : R -> Prop) (x : tensor3) : Prop :=
  Forall (Forall (Forall P)) x.

(** [has_rows b t x]: the first two dimensions of [x] are [b] and [t]. *)
Definition has_rows {A : Type} (b t : nat) (x : list (list A)) : Prop :=
  length x = b /\ Forall (fun rows => length rows = t) x.

(** Every entry of [acc] satisfies [Q], and the entries at the time steps
    from [i] on are still the zeros of the allocation. *)
Definition filled_up_to (Q : R -> Prop) (i : nat) (acc : tensor3) : Prop :=
  forall b rows t cell c a,
    acc !! b = Some rows -> rows !! t = Some cell -> cell !! c = Some a ->
    Q a /\ ((i <= t)%nat -> a = 0).

(** The semantics the source documents for the seven actions. *)
Definition documented_action (i : nat) : R * R :=
  nth i [(1, 1); (0.5, 1); (0, 1); (0, 0.5); (0, 0); (-0.5, 0); (-1, 0)]
      (0, 0).

Definition branch (hard_actions : bool) : selection :=
  if hard_actions then hard else soft.

(** The branches of the action selections among a list of events. *)
Definition selections (evs : list event) : list selection :=
  omap (fun e => match e with selected s => Some s | _ => None end) evs.

(** The four outputs of the discrete [forward] during its loop. *)
Definition shaped (b t : nat) (s : DiscreteStatefulRNNModel.loop_state)
    : Prop :=
  has_shape [b; t; 1%nat] (DiscreteStatefulRNNModel.grid_actions s) /\
  has_shape [b; t; 1%nat] (DiscreteStatefulRNNModel.pv_actions s) /\
  has_shape [b; t; 1%nat] (DiscreteStatefulRNNModel.battery_states s) /\
  has_shape [b; t; 1%nat] (DiscreteStatefulRNNModel.costs s).

Definition ranged (i : nat) (s : DiscreteStatefulRNNModel.loop_state) : Prop :=
  filled_up_to grid_range i (DiscreteStatefulRNNModel.grid_actions s) /\
  filled_up_to solar_range i (DiscreteStatefulRNNModel.pv_actions s).

(** The request for an initial state the discrete [forward] makes. *)
Definition initial_state_event (self : DiscreteStatefulRNNModel.t)
    (batch : nat) : event :=
  if DiscreteStatefulRNNModel.training self
  then get_random_initial_state_call batch
  else get_initial_state_call batch.

(** The schedule of beta as the specification words it: one increment for
    every full interval of [n] epochs among the [k] completed ones. *)
Definition claimed_beta (floor increment ceiling : R) (n : Z) (k : nat) : R :=
  Rmin (floor + increment * IZR (Z.of_nat k / n)) ceiling.

(** The schedule of the hooks: one increment for every interval begun. *)
Definition annealed_beta (floor increment ceiling : R) (n : Z) (k : nat) : R :=
  Rmin (floor + increment * IZR ((Z.of_nat k + n - 1) / n)) ceiling.

Definition same_schedule (self s : DiscreteStatefulRNNModel.t) : Prop :=
  DiscreteStatefulRNNModel.beta_min s = DiscreteStatefulRNNModel.beta_min self /\
  DiscreteStatefulRNNModel.beta_increment s =
    DiscreteStatefulRNNModel.beta_increment self /\
  DiscreteStatefulRNNModel.beta_max s = DiscreteStatefulRNNModel.beta_max self /\
  DiscreteStatefulRNNModel.increase_beta_per_n_epoch s =
    DiscreteStatefulRNNModel.increase_beta_per_n_epoch self.

Definition same_schedule_sig (self s : LazySigRegModel.t) : Prop :=
  LazySigRegModel.beta_min s = LazySigRegModel.beta_min self /\
  LazySigRegModel.beta_increment s = LazySigRegModel.beta_increment self /\
  LazySigRegModel.beta_max s = LazySigRegModel.beta_max self /\
  LazySigRegModel.increase_beta_per_n_epoch s =
    LazySigRegModel.increase_beta_per_n_epoch self.

(** The features of a trajectory estimate, entry by entry: for every
    trajectory and every time step [i], the log-signature features, then the
    local features, then one more entry, the estimated state of charge after
    that step ([trace[i + 1]], the entry 0 of the trace being the initial
    state) as a fraction of the capacity. *)
Definition estimate_features (capacity : R) (logsig local : tensor3)
    (trace : tensor2) : tensor3 :=
  zip_with
    (fun features states =>
       zip_with (fun feature state => feature ++ [state / capacity])
                features (drop 1 states))
    (zip_with (zip_with (fun a b => a ++ b)) logsig local)
    trace.

(** The prediction head on the features of a trajectory estimate. *)
Definition head (self : LazySigRegModel.t)
    (x_expanding_logsig x_local_feats : tensor3) (battery_trace : tensor2)
    (gen : N) : tensor3 * N :=
  apply_rows (LazySigRegModel.fc self (LazySigRegModel.training self))
    (estimate_features
       (SeqBatteryEnv.capacity_kWh (LazySigRegModel.battery self))
       x_expanding_logsig x_local_feats battery_trace)
    gen.

Definition squashed (actions : tensor3) : tensor2 * tensor2 :=
  (tanh2 (select_last 0 actions), sigmoid2 (select_last 1 actions)).

(** The replay of the estimation step. *)
Definition replay (self : LazySigRegModel.t) (pv pr peak_ind : tensor2)
    (grid_action pv_action : tensor2) (gen : N) : (tensor2 * tensor2) * N :=
  SeqBatteryEnv.forward (LazySigRegModel.battery self) grid_action pv_action
    pv pr None true peak_ind gen.

(** [alternation self ... n trace gen evs trace' gen']: from the estimate
    [trace] and the generator state [gen], [n] rounds of (predict the
    actions from the current estimate, replay them through the simulator)
    leave the events [evs], the estimate [trace'] and the generator state
    [gen'].  In a round the prediction head is given the features of the
    current estimate, its two outputs are squashed and replayed, and the
    trace of the replay is the estimate of the next round; every round runs
    without gradients, the replay with a hard clamp ([beta=None]) and a
    random initial state. *)
Inductive alternation (self : LazySigRegModel.t)
    (x_expanding_logsig x_local_feats : tensor3) (pv pr peak_ind : tensor2)
    : nat -> tensor2 -> N -> list event -> tensor2 -> N -> Prop :=
| alternation_done (trace : tensor2) (gen : N) :
    alternation self x_expanding_logsig x_local_feats pv pr peak_ind
      0 trace gen [] trace gen
| alternation_round (n : nat) (trace : tensor2) (gen : N)
    (actions : tensor3) (gen1 : N) (trace1 costs1 : tensor2) (gen2 : N)
    (evs : list event) (trace' : tensor2) (gen' : N) :
    head self x_expanding_logsig x_local_feats trace gen = (actions, gen1) ->
    replay self pv pr peak_ind (fst (squashed actions))
      (snd (squashed actions)) gen1 = ((trace1, costs1), gen2) ->
    alternation self x_expanding_logsig x_local_feats pv pr peak_ind
      n trace1 gen2 evs trace' gen' ->
    alternation self x_expanding_logsig x_local_feats pv pr peak_ind
      (S n) trace gen
      (fc_call false
         (estimate_features
            (SeqBatteryEnv.capacity_kWh (LazySigRegModel.battery self))
            x_expanding_logsig x_local_feats trace)
       :: forward_call false (fst (squashed actions))
            (snd (squashed actions)) None true
       :: evs)
      trace' gen'.

(** An event of the estimation loop: a prediction or a replay, made with
    the autograd switch off, the replay with a hard clamp. *)
Definition detached (e : event) : Prop :=
  match e with
  | fc_call grad _ => grad = false
  | forward_call grad _ _ beta _ => grad = false /\ beta = None
  | _ => False
  end.

(** A replay that asks the simulator for a random initial state. *)
Definition random_replay (e : event) : Prop :=
  match e with
  | forward_call _ _ _ _ random_initial_state => random_initial_state = true
  | _ => False
  end.


(** The value lines 42-49 of [act] give a column. *)
Definition defaulted (self : Calibration.t)
    (external_state : gmap string Calibration.cell) (key : string)
    : option Calibration.cell :=
  match external_state !! key with
  | Some v => Some v
  | None => Calibration.means self !! key
  end.

(** The value a column has in the completed row. *)
Definition filled (self : Calibration.t)
    (external_state : gmap string Calibration.cell) (key : string)
    : option Calibration.cell :=
  match defaulted self external_state key with
  | Some v =>
      if Calibration.isna v
      then match last (Calibration.historical_states self) with
           | Some last => Some (default v (last !! key))
           | None => Some (default v (Calibration.means self !! key))
           end
      else Some v
  | None => None
  end.

(** Evaluation of a concrete run, the real numbers left as they are. *)
Ltac run :=
  cbv -[tanh sigmoid Rplus Rmult Rdiv Rinv Ropp Rminus IZR INR exp Rmin
        Rlt_dec Rle_dec].

(** ** Small instances

    One concrete object of each class, with the constructor defaults of the
    source where it has them; the networks are constant. *)

Module Examples.

Definition battery : BatteryEnv.t :=
  {| BatteryEnv.capacity_kWh := 13;
     BatteryEnv.get_random_initial_state :=
       fun batch gen => (replicate batch [13], N.succ gen);
     BatteryEnv.get_initial_state := fun batch => replicate batch [0];
     BatteryEnv.forward :=
       fun state grid_action pv_action pv_t pr_t beta peak =>
         (state, grid_action) |}.

(** Seven equal logits at every step. *)
Definition discrete (semi_discrete training : bool)
    : DiscreteStatefulRNNModel.t :=
  {| DiscreteStatefulRNNModel.encoder :=
       fun training x_t h0 gen => ((x_t, h0), gen);
     DiscreteStatefulRNNModel.encoder_num_layers := 1;
     DiscreteStatefulRNNModel.encoder_hidden_size := 1;
     DiscreteStatefulRNNModel.fc :=
       map (map (fun _ => [0; 0; 0; 0; 0; 0; 0]));
     DiscreteStatefulRNNModel.battery := battery;
     DiscreteStatefulRNNModel.beta := Some 0.5;
     DiscreteStatefulRNNModel.beta_min := 0.5;
     DiscreteStatefulRNNModel.beta_increment := 0.1;
     DiscreteStatefulRNNModel.beta_max := 5;
     DiscreteStatefulRNNModel.increase_beta_per_n_epoch := 2;
     DiscreteStatefulRNNModel.self_policy_matrix := policy_matrix;
     DiscreteStatefulRNNModel.semi_discrete := semi_discrete;
     DiscreteStatefulRNNModel.training := training;
     DiscreteStatefulRNNModel.current_epoch := 0 |}.

(** A simulator whose trace is the initial state followed by one state per
    action; the random initial state is read off the generator. *)
Definition seq_battery : SeqBatteryEnv.t :=
  {| SeqBatteryEnv.capacity_kWh := 13;
     SeqBatteryEnv.get_neutral_trace :=
       fun batch time => replicate batch (replicate (S time) 0);
     SeqBatteryEnv.forward :=
       fun grid pv_action pv pr beta random_initial_state peak gen =>
         ((map (fun row =>
                  (if random_initial_state then INR (N.to_nat gen) else 0)
                  :: row) grid,
           pv_action),
          N.succ gen);
     SeqBatteryEnv.static_forward :=
       fun estimated grid pv_action pv pr beta peak =>
         (estimated, grid) |}.

(** A prediction head with all weights zero: it answers (0, 0).  The
    feature extractors hand their input on, which on the all-zero batches
    below is what layers with zero weights return.  The BatchNorm1d layers
    of [local_conv] accept a batch in training mode only if it has more
    than one value per channel ([batch * time >= 2]); the forward passes
    below are therefore made in evaluation mode on the one-step batch and
    in training mode on the two-step batch. *)
Definition lazysig (e_step_iters : Z) (training : bool)
    : LazySigRegModel.t :=
  {| LazySigRegModel.global_conv := fun x => x;
     LazySigRegModel.local_conv := fun training x gen => (x, gen);
     LazySigRegModel.fc :=
       fun training rows gen => (map (fun _ => [0; 0]) rows, gen);
     LazySigRegModel.expanding_logsig_map := fun path basepoint => path;
     LazySigRegModel.sig_depth := 3;
     LazySigRegModel.battery := seq_battery;
     LazySigRegModel.beta := Some 0.5;
     LazySigRegModel.beta_min := 0.5;
     LazySigRegModel.beta_increment := 0.1;
     LazySigRegModel.beta_max := 5;
     LazySigRegModel.increase_beta_per_n_epoch := 2;
     LazySigRegModel.e_step_iters := e_step_iters;
     LazySigRegModel.training := training;
     LazySigRegModel.current_epoch := 0 |}.

Definition identity3 (x : tensor3) : tensor3 := x.

(** One trajectory of one time step with one feature. *)
Definition x : tensor3 := [[[0]]].
Definition pv : tensor2 := [[0]].
Definition pr : tensor2 := [[0]].
Definition peak_ind : tensor2 := [[0]].

(** One trajectory of two time steps with one feature. *)
Definition x2 : tensor3 := [[[0]; [0]]].
Definition pv2 : tensor2 := [[0; 0]].
Definition pr2 : tensor2 := [[0; 0]].
Definition peak_ind2 : tensor2 := [[0; 0]].

Definition fresh : runtime :=
  {| generator := 0%N; grad_enabled := true; events := [] |}.

Definition path : Path.ops :=
  {| Path.t := nat;
     Path.new := fun data depth basepoint => 2%nat;
     Path.update := fun path data => S path;
     Path.size1 := fun path => path;
     Path.logsignature := fun path => [[0]] |}.

(** The adapter after one call, with three active columns. *)
Definition active_columns : list string :=
  ["timestamp"; "price"; "pv_power"]%string.

Definition training_means : gmap string Calibration.cell :=
  <["timestamp" := Calibration.Txt "2023-06-01 12:00"]>
    (<["price" := Calibration.Num 40]>
       (<["pv_power" := Calibration.Num 3]> ∅)).

Definition first_record : gmap string Calibration.cell :=
  <["timestamp" := Calibration.Txt "2024-01-01 00:00"]>
    (<["price" := Calibration.Num 55]>
       (<["pv_power" := Calibration.Num 2]> ∅)).

Definition calibration : Calibration.t :=
  {| Calibration.model :=
       {| StatefulRNNModel.get_initial_h := fun batch => [];
          StatefulRNNModel.step_forward :=
            fun battery_state x_t h => ([[1]], [[1]], battery_state, h) |};
     Calibration.historical_states := [first_record];
     Calibration.preprocessor_transform :=
       fun insert => Ok ([[0]], [[0]], [[0]], [[0]]);
     Calibration.means := training_means;
     Calibration.h := [] |}.

(** The same adapter when the training mean of the price is NaN. *)
Definition calibration_nan_mean : Calibration.t :=
  {| Calibration.model := Calibration.model calibration;
     Calibration.historical_states := [first_record];
     Calibration.preprocessor_transform :=
       Calibration.preprocessor_transform calibration;
     Calibration.means := <["price" := Calibration.NA]> training_means;
     Calibration.h := [] |}.

Definition to_datetime (c : Calibration.cell) : result Calibration.cell :=
  Ok c.

(** A record that lacks the price, one that lacks everything but the
    timestamp, and the state of the device. *)
Definition without_price : gmap string Calibration.cell :=
  <["timestamp" := Calibration.Txt "2024-01-01 00:05"]>
    (<["pv_power" := Calibration.Num 1]> ∅).

Definition without_pv_power : gmap string Calibration.cell :=
  <["timestamp" := Calibration.Txt "2024-01-01 00:05"]>
    (<["price" := Calibration.Num 60]> ∅).

Definition nan_price : gmap string Calibration.cell :=
  <["timestamp" := Calibration.Txt "2024-01-01 00:05"]>
    (<["price" := Calibration.NA]>
       (<["pv_power" := Calibration.Num 1]> ∅)).

Definition internal_state : gmap string R :=
  <["battery_soc" := 5]> (<["max_charge_rate" := 5]> ∅).

End Examples.

(** ** Further vocabulary and instances *)

(** The solar fraction is at least the grid fraction and exceeds it by at
    most one. *)
Definition solar_covers_grid (grid solar : R) : Prop :=
  grid <= solar <= grid + 1.

(** The softmax expectation of the values the seven actions give one of
    the two fractions: the sum over the actions of [exp logit * value],
    divided by the sum of the [exp logit]. *)
Definition expected (values : list R) (logits : tensor1) : R :=
  Rsum (zip_with (fun logit value => exp logit * value) logits values)
  / Rsum (map exp logits).

(** What a selection computes from one logit vector, in the words of the
    documentation: by argmax the documented action at the first largest
    logit, softly the expectation of the documented actions under the
    softmax of the logits. *)
Definition chosen (s : selection) (logits : tensor1) : R * R :=
  match s with
  | hard => documented_action (argmax logits)
  | soft =>
      (expected (map (fun k => fst (documented_action k)) (seq 0 7)) logits,
       expected (map (fun k => snd (documented_action k)) (seq 0 7)) logits)
  end.

Definition chosen_grid (s : selection) (out : tensor3) : tensor2 :=
  map (map (fun logits => fst (chosen s logits))) out.

Definition chosen_solar (s : selection) (out : tensor3) : tensor2 :=
  map (map (fun logits => snd (chosen s logits))) out.

(** The summed cost of all trajectories of a batch of shape (b, t, 1). *)
Definition total_cost (costs : tensor3) : R :=
  Rsum (map (fun rows => Rsum (map (fun c => nth 0 c 0) rows)) costs).

(** Controllers with an anneal interval of zero epochs. *)
Definition discrete_without_interval : DiscreteStatefulRNNModel.t :=
  {| DiscreteStatefulRNNModel.encoder :=
       fun training x_t h0 gen => ((x_t, h0), gen);
     DiscreteStatefulRNNModel.encoder_num_layers := 1;
     DiscreteStatefulRNNModel.encoder_hidden_size := 1;
     DiscreteStatefulRNNModel.fc :=
       map (map (fun _ => [0; 0; 0; 0; 0; 0; 0]));
     DiscreteStatefulRNNModel.battery := Examples.battery;
     DiscreteStatefulRNNModel.beta := Some 0.5;
     DiscreteStatefulRNNModel.beta_min := 0.5;
     DiscreteStatefulRNNModel.beta_increment := 0.1;
     DiscreteStatefulRNNModel.beta_max := 5;
     DiscreteStatefulRNNModel.increase_beta_per_n_epoch := 0;
     DiscreteStatefulRNNModel.self_policy_matrix := policy_matrix;
     DiscreteStatefulRNNModel.semi_discrete := false;
     DiscreteStatefulRNNModel.training := true;
     DiscreteStatefulRNNModel.current_epoch := 0 |}.

Definition lazysig_without_interval : LazySigRegModel.t :=
  {| LazySigRegModel.global_conv := fun x => x;
     LazySigRegModel.local_conv := fun training x gen => (x, gen);
     LazySigRegModel.fc :=
       fun training rows gen => (map (fun _ => [0; 0]) rows, gen);
     LazySigRegModel.expanding_logsig_map := fun path basepoint => path;
     LazySigRegModel.sig_depth := 3;
     LazySigRegModel.battery := Examples.seq_battery;
     LazySigRegModel.beta := Some 0.5;
     LazySigRegModel.beta_min := 0.5;
     LazySigRegModel.beta_increment := 0.1;
     LazySigRegModel.beta_max := 5;
     LazySigRegModel.increase_beta_per_n_epoch := 0;
     LazySigRegModel.e_step_iters := 5;
     LazySigRegModel.training := true;
     LazySigRegModel.current_epoch := 0 |}.

(** A batch of one trajectory without time steps. *)
Definition no_steps : tensor3 := [[]].

Definition no_series : tensor2 := [[]].

(** A row that has a value, not NaN, in every one of the columns. *)
Definition complete_row (columns : list string)
    (row : gmap string Calibration.cell) : Prop :=
  forall k, k ∈ columns ->
    exists v, row !! k = Some v /\ Calibration.isna v = false.

(** The adapter after a series of calls of [act], whatever each of them
    returned or raised. *)
Definition after_calls (columns : list string)
    (to_datetime : Calibration.cell -> result Calibration.cell)
    (calls : list (gmap string Calibration.cell * gmap string R))
    (self : Calibration.t) : Calibration.t :=
  foldl (fun self call =>
           fst (Calibration.act columns to_datetime (fst call) (snd call)
                  self))
        self calls.

(** Files and helpers with which the construction of the adapter
    succeeds; the file of the means has one row and a column more than the
    active ones. *)
Definition world : Calibration.resources :=
  {| Calibration.load_from_checkpoint :=
       fun battery => Ok (Calibration.model Examples.calibration);
     Calibration.read_training_data :=
       Ok {| Calibration.frame_columns := Examples.active_columns;
             Calibration.frame_rows := [Examples.first_record] |};
     Calibration.drop_no_solar := fun data => Ok data;
     Calibration.fit :=
       fun data =>
         Ok (Calibration.preprocessor_transform Examples.calibration);
     Calibration.read_training_means :=
       Ok {| Calibration.frame_columns :=
               "load"%string :: Examples.active_columns;
             Calibration.frame_rows :=
               [<["load" := Calibration.Num 1]> Examples.training_means] |}
  |}.

(** What [act] returns once the model has run (lines 68-71). *)
Definition charges (external_state : gmap string Calibration.cell)
    (internal_state : gmap string R) (grid_action pv_action : tensor2)
    : result (Calibration.cell * R) :=
  match internal_state !! "max_charge_rate" with
  | None => Raise (KeyError "max_charge_rate")
  | Some cr =>
      match external_state !! "pv_power" with
      | None => Raise (KeyError "pv_power")
      | Some pv_power =>
          match Calibration.scale (nth 0 (nth 0 pv_action []) 0) pv_power with
          | Ok pv_charge =>
              Ok (pv_charge, nth 0 (nth 0 grid_action []) 0 * cr)
          | Raise e => Raise e
          end
      end
  end.

(** * Properties *)

(** ** Squashing and softmax *)

Lemma sigmoid_range (x : R) : 0 < sigmoid x < 1.
Proof.
  unfold sigmoid. pose proof (exp_pos (- x)) as He. split.
  - apply Rdiv_lt_0_compat; lra.
  - apply Rmult_lt_reg_r with (1 + exp (- x)); [lra|]. field_simplify; lra.
Qed.

Lemma tanh_range (x : R) : -1 < tanh x < 1.
Proof.
  unfold tanh, sinh, cosh.
  pose proof (exp_pos x) as Hp. pose proof (exp_pos (- x)) as Hn.
  split; apply Rmult_lt_reg_r with ((exp x + exp (- x)) / 2);
    try lra; field_simplify; lra.
Qed.

Lemma sigmoid_0 : sigmoid 0 = 1 / 2.
Proof. unfold sigmoid. rewrite Ropp_0, exp_0. lra. Qed.

Lemma sigmoid_above_half (x : R) : 0 < x -> 1 / 2 < sigmoid x.
Proof.
  intros Hx. unfold sigmoid.
  assert (exp (- x) < 1) as He.
  { rewrite <- exp_0. apply exp_increasing. lra. }
  pose proof (exp_pos (- x)) as Hp.
  apply Rmult_lt_reg_r with (2 * (1 + exp (- x))); [lra|]. field_simplify; lra.
Qed.

Lemma sigmoid_twice_above_half (z : R) : 1 / 2 < sigmoid (sigmoid z).
Proof. apply sigmoid_above_half, sigmoid_range. Qed.

Lemma tanh_0 : tanh 0 = 0.
Proof. unfold tanh, sinh. rewrite Ropp_0, exp_0. lra. Qed.

Lemma Rsum_scale (c : R) (l : list R) :
  Rsum (map (fun e => e / c) l) = Rsum l / c.
Proof.
  induction l as [|a l IH]; simpl.
  - lra.
  - unfold Rsum in *. simpl. rewrite IH. lra.
Qed.

Lemma Rsum_exp_pos (l : list R) : l <> [] -> 0 < Rsum (map exp l).
Proof.
  destruct l as [|a l]; [congruence|intros _].
  simpl. unfold Rsum; simpl.
  assert (0 <= fold_right Rplus 0 (map exp l)) as H.
  { induction l as [|b l IH]; simpl; [lra|]. pose proof (exp_pos b). lra. }
  pose proof (exp_pos a). lra.
Qed.

Lemma softmax_nonneg (l : list R) : Forall (fun w => 0 <= w) (softmax l).
Proof.
  unfold softmax. destruct l as [|a l]; [constructor|].
  pose proof (Rsum_exp_pos (a :: l) ltac:(congruence)) as Hs.
  apply Forall_forall. intros w Hw. apply list_elem_of_In in Hw.
  apply in_map_iff in Hw as [e [<- He]]. apply in_map_iff in He as [y [<- _]].
  pose proof (exp_pos y). apply Rlt_le, Rdiv_lt_0_compat; lra.
Qed.

Lemma softmax_sum (l : list R) : l <> [] -> Rsum (softmax l) = 1.
Proof.
  intros Hl. unfold softmax. rewrite Rsum_scale.
  pose proof (Rsum_exp_pos l Hl). field. lra.
Qed.

Lemma all2_map (P : R -> Prop) (f : R -> R) (x : tensor2) :
  (forall v, P (f v)) -> all2 P (map (map f) x).
Proof.
  intros Hf. unfold all2. apply Forall_forall. intros row Hrow.
  apply list_elem_of_In, in_map_iff in Hrow as [r [<- _]].
  apply Forall_forall. intros v Hv.
  apply list_elem_of_In, in_map_iff in Hv as [y [<- _]]. apply Hf.
Qed.

Lemma dot_cons (a b : R) (u v : list R) : dot (a :: u) (b :: v) = a * b + dot u v.
Proof. reflexivity. Qed.

Lemma Rsum_nonneg (w : list R) : Forall (fun x => 0 <= x) w -> 0 <= Rsum w.
Proof.
  induction 1 as [|a w Ha _ IH]; unfold Rsum in *; simpl; lra.
Qed.

Lemma dot_bounds (a b : R) (w v : list R) :
  a <= 0 <= b ->
  Forall (fun x => 0 <= x) w ->
  Forall (fun x => a <= x <= b) v ->
  a * Rsum w <= dot w v <= b * Rsum w.
Proof.
  intros Hab Hw. revert v.
  induction Hw as [|x w Hx Hw IH]; intros v Hv.
  - unfold dot, Rsum; simpl. lra.
  - destruct Hv as [|y v Hy Hv].
    + assert (0 <= Rsum (x :: w)) as Hs by (apply Rsum_nonneg; constructor; assumption).
      change (dot (x :: w) []) with 0. nra.
    + rewrite dot_cons. specialize (IH v Hv).
      change (Rsum (x :: w)) with (x + Rsum w). nra.
Qed.

Lemma softmax_sum_le_1 (l : list R) : 0 <= Rsum (softmax l) <= 1.
Proof.
  destruct l as [|a l].
  - unfold softmax, Rsum; simpl. lra.
  - rewrite softmax_sum by congruence. lra.
Qed.

Lemma expectation_bounds (a b : R) (l v : list R) :
  a <= 0 <= b ->
  Forall (fun x => a <= x <= b) v ->
  a <= dot (softmax l) v <= b.
Proof.
  intros Hab Hv.
  pose proof (dot_bounds a b (softmax l) v Hab (softmax_nonneg l) Hv).
  pose proof (softmax_sum_le_1 l). nra.
Qed.

Lemma policy_grid_column :
  map (fun row => nth 0 row 0) policy_matrix = [1; 0.5; 0; 0; 0; -0.5; -1].
Proof. reflexivity. Qed.

Lemma policy_solar_column :
  map (fun row => nth 1 row 0) policy_matrix = [1; 1; 1; 0.5; 0; 0; 0].
Proof. reflexivity. Qed.

Lemma soft_grid_range (l : list R) :
  grid_range (nth 0 (vecmat (softmax l) policy_matrix) 0).
Proof.
  change (nth 0 (vecmat (softmax l) policy_matrix) 0)
    with (dot (softmax l) (map (fun row => nth 0 row 0) policy_matrix)).
  rewrite policy_grid_column. apply expectation_bounds; [lra|].
  repeat constructor; lra.
Qed.

Lemma soft_solar_range (l : list R) :
  solar_range (nth 1 (vecmat (softmax l) policy_matrix) 0).
Proof.
  change (nth 1 (vecmat (softmax l) policy_matrix) 0)
    with (dot (softmax l) (map (fun row => nth 1 row 0) policy_matrix)).
  rewrite policy_solar_column. apply expectation_bounds; [lra|].
  repeat constructor; lra.
Qed.

Lemma hard_grid_range (a : nat) : grid_range (nth 0 (nth a policy_matrix []) 0).
Proof.
  unfold grid_range.
  do 7 (destruct a as [|a]; [simpl; lra|]). destruct a; simpl; lra.
Qed.

Lemma hard_solar_range (a : nat) : solar_range (nth 1 (nth a policy_matrix []) 0).
Proof.
  unfold solar_range.
  do 7 (destruct a as [|a]; [simpl; lra|]). destruct a; simpl; lra.
Qed.

(** ** The discrete controller: selection, ranges, shapes *)

Lemma run_bind {A B : Type} (m : M A) (f : A -> M B) (w : runtime) :
  (m ≫= f) w = f (fst (m w)) (snd (m w)).
Proof. unfold mbind, M_bind. destruct (m w); reflexivity. Qed.

Lemma all2_map_gen {A : Type} (P : R -> Prop) (f : A -> R) (x : list (list A)) :
  (forall v, P (f v)) -> all2 P (map (map f) x).
Proof.
  intros Hf. unfold all2. apply Forall_forall. intros row Hrow.
  apply list_elem_of_In, in_map_iff in Hrow as [r [<- _]].
  apply Forall_forall. intros v Hv.
  apply list_elem_of_In, in_map_iff in Hv as [y [<- _]]. apply Hf.
Qed.

Lemma all2_nth (P : R -> Prop) (v : tensor2) (b c : nat) :
  P 0 -> all2 P v -> P (nth c (nth b v []) 0).
Proof.
  intros H0 Hv.
  destruct (nth_in_or_default b v []) as [Hin | ->].
  - apply list_elem_of_In in Hin.
    pose proof (proj1 (Forall_forall _ _) Hv _ Hin) as Hrow.
    destruct (nth_in_or_default c (nth b v []) 0) as [Hc | ->]; [|exact H0].
    apply list_elem_of_In in Hc. exact (proj1 (Forall_forall _ _) Hrow _ Hc).
  - destruct c; exact H0.
Qed.

Lemma select_matmul_softmax (c : nat) (out : tensor3) (m : tensor2) :
  select_last c (matmul (softmax3 out) m) =
  map (map (fun l => nth c (vecmat (softmax l) m) 0)) out.
Proof.
  unfold select_last, matmul, softmax3.
  induction out as [|rows out IH]; [reflexivity|].
  cbn [map]. rewrite IH. f_equal.
  induction rows as [|l rows IHr]; [reflexivity|].
  cbn [map]. rewrite IHr. reflexivity.
Qed.

Section Discrete.
Import DiscreteStatefulRNNModel.
Variable self : t.
Hypothesis table : self_policy_matrix self = policy_matrix.

Lemma hard_action_range (out : tensor3) :
  all2 grid_range (fst (hard_action self out)) /\
  all2 solar_range (snd (hard_action self out)).
Proof.
  unfold hard_action, lookup_policy. cbv beta zeta. rewrite table. split.
  - apply all2_map_gen, hard_grid_range.
  - apply all2_map_gen, hard_solar_range.
Qed.

Lemma soft_action_range (out : tensor3) :
  all2 grid_range (fst (soft_action self out)) /\
  all2 solar_range (snd (soft_action self out)).
Proof.
  unfold soft_action. cbv beta zeta. rewrite table. unfold fst, snd.
  rewrite !select_matmul_softmax. split.
  - apply (all2_map_gen grid_range
             (fun l => nth 0 (vecmat (softmax l) policy_matrix) 0)).
    apply soft_grid_range.
  - apply (all2_map_gen solar_range
             (fun l => nth 1 (vecmat (softmax l) policy_matrix) 0)).
    apply soft_solar_range.
Qed.

Lemma select_action_value (hard_actions : bool) (out : tensor3) (w : runtime) :
  fst (select_action self hard_actions out w) =
  if hard_actions then hard_action self out else soft_action self out.
Proof. destruct hard_actions; reflexivity. Qed.

Lemma select_action_range (hard_actions : bool) (out : tensor3) (w : runtime) :
  all2 grid_range (fst (fst (select_action self hard_actions out w))) /\
  all2 solar_range (snd (fst (select_action self hard_actions out w))).
Proof.
  rewrite select_action_value. destruct hard_actions.
  - apply hard_action_range.
  - apply soft_action_range.
Qed.
End Discrete.

Lemma has_shape3_iff (b t c : nat) (x : tensor3) :
  has_shape [b; t; c] x <->
  length x = b /\
  Forall (fun rows => length rows = t /\
                      Forall (fun cell => length cell = c) rows) x.
Proof.
  unfold has_shape; simpl. split; intros [Hb Hrows]; split; try exact Hb.
  - eapply Forall_impl; [exact Hrows|]. intros rows [Ht Hcells].
    split; [exact Ht|]. eapply Forall_impl; [exact Hcells|].
    intros cell [Hc _]. exact Hc.
  - eapply Forall_impl; [exact Hrows|]. intros rows [Ht Hcells].
    split; [exact Ht|]. eapply Forall_impl; [exact Hcells|].
    intros cell Hc. split; [exact Hc|].
    apply Forall_forall. intros; reflexivity.
Qed.

Lemma has_shape2_iff (b t : nat) (x : tensor2) :
  has_shape [b; t] x <-> length x = b /\ Forall (fun row => length row = t) x.
Proof.
  unfold has_shape; simpl. split; intros [Hb Hrows]; split; try exact Hb.
  - eapply Forall_impl; [exact Hrows|]. intros row [Ht _]. exact Ht.
  - eapply Forall_impl; [exact Hrows|]. intros row Ht. split; [exact Ht|].
    apply Forall_forall. intros; reflexivity.
Qed.

Lemma zeros3_shape (b t c : nat) : has_shape [b; t; c] (zeros3 b t c).
Proof.
  apply has_shape3_iff. unfold zeros3. split; [apply length_replicate|].
  apply Forall_replicate. split; [apply length_replicate|].
  apply Forall_replicate, length_replicate.
Qed.

Lemma add_at_time_shape (b t c i : nat) (acc : tensor3) (v : tensor2) :
  has_shape [b; t; c] acc -> has_shape [b; t; c] (add_at_time i acc v).
Proof.
  rewrite !has_shape3_iff. intros [Hb Hrows]. unfold add_at_time. split.
  - rewrite length_imap. exact Hb.
  - apply Forall_lookup. intros k rows' Hk.
    rewrite list_lookup_imap in Hk.
    destruct (acc !! k) as [rows|] eqn:Hacc; [|discriminate].
    simpl in Hk. injection Hk as <-.
    destruct (Forall_lookup_1 _ _ _ _ Hrows Hacc) as [Ht Hcells].
    split; [rewrite length_alter; exact Ht|].
    apply Forall_alter; [exact Hcells|].
    intros cell _ Hc. rewrite length_imap. exact Hc.
Qed.

Lemma zeros3_filled (Q : R -> Prop) (b t c : nat) :
  Q 0 -> filled_up_to Q 0 (zeros3 b t c).
Proof.
  intros H0 k rows j cell l a Hk Hj Hl. unfold zeros3 in Hk.
  apply lookup_replicate in Hk as [-> _].
  apply lookup_replicate in Hj as [-> _].
  apply lookup_replicate in Hl as [-> _]. split; [exact H0|reflexivity].
Qed.

Lemma add_at_time_filled (Q : R -> Prop) (i : nat) (acc : tensor3) (v : tensor2) :
  Q 0 -> all2 Q v -> filled_up_to Q i acc ->
  filled_up_to Q (S i) (add_at_time i acc v).
Proof.
  intros H0 Hv Hacc k rows' j cell' l a' Hk Hj Hl. unfold add_at_time in Hk.
  rewrite list_lookup_imap in Hk.
  destruct (acc !! k) as [rows|] eqn:Hrows; [|discriminate].
  simpl in Hk. injection Hk as <-.
  destruct (decide (i = j)) as [<-|Hne].
  - rewrite list_lookup_alter_eq in Hj.
    destruct (rows !! i) as [cell|] eqn:Hcell; [|discriminate].
    simpl in Hj. injection Hj as <-.
    rewrite list_lookup_imap in Hl.
    destruct (cell !! l) as [a|] eqn:Ha; [|discriminate].
    simpl in Hl. injection Hl as <-.
    destruct (Hacc _ _ _ _ _ _ Hrows Hcell Ha) as [_ Hz].
    rewrite (Hz (le_n i)), Rplus_0_l. split; [|lia].
    apply all2_nth; assumption.
  - rewrite list_lookup_alter_ne in Hj by exact Hne.
    destruct (Hacc _ _ _ _ _ _ Hrows Hj Hl) as [HQ Hz].
    split; [exact HQ|]. intros Hle. apply Hz. lia.
Qed.

Lemma filled_all3 (Q : R -> Prop) (i : nat) (acc : tensor3) :
  filled_up_to Q i acc -> all3 Q acc.
Proof.
  intros Hacc. unfold all3.
  apply Forall_lookup. intros b rows Hb.
  apply Forall_lookup. intros t cell Ht.
  apply Forall_lookup. intros c a Hc.
  exact (proj1 (Hacc _ _ _ _ _ _ Hb Ht Hc)).
Qed.

Lemma events_draw {A : Type} (f : N -> A * N) (w : runtime) :
  events (snd (draw f w)) = events w /\
  grad_enabled (snd (draw f w)) = grad_enabled w.
Proof. unfold draw. destruct (f (generator w)); split; reflexivity. Qed.

Section Discrete.
Import DiscreteStatefulRNNModel.
Variable self : t.

Lemma select_action_events (hard_actions : bool) (out : tensor3) (w : runtime) :
  events (snd (select_action self hard_actions out w)) =
  events w ++ [selected (branch hard_actions)].
Proof. destruct hard_actions; reflexivity. Qed.

Lemma forward_step_spec (x : tensor3) (pv pr peak_ind : tensor2)
    (hard_actions : bool) (i : nat) (s : loop_state) (w : runtime) :
  exists out w' state' cost,
    let sel := fst (select_action self hard_actions out w') in
    let s' := fst (forward_step self x pv pr peak_ind hard_actions i s w) in
    grid_actions s' = add_at_time i (grid_actions s) (fst sel) /\
    pv_actions s' = add_at_time i (pv_actions s) (snd sel) /\
    battery_states s' = add_at_time i (battery_states s) state' /\
    costs s' = add_at_time i (costs s) cost /\
    events (snd (forward_step self x pv pr peak_ind hard_actions i s w)) =
      events w ++ [selected (branch hard_actions)].
Proof.
  unfold forward_step. rewrite run_bind.
  pose proof (events_draw
    (encoder self (training self)
       (observe self (slice_time i x) (battery_state s)) (h0 s)) w) as [Hev _].
  destruct (draw _ w) as [[z_t h0'] w1]. simpl in Hev. simpl fst. simpl snd.
  rewrite run_bind.
  pose proof (select_action_events hard_actions (fc self z_t) w1) as Hsel.
  exists (fc self z_t), w1.
  destruct (select_action self hard_actions (fc self z_t) w1)
    as [[grid_action pv_action] w2].
  simpl in Hsel. simpl fst. simpl snd.
  destruct (BatteryEnv.forward _ _ _ _ _ _ _ _) as [state' cost].
  exists state', cost. simpl. rewrite Hsel, Hev. repeat split; reflexivity.
Qed.
End Discrete.

Section Discrete.
Import DiscreteStatefulRNNModel.
Variable self : t.

Lemma forward_loop_shape (x : tensor3) (pv pr peak_ind : tensor2)
    (hard_actions : bool) (b t : nat) (idx : list nat) :
  forall (s : loop_state) (w : runtime),
    shaped b t s ->
    shaped b t (fst (for_each idx
                       (forward_step self x pv pr peak_ind hard_actions) s w)).
Proof.
  induction idx as [|i idx IH]; intros s w Hs; [exact Hs|].
  cbn [for_each]. rewrite run_bind. apply IH.
  destruct (forward_step_spec self x pv pr peak_ind hard_actions i s w)
    as (out & w' & state' & cost & Hg & Hp & Hb & Hc & _).
  destruct Hs as (Sg & Sp & Sb & Sc). unfold shaped.
  rewrite Hg, Hp, Hb, Hc.
  split; [|split; [|split]]; apply add_at_time_shape; assumption.
Qed.

Lemma forward_loop_events (x : tensor3) (pv pr peak_ind : tensor2)
    (hard_actions : bool) (idx : list nat) :
  forall (s : loop_state) (w : runtime),
    events (snd (for_each idx
                   (forward_step self x pv pr peak_ind hard_actions) s w)) =
    events w ++ replicate (length idx) (selected (branch hard_actions)).
Proof.
  induction idx as [|i idx IH]; intros s w.
  - cbn. rewrite app_nil_r. reflexivity.
  - cbn [for_each]. rewrite run_bind, IH.
    destruct (forward_step_spec self x pv pr peak_ind hard_actions i s w)
      as (out & w' & state' & cost & _ & _ & _ & _ & Hev).
    rewrite Hev, <- app_assoc. reflexivity.
Qed.

Hypothesis table : self_policy_matrix self = policy_matrix.

Lemma forward_loop_range (x : tensor3) (pv pr peak_ind : tensor2)
    (hard_actions : bool) (n : nat) :
  forall (i : nat) (s : loop_state) (w : runtime),
    ranged i s ->
    ranged (i + n)
      (fst (for_each (seq i n)
              (forward_step self x pv pr peak_ind hard_actions) s w)).
Proof.
  induction n as [|n IH]; intros i s w Hs.
  - rewrite Nat.add_0_r. exact Hs.
  - cbn [seq for_each]. rewrite run_bind.
    replace (i + S n)%nat with (S i + n)%nat by lia. apply IH.
    destruct (forward_step_spec self x pv pr peak_ind hard_actions i s w)
      as (out & w' & state' & cost & Hg & Hp & _).
    destruct (select_action_range self table hard_actions out w') as [Rg Rp].
    destruct Hs as [Fg Fp]. unfold ranged. rewrite Hg, Hp. split.
    + apply add_at_time_filled; [unfold grid_range; lra|exact Rg|exact Fg].
    + apply add_at_time_filled; [unfold solar_range; lra|exact Rp|exact Fp].
Qed.
End Discrete.

Section DiscreteForward.
Import DiscreteStatefulRNNModel.
Variable self : t.
Variables (x : tensor3) (pv pr peak_ind : tensor2) (hard_actions : bool).
Variable w : runtime.

Lemma initial_battery_state_events (batch : nat) :
  events (snd (initial_battery_state self batch w)) =
  events w ++ [initial_state_event self batch].
Proof.
  unfold initial_battery_state, initial_state_event.
  destruct (training self).
  - rewrite run_bind.
    destruct (events_draw
      (BatteryEnv.get_random_initial_state (battery self) batch)
      (snd (tell (get_random_initial_state_call batch) w))) as [-> _].
    reflexivity.
  - reflexivity.
Qed.

Lemma forward_outputs :
  exists (s : loop_state) (w1 : runtime) (s0 : loop_state),
    fst (forward self x pv pr peak_ind hard_actions w) =
      (grid_actions s, pv_actions s, battery_states s, costs s) /\
    s = fst (for_each (seq 0 (size1 x))
               (forward_step self x pv pr peak_ind hard_actions) s0 w1) /\
    grid_actions s0 = zeros3 (size0 x) (size1 x) 1 /\
    pv_actions s0 = zeros3 (size0 x) (size1 x) 1 /\
    battery_states s0 = zeros3 (size0 x) (size1 x) 1 /\
    costs s0 = zeros3 (size0 x) (size1 x) 1.
Proof.
  unfold forward. cbv zeta. rewrite run_bind.
  set (w1 := snd (initial_battery_state self (size0 x) w)).
  set (b0 := fst (initial_battery_state self (size0 x) w)).
  rewrite run_bind.
  match goal with
  | |- context [for_each _ _ ?s0 w1] =>
      exists (fst (for_each (seq 0 (size1 x))
                     (forward_step self x pv pr peak_ind hard_actions) s0 w1)),
             w1, s0
  end.
  repeat split; reflexivity.
Qed.

Lemma forward_events :
  events (snd (forward self x pv pr peak_ind hard_actions w)) =
  events w ++ initial_state_event self (size0 x)
           :: replicate (size1 x) (selected (branch hard_actions)).
Proof.
  unfold forward. cbv zeta. rewrite run_bind, run_bind.
  cbn [snd mret M_ret]. unfold mret, M_ret. cbn [snd].
  rewrite forward_loop_events, initial_battery_state_events.
  rewrite length_seq, <- app_assoc. reflexivity.
Qed.
End DiscreteForward.

(** ** The signature controller: prediction, replay, the loop *)

Lemma append_state_fraction (c : R) (features : tensor2) :
  forall states : tensor1,
    zip_with app features
      (map (map (fun v => v / c)) (map (fun v => [v]) states)) =
    zip_with (fun feature state => feature ++ [state / c]) features states.
Proof.
  induction features as [|feature features IH]; intros states;
    [reflexivity|].
  destruct states as [|state states]; [reflexivity|].
  cbn [map zip_with]. rewrite IH. reflexivity.
Qed.

(** The features [forward] builds for the prediction head (lines 176-183
    and 197-204) are the features of the estimate, entry by entry. *)
Lemma combine_features_explicit (self : LazySigRegModel.t)
    (x_expanding_logsig x_local_feats : tensor3) (battery_trace : tensor2) :
  LazySigRegModel.combine_features self x_expanding_logsig x_local_feats
    battery_trace =
  estimate_features
    (SeqBatteryEnv.capacity_kWh (LazySigRegModel.battery self))
    x_expanding_logsig x_local_feats battery_trace.
Proof.
  unfold LazySigRegModel.combine_features, estimate_features, cat_last,
    div_scalar3, unsqueeze_last, drop_first.
  generalize (SeqBatteryEnv.capacity_kWh (LazySigRegModel.battery self)).
  intros c.
  change (zip_with (zip_with (fun a b : list R => a ++ b)) x_expanding_logsig
            x_local_feats)
    with (zip_with (zip_with app) x_expanding_logsig x_local_feats).
  generalize (zip_with (zip_with app) x_expanding_logsig x_local_feats).
  intros features. revert battery_trace.
  induction features as [|rows features IH]; intros battery_trace;
    [reflexivity|].
  destruct battery_trace as [|states battery_trace]; [reflexivity|].
  cbn [map zip_with]. rewrite IH, append_state_fraction. reflexivity.
Qed.

Section LazySig.
Import LazySigRegModel.
Variable self : t.
Variables (x_expanding_logsig x_local_feats : tensor3).
Variables (pv pr peak_ind : tensor2).

Lemma predict_spec (battery_trace : tensor2) (w : runtime) :
  predict self x_expanding_logsig x_local_feats battery_trace w =
  (squashed (fst (head self x_expanding_logsig x_local_feats battery_trace (generator w))),
   {| generator := snd (head self x_expanding_logsig x_local_feats battery_trace (generator w));
      grad_enabled := grad_enabled w;
      events := events w ++
        [fc_call (grad_enabled w)
           (estimate_features (SeqBatteryEnv.capacity_kWh (battery self))
              x_expanding_logsig x_local_feats battery_trace)] |}).
Proof.
  unfold predict, head, squashed, mbind, M_bind, is_grad_enabled, tell, draw,
    mret, M_ret.
  rewrite combine_features_explicit.
  cbn [generator grad_enabled events].
  destruct (apply_rows _ _ _) as [actions gen']. reflexivity.
Qed.

Lemma e_step_spec (grid_action pv_action : tensor2) (w : runtime) :
  e_step self grid_action pv_action pv pr peak_ind w =
  (fst (replay self pv pr peak_ind grid_action pv_action (generator w)),
   {| generator := snd (replay self pv pr peak_ind grid_action pv_action (generator w));
      grad_enabled := grad_enabled w;
      events := events w ++
        [forward_call (grad_enabled w) grid_action pv_action None true] |}).
Proof.
  unfold e_step, replay, mbind, M_bind, is_grad_enabled, tell, draw.
  cbn [generator grad_enabled events].
  destruct (SeqBatteryEnv.forward _ _ _ _ _ _ _ _ _) as [r gen'].
  reflexivity.
Qed.


Lemma refine_spec (trace : tensor2) (w : runtime) :
  refine self x_expanding_logsig x_local_feats pv pr peak_ind trace w =
  let actions := fst (head self x_expanding_logsig x_local_feats trace (generator w)) in
  let r := replay self pv pr peak_ind (fst (squashed actions)) (snd (squashed actions))
             (snd (head self x_expanding_logsig x_local_feats trace (generator w))) in
  (fst (fst r),
   {| generator := snd r;
      grad_enabled := grad_enabled w;
      events := events w ++
        [fc_call (grad_enabled w)
           (estimate_features (SeqBatteryEnv.capacity_kWh (battery self))
              x_expanding_logsig x_local_feats trace);
         forward_call (grad_enabled w) (fst (squashed actions))
           (snd (squashed actions)) None true] |}).
Proof.
  unfold refine. unfold mbind at 1, M_bind at 1. rewrite predict_spec.
  cbn [fst snd squashed]. unfold mbind at 1, M_bind at 1.
  rewrite e_step_spec. cbn [generator grad_enabled events].
  destruct (replay _ _ _ _ _ _ _) as [[trace1 costs1] gen2].
  cbn [fst snd]. unfold mret, M_ret. rewrite <- app_assoc. reflexivity.
Qed.

Lemma refine_loop (n : nat) :
  forall (trace : tensor2) (w : runtime),
    grad_enabled w = false ->
    exists (evs : list event) (trace' : tensor2) (gen' : N),
      for_range n
        (refine self x_expanding_logsig x_local_feats pv pr peak_ind)
        trace w =
      (trace', {| generator := gen'; grad_enabled := false;
                  events := events w ++ evs |}) /\
      alternation self x_expanding_logsig x_local_feats pv pr peak_ind n trace
        (generator w) evs trace' gen'.
Proof.
  induction n as [|n IH]; intros trace w Hg.
  - exists [], trace, (generator w). split; [|constructor].
    cbn [for_range]. unfold mret, M_ret. rewrite app_nil_r, <- Hg.
    destruct w; reflexivity.
  - cbn [for_range]. unfold mbind at 1, M_bind at 1. rewrite refine_spec.
    cbv zeta.
    destruct (head self x_expanding_logsig x_local_feats trace (generator w)) as [actions gen1] eqn:Hhead.
    cbn [fst snd].
    destruct (replay _ _ _ _ _ _ gen1) as [[trace1 costs1] gen2] eqn:Hreplay.
    cbn [fst snd].
    match goal with
    | |- context [for_range n _ trace1 ?w1] =>
        destruct (IH trace1 w1 Hg) as (evs & trace' & gen' & Heq & Halt)
    end.
    rewrite Heq. cbn [generator events] in *.
    eexists _, trace', gen'. split.
    + rewrite Hg, <- !app_assoc. reflexivity.
    + eapply alternation_round; eassumption.
Qed.

Lemma estimate_trace_spec (batch time : nat) (w : runtime) :
  exists (evs : list event) (trace' : tensor2) (gen' : N),
    estimate_trace self batch time x_expanding_logsig x_local_feats pv pr
      peak_ind w =
    (trace', {| generator := gen'; grad_enabled := grad_enabled w;
                events := events w
                          ++ get_neutral_trace_call batch time :: evs |}) /\
    alternation self x_expanding_logsig x_local_feats pv pr peak_ind
      (Z.to_nat (e_step_iters self))
      (SeqBatteryEnv.get_neutral_trace (battery self) batch time)
      (generator w) evs trace' gen'.
Proof.
  unfold estimate_trace, no_grad.
  unfold mbind at 1, M_bind at 1, is_grad_enabled.
  unfold mbind at 1, M_bind at 1, set_grad_enabled.
  unfold mbind at 1, M_bind at 1.
  unfold mbind at 1, M_bind at 1, tell.
  cbn [generator grad_enabled events].
  match goal with
  | |- context [for_range ?n _ ?tr ?w1] =>
      destruct (refine_loop n tr w1 eq_refl)
        as (evs & trace' & gen' & -> & Halt)
  end.
  cbn [generator grad_enabled events] in *.
  exists evs, trace', gen'. split; [|exact Halt].
  unfold mbind, M_bind, mret, M_ret. cbn [generator grad_enabled events].
  rewrite <- app_assoc. reflexivity.
Qed.
End LazySig.

Section LazySigForward.
Import LazySigRegModel.
Variable max_abs_norm : tensor3 -> tensor3.
Variable self : t.
Variables (x : tensor3) (pv pr peak_ind : tensor2).

Lemma extract_features_spec (w : runtime) :
  exists (gen0 : N),
    snd (extract_features max_abs_norm self x w) =
    {| generator := gen0; grad_enabled := grad_enabled w;
       events := events w |}.
Proof.
  unfold extract_features, mbind, M_bind, draw, mret, M_ret.
  destruct (local_conv self _ _ _) as [x_local gen0].
  exists gen0. reflexivity.
Qed.

Lemma m_step_spec (grid_action pv_action estimated : tensor2) (w : runtime) :
  m_step self grid_action pv_action estimated pv pr peak_ind w =
  (SeqBatteryEnv.static_forward (battery self) estimated
     (tanh2 grid_action) (sigmoid2 pv_action) pv pr (beta self) peak_ind,
   {| generator := generator w; grad_enabled := grad_enabled w;
      events := events w ++
        [static_forward_call (grad_enabled w) estimated
           (tanh2 grid_action) (sigmoid2 pv_action) (beta self)] |}).
Proof. reflexivity. Qed.

Lemma forward_spec (w : runtime) :
  exists (ls lf : tensor3) (gen0 : N) (evs : list event) (trace : tensor2)
         (gen1 : N) (actions : tensor3) (gen2 : N),
    fst (extract_features max_abs_norm self x w) = (ls, lf) /\
    alternation self ls lf pv pr peak_ind (Z.to_nat (e_step_iters self))
      (SeqBatteryEnv.get_neutral_trace (battery self) (size0 x) (size1 x))
      gen0 evs trace gen1 /\
    head self ls lf trace gen1 = (actions, gen2) /\
    forward max_abs_norm self x pv pr peak_ind w =
    ((tanh2 (select_last 0 actions), sigmoid2 (select_last 1 actions), trace,
      snd (SeqBatteryEnv.static_forward (battery self) (drop_first trace)
             (tanh2 (tanh2 (select_last 0 actions)))
             (sigmoid2 (sigmoid2 (select_last 1 actions)))
             pv pr (beta self) peak_ind)),
     {| generator := gen2; grad_enabled := grad_enabled w;
        events := events w
          ++ get_neutral_trace_call (size0 x) (size1 x) :: evs
          ++ [fc_call (grad_enabled w)
                (estimate_features
                   (SeqBatteryEnv.capacity_kWh (battery self)) ls lf trace);
              static_forward_call (grad_enabled w) (drop_first trace)
                (tanh2 (tanh2 (select_last 0 actions)))
                (sigmoid2 (sigmoid2 (select_last 1 actions)))
                (beta self)] |}).
Proof.
  unfold forward. unfold mbind at 1, M_bind at 1.
  destruct (extract_features_spec w) as [gen0 Hw0].
  destruct (extract_features max_abs_norm self x w) as [[ls lf] w0].
  cbn [snd] in Hw0. subst w0.
  unfold mbind at 1, M_bind at 1.
  destruct (estimate_trace_spec self ls lf pv pr peak_ind (size0 x) (size1 x)
              {| generator := gen0; grad_enabled := grad_enabled w;
                 events := events w |})
    as (evs & trace & gen1 & -> & Halt).
  cbn [generator grad_enabled events] in *.
  unfold mbind at 1, M_bind at 1. rewrite predict_spec.
  cbn [generator grad_enabled events].
  destruct (head self ls lf trace gen1) as [actions gen2] eqn:Hhead.
  cbn [fst snd squashed].
  unfold mbind at 1, M_bind at 1. rewrite m_step_spec.
  cbn [generator grad_enabled events].
  destruct (SeqBatteryEnv.static_forward _ _ _ _ _ _ _ _)
    as [fantasy_battery_trace costs] eqn:Hstatic.
  exists ls, lf, gen0, evs, trace, gen1, actions, gen2.
  split; [reflexivity|]. split; [exact Halt|]. split; [exact Hhead|].
  unfold mret, M_ret. rewrite Hstatic. cbn [snd].
  rewrite <- !app_assoc. reflexivity.
Qed.
End LazySigForward.

(** ** The schedule of beta *)

Lemma intervals_begun_step (n k : Z) :
  (1 <= n)%Z -> (0 <= k)%Z ->
  ((k + 1 + n - 1) / n =
   (k + n - 1) / n + (if (k `mod` n =? 0)%Z then 1 else 0))%Z.
Proof.
  intros Hn Hk.
  pose proof (Z.mod_pos_bound k n ltac:(lia)) as Hr.
  pose proof (Z.div_mod k n ltac:(lia)) as Hq.
  destruct (Z.eqb_spec (k `mod` n) 0) as [E|E].
  - rewrite E in Hq.
    assert ((k + 1 + n - 1) / n = k / n + 1)%Z as ->
      by (symmetry; apply (Z.div_unique _ _ _ 0); lia).
    assert ((k + n - 1) / n = k / n)%Z as ->
      by (symmetry; apply (Z.div_unique _ _ _ (n - 1)); lia).
    reflexivity.
  - assert ((k + 1 + n - 1) / n = k / n + 1)%Z as ->
      by (symmetry; apply (Z.div_unique _ _ _ (k `mod` n)); lia).
    assert ((k + n - 1) / n = k / n + 1)%Z as ->
      by (symmetry; apply (Z.div_unique _ _ _ (k `mod` n - 1)); lia).
    lia.
Qed.

Lemma intervals_begun_nonneg (n k : Z) :
  (1 <= n)%Z -> (0 <= k)%Z -> (0 <= (k + n - 1) / n)%Z.
Proof. intros. apply Z.div_pos; lia. Qed.

Lemma anneal_increment (a d m c : R) :
  a <= m -> (0 <= d \/ c <= 0) ->
  Rmin (Rmin (a + c) m + d) m = Rmin (a + (c + d)) m.
Proof.
  intros Ham Hd. unfold Rmin.
  repeat destruct (Rle_dec _ _); lra.
Qed.

Lemma annealed_beta_0 (a d m : R) (n : Z) :
  (1 <= n)%Z -> a <= m -> annealed_beta a d m n 0 = a.
Proof.
  intros Hn Ham. unfold annealed_beta.
  replace ((Z.of_nat 0 + n - 1) / n)%Z with 0%Z
    by (symmetry; apply Z.div_small; lia).
  rewrite Rmult_0_r, Rplus_0_r. apply Rmin_left. exact Ham.
Qed.

Lemma annealed_beta_S (a d m : R) (n : Z) (k : nat) :
  (1 <= n)%Z -> a <= m ->
  annealed_beta a d m n (S k) =
  if (Z.of_nat k `mod` n =? 0)%Z
  then Rmin (annealed_beta a d m n k + d) m
  else annealed_beta a d m n k.
Proof.
  intros Hn Ham. unfold annealed_beta.
  replace (Z.of_nat (S k) + n - 1)%Z with (Z.of_nat k + 1 + n - 1)%Z by lia.
  rewrite intervals_begun_step by lia.
  pose proof (intervals_begun_nonneg n (Z.of_nat k) Hn ltac:(lia)) as Hc.
  apply IZR_le in Hc.
  destruct (Z.of_nat k `mod` n =? 0)%Z.
  - rewrite plus_IZR, anneal_increment.
    + f_equal. lra.
    + exact Ham.
    + destruct (Rle_dec 0 d); [left; assumption|right; nra].
  - rewrite Z.add_0_r. reflexivity.
Qed.

Section DiscreteSchedule.
Import DiscreteStatefulRNNModel.
Variable self : t.
Hypothesis interval : (1 <= increase_beta_per_n_epoch self)%Z.
Hypothesis bounds : beta_min self <= beta_max self.

Lemma discrete_epoch_end (e : Z) (s : t) :
  Lightning.on_train_epoch_end (Lightning.with_current_epoch e s) =
  if (increase_beta_per_n_epoch s =? 0)%Z then Raise ZeroDivisionError
  else if (e `mod` increase_beta_per_n_epoch s =? 0)%Z then
    match beta s with
    | Some b =>
        Ok (with_beta (Some (Rmin (b + beta_increment s) (beta_max s)))
                      (with_epoch e s))
    | None => Raise TypeError
    end
  else Ok (with_epoch e s).
Proof. reflexivity. Qed.

Lemma discrete_fit (k : nat) :
  exists s : t,
    Lightning.fit k self = Ok s /\ same_schedule self s /\
    beta s = Some (annealed_beta (beta_min self) (beta_increment self)
                     (beta_max self) (increase_beta_per_n_epoch self) k).
Proof.
  unfold Lightning.fit. induction k as [|k IH].
  - cbn [seq foldl]. eexists. split; [reflexivity|]. split.
    + repeat split.
    + cbn. rewrite annealed_beta_0 by assumption. reflexivity.
  - rewrite seq_S, foldl_app. cbn [foldl Nat.add].
    destruct IH as (s & -> & (Hmin & Hinc & Hmax & Hn) & Hbeta).
    unfold mbind, result_bind. rewrite discrete_epoch_end.
    rewrite Hn, Hinc, Hmax, Hbeta.
    destruct (Z.eqb_spec (increase_beta_per_n_epoch self) 0) as [E|_];
      [lia|].
    rewrite annealed_beta_S by assumption.
    destruct (Z.of_nat k `mod` increase_beta_per_n_epoch self =? 0)%Z.
    + eexists. split; [reflexivity|]. split; [|reflexivity].
      repeat split; assumption.
    + eexists. split; [reflexivity|]. split; [|exact Hbeta].
      repeat split; assumption.
Qed.
End DiscreteSchedule.

Section LazySigSchedule.
Import LazySigRegModel.
Variable self : t.
Hypothesis interval : (1 <= increase_beta_per_n_epoch self)%Z.
Hypothesis bounds : beta_min self <= beta_max self.

Lemma lazysig_epoch_end (e : Z) (s : t) :
  Lightning.on_train_epoch_end (Lightning.with_current_epoch e s) =
  if (increase_beta_per_n_epoch s =? 0)%Z then Raise ZeroDivisionError
  else if (e `mod` increase_beta_per_n_epoch s =? 0)%Z then
    match beta s with
    | Some b =>
        Ok (with_beta (Some (Rmin (b + beta_increment s) (beta_max s)))
                      (with_epoch e s))
    | None => Raise TypeError
    end
  else Ok (with_epoch e s).
Proof. reflexivity. Qed.

Lemma lazysig_fit (k : nat) :
  exists s : t,
    Lightning.fit k self = Ok s /\ same_schedule_sig self s /\
    beta s = Some (annealed_beta (beta_min self) (beta_increment self)
                     (beta_max self) (increase_beta_per_n_epoch self) k).
Proof.
  unfold Lightning.fit. induction k as [|k IH].
  - cbn [seq foldl]. eexists. split; [reflexivity|]. split.
    + repeat split.
    + cbn. rewrite annealed_beta_0 by assumption. reflexivity.
  - rewrite seq_S, foldl_app. cbn [foldl Nat.add].
    destruct IH as (s & -> & (Hmin & Hinc & Hmax & Hn) & Hbeta).
    unfold mbind, result_bind. rewrite lazysig_epoch_end.
    rewrite Hn, Hinc, Hmax, Hbeta.
    destruct (Z.eqb_spec (increase_beta_per_n_epoch self) 0) as [E|_];
      [lia|].
    rewrite annealed_beta_S by assumption.
    destruct (Z.of_nat k `mod` increase_beta_per_n_epoch self =? 0)%Z.
    + eexists. split; [reflexivity|]. split; [|reflexivity].
      repeat split; assumption.
    + eexists. split; [reflexivity|]. split; [|exact Hbeta].
      repeat split; assumption.
Qed.
End LazySigSchedule.

Lemma annealed_is_claimed (a d m : R) (n : Z) (k : nat) :
  (1 <= n)%Z -> (Z.of_nat k `mod` n = 0)%Z ->
  annealed_beta a d m n k = claimed_beta a d m n k.
Proof.
  intros Hn Hdiv. unfold annealed_beta, claimed_beta.
  pose proof (Z.div_mod (Z.of_nat k) n ltac:(lia)) as Hq.
  rewrite Hdiv in Hq.
  assert ((Z.of_nat k + n - 1) / n = Z.of_nat k / n)%Z as ->
    by (symmetry; apply (Z.div_unique _ _ _ (n - 1)); lia).
  reflexivity.
Qed.

(** C2, as the claim states it, fails: with an interval of two epochs the
    hook at the end of the first epoch (whose index 0 is a multiple of 2)
    already raises beta from 0.5 to 0.6, where the claimed formula still
    gives the floor 0.5. *)
Lemma beta_raised_after_first_of_two_epochs :
  DiscreteStatefulRNNModel.beta <$>
    Lightning.fit 1 (Examples.discrete false true) = Ok (Some 0.6) /\
  claimed_beta 0.5 0.1 5 2 1 = 0.5.
Proof.
  split.
  - run. do 2 f_equal. unfold Rmin. destruct (Rle_dec _ _); lra.
  - unfold claimed_beta. run. unfold Rmin. destruct (Rle_dec _ _); lra.
Qed.

(** C2 (amended): for a valid configuration (interval [n >= 1], floor below
    the ceiling) of either controller, after [on_train_start] and [k]
    completed epochs beta is
    [min (beta_min + increment * ceil (k / n)) beta_max]: the hook fires at
    the end of the epochs 0, n, 2n, ...  This is the claimed
    [min (beta_min + increment * floor (k / n)) beta_max] whenever [n]
    divides [k], so always for the default [n = 1].  Before any epoch has
    ended beta is [beta_min], and [reset_beta] restores [beta_min]. *)
Theorem beta_schedule
    (d : DiscreteStatefulRNNModel.t) (l : LazySigRegModel.t) (k : nat) :
  ((1 <= DiscreteStatefulRNNModel.increase_beta_per_n_epoch d)%Z ->
   DiscreteStatefulRNNModel.beta_min d <= DiscreteStatefulRNNModel.beta_max d ->
   DiscreteStatefulRNNModel.beta <$> Lightning.fit k d =
     Ok (Some (annealed_beta (DiscreteStatefulRNNModel.beta_min d)
                 (DiscreteStatefulRNNModel.beta_increment d)
                 (DiscreteStatefulRNNModel.beta_max d)
                 (DiscreteStatefulRNNModel.increase_beta_per_n_epoch d) k))) /\
  ((1 <= LazySigRegModel.increase_beta_per_n_epoch l)%Z ->
   LazySigRegModel.beta_min l <= LazySigRegModel.beta_max l ->
   LazySigRegModel.beta <$> Lightning.fit k l =
     Ok (Some (annealed_beta (LazySigRegModel.beta_min l)
                 (LazySigRegModel.beta_increment l)
                 (LazySigRegModel.beta_max l)
                 (LazySigRegModel.increase_beta_per_n_epoch l) k))) /\
  (forall (a inc m : R) (n : Z),
     (1 <= n)%Z -> (Z.of_nat k `mod` n = 0)%Z ->
     annealed_beta a inc m n k = claimed_beta a inc m n k) /\
  DiscreteStatefulRNNModel.beta <$> Lightning.fit 0 d =
    Ok (Some (DiscreteStatefulRNNModel.beta_min d)) /\
  LazySigRegModel.beta <$> Lightning.fit 0 l =
    Ok (Some (LazySigRegModel.beta_min l)) /\
  DiscreteStatefulRNNModel.beta (DiscreteStatefulRNNModel.reset_beta d) =
    Some (DiscreteStatefulRNNModel.beta_min d) /\
  LazySigRegModel.beta (LazySigRegModel.reset_beta l) =
    Some (LazySigRegModel.beta_min l).
Proof.
  split; [|split; [|split; [|repeat split]]].
  - intros Hn Hb. destruct (discrete_fit d Hn Hb k) as (s & -> & _ & Hbeta).
    cbn [fmap result_fmap]. rewrite Hbeta. reflexivity.
  - intros Hn Hb. destruct (lazysig_fit l Hn Hb k) as (s & -> & _ & Hbeta).
    cbn [fmap result_fmap]. rewrite Hbeta. reflexivity.
  - intros a inc m n. apply annealed_is_claimed.
Qed.

(** The schedule on the small instances, three epochs at an interval of two. *)
Lemma beta_schedule_witness :
  DiscreteStatefulRNNModel.beta <$>
    Lightning.fit 3 (Examples.discrete false true) =
    Ok (Some (annealed_beta 0.5 0.1 5 2 3)) /\
  LazySigRegModel.beta <$> Lightning.fit 3 (Examples.lazysig 5 true) =
    Ok (Some (annealed_beta 0.5 0.1 5 2 3)).
Proof.
  destruct (beta_schedule (Examples.discrete false true)
              (Examples.lazysig 5 true) 3) as (Hd & Hl & _).
  split.
  - apply Hd.
    + cbn. lia.
    + cbn. lra.
  - apply Hl.
    + cbn. lia.
    + cbn. lra.
Defined.

(** ** The action table *)

Lemma map2_map2 {A B C : Type} (f : B -> C) (g : A -> B) (x : list (list A)) :
  map (map f) (map (map g) x) = map (map (fun a => f (g a))) x.
Proof.
  induction x as [|row x IH]; [reflexivity|].
  cbn [map]. rewrite IH. f_equal.
  induction row as [|a row IHr]; [reflexivity|].
  cbn [map]. rewrite IHr. reflexivity.
Qed.

Lemma map2_ext {A B : Type} (f g : A -> B) (x : list (list A)) :
  (forall a, f a = g a) -> map (map f) x = map (map g) x.
Proof.
  intros Hfg. apply map_ext. intros row. apply map_ext. exact Hfg.
Qed.

Lemma argmax_from_spec (l : list R) :
  forall (pre : list R) (best : nat) (vbest : R),
    (best < length pre)%nat ->
    vbest = nth best pre 0 ->
    (forall j, (j < length pre)%nat -> nth j pre 0 <= vbest) ->
    (forall j, (j < best)%nat -> nth j pre 0 < vbest) ->
    let r := argmax_from best vbest (length pre) l in
    (r < length (pre ++ l))%nat /\
    (forall j, (j < length (pre ++ l))%nat ->
               nth j (pre ++ l) 0 <= nth r (pre ++ l) 0) /\
    (forall j, (j < r)%nat -> nth j (pre ++ l) 0 < nth r (pre ++ l) 0).
Proof.
  induction l as [|v l IH]; intros pre best vbest Hb Hv Hmax Hfirst.
  - cbn [argmax_from]. rewrite app_nil_r. rewrite <- Hv.
    split; [exact Hb|]. split; assumption.
  - cbn [argmax_from].
    replace (pre ++ v :: l) with ((pre ++ [v]) ++ l)
      by (rewrite <- app_assoc; reflexivity).
    assert (length (pre ++ [v]) = S (length pre)) as Hlen
      by (rewrite length_app; cbn; lia).
    assert (nth (length pre) (pre ++ [v]) 0 = v) as Hnth.
    { rewrite app_nth2 by lia. rewrite Nat.sub_diag. reflexivity. }
    assert (forall j, (j < length pre)%nat ->
                      nth j (pre ++ [v]) 0 = nth j pre 0) as Hold
      by (intros j Hj; apply app_nth1; exact Hj).
    rewrite <- Hlen.
    destruct (Rlt_dec vbest v) as [Hlt|Hge].
    + apply IH.
      * lia.
      * symmetry. exact Hnth.
      * intros j Hj. rewrite Hlen in Hj.
        destruct (decide (j = length pre)) as [->|Hne].
        -- rewrite Hnth. lra.
        -- rewrite Hold by lia. specialize (Hmax j ltac:(lia)). lra.
      * intros j Hj.
        rewrite Hold by lia. specialize (Hmax j ltac:(lia)). lra.
    + apply IH.
      * lia.
      * rewrite Hold by lia. exact Hv.
      * intros j Hj. rewrite Hlen in Hj.
        destruct (decide (j = length pre)) as [->|Hne].
        -- rewrite Hnth. lra.
        -- rewrite Hold by lia. apply Hmax. lia.
      * intros j Hj. rewrite Hold by lia. apply Hfirst. exact Hj.
Qed.

Lemma argmax_spec (l : list R) :
  l <> [] ->
  (argmax l < length l)%nat /\
  (forall j, (j < length l)%nat -> nth j l 0 <= nth (argmax l) l 0) /\
  (forall j, (j < argmax l)%nat -> nth j l 0 < nth (argmax l) l 0).
Proof.
  destruct l as [|v l]; [congruence|intros _].
  apply (argmax_from_spec l [v] 0%nat v).
  - cbn. lia.
  - reflexivity.
  - intros j Hj. cbn in Hj. replace j with 0%nat by lia. cbn. lra.
  - intros j Hj. lia.
Qed.

Lemma policy_row (a : nat) :
  nth 0 (nth a policy_matrix []) 0 = fst (documented_action a) /\
  nth 1 (nth a policy_matrix []) 0 = snd (documented_action a).
Proof.
  unfold policy_matrix, documented_action.
  do 7 (destruct a as [|a]; [split; reflexivity|]).
  destruct a; split; reflexivity.
Qed.

(** C3: the table is the documented one, row by row; in hard mode every
    selected (grid, solar) pair is the row of the table at the argmax of the
    logits, the argmax being the first index of a largest logit and, for
    seven logits, an index of the table; index 0 is (1, 1) and index 6 is
    (-1, 0). *)
Theorem hard_action_is_table_row
    (self : DiscreteStatefulRNNModel.t)
    (table : DiscreteStatefulRNNModel.self_policy_matrix self = policy_matrix)
    (out : tensor3) (w : runtime) :
  policy_matrix =
    [[1; 1]; [0.5; 1]; [0; 1]; [0; 0.5]; [0; 0]; [-0.5; 0]; [-1; 0]] /\
  fst (DiscreteStatefulRNNModel.select_action self true out w) =
    (map (map (fun logits => fst (documented_action (argmax logits)))) out,
     map (map (fun logits => snd (documented_action (argmax logits)))) out) /\
  (forall logits : tensor1,
     length logits = 7%nat ->
     (argmax logits < 7)%nat /\
     (forall j, (j < 7)%nat ->
                nth j logits 0 <= nth (argmax logits) logits 0) /\
     (forall j, (j < argmax logits)%nat ->
                nth j logits 0 < nth (argmax logits) logits 0)) /\
  documented_action 0 = (1, 1) /\
  documented_action 6 = (-1, 0).
Proof.
  split; [reflexivity|]. split; [|split; [|split; reflexivity]].
  - rewrite select_action_value.
    unfold DiscreteStatefulRNNModel.hard_action, lookup_policy, argmax3.
    cbv zeta. rewrite table, !map2_map2. f_equal.
    + apply map2_ext. intros logits. apply policy_row.
    + apply map2_ext. intros logits. apply policy_row.
  - intros logits Hlen.
    destruct (argmax_spec logits) as (Hlt & Hmax & Hfirst).
    + intros ->. discriminate Hlen.
    + rewrite Hlen in Hlt, Hmax. split; [exact Hlt|]. split; assumption.
Qed.

(** Hard selection on seven equal logits. *)
Lemma hard_action_is_table_row_witness :
  fst (DiscreteStatefulRNNModel.select_action (Examples.discrete false false)
         true [[[0; 0; 0; 0; 0; 0; 0]]] Examples.fresh) =
  ([[fst (documented_action (argmax [0; 0; 0; 0; 0; 0; 0]))]],
   [[snd (documented_action (argmax [0; 0; 0; 0; 0; 0; 0]))]]).
Proof.
  exact (proj1 (proj2 (hard_action_is_table_row
                         (Examples.discrete false false) eq_refl
                         [[[0; 0; 0; 0; 0; 0; 0]]] Examples.fresh))).
Defined.

(** ** Ranges of the actions *)

Lemma tanh2_range (x : tensor2) : all2 grid_range (tanh2 x).
Proof.
  apply all2_map_gen. intros v. pose proof (tanh_range v).
  unfold grid_range. lra.
Qed.

Lemma sigmoid2_range (x : tensor2) : all2 solar_range (sigmoid2 x).
Proof.
  apply all2_map_gen. intros v. pose proof (sigmoid_range v).
  unfold solar_range. lra.
Qed.

Lemma discrete_step_forward_spec (self : DiscreteStatefulRNNModel.t)
    (battery_state : tensor2) (x_t h0 : tensor3) (w : runtime) :
  exists (out : tensor3) (w' : runtime) (h0' : tensor3),
    DiscreteStatefulRNNModel.step_forward self battery_state x_t h0 w =
    (let sel := fst (DiscreteStatefulRNNModel.select_action self
                       (negb (DiscreteStatefulRNNModel.semi_discrete self))
                       out w') in
     (fst sel, snd sel, battery_state, h0'),
     snd (DiscreteStatefulRNNModel.select_action self
            (negb (DiscreteStatefulRNNModel.semi_discrete self)) out w')) /\
    events w' = events w.
Proof.
  unfold DiscreteStatefulRNNModel.step_forward.
  unfold mbind at 1, M_bind at 1.
  match goal with
  | |- context [draw ?f w] => pose proof (events_draw f w) as [Hev _]
  end.
  destruct (draw _ w) as [[z_t h0'] w1]. cbn [snd] in Hev.
  exists (DiscreteStatefulRNNModel.fc self z_t), w1, h0'.
  split; [|exact Hev].
  unfold mbind, M_bind.
  destruct (DiscreteStatefulRNNModel.select_action _ _ _ _)
    as [[grid_action pv_action] w2].
  reflexivity.
Qed.

Lemma lazysig_step_forward_spec (max_abs_norm_2d : tensor2 -> tensor2)
    (P : Path.ops) (self : LazySigRegModel.t) (battery_state : tensor2)
    (x_t : tensor3) (path : option (Path.t P)) (w : runtime) :
  exists (z : tensor2) (path' : Path.t P),
    fst (LazySigRegModel.step_forward max_abs_norm_2d P self battery_state
           x_t path w) =
    (tanh2 (select_last 0 (unsqueeze1 z)),
     sigmoid2 (select_last 1 (unsqueeze1 z)), path').
Proof.
  unfold LazySigRegModel.step_forward.
  unfold mbind at 1, M_bind at 1.
  destruct (draw _ w) as [x_local w1].
  unfold mbind, M_bind.
  destruct (draw _ w1) as [z w2].
  eexists z, _. reflexivity.
Qed.

(** C5: every action either controller emits lies in its range: the grid
    fraction in [-1, 1] and the solar fraction in [0, 1].  For the discrete
    controller this holds for the actions [forward] accumulates and for the
    action of [step_forward], whether selected softly or by argmax; for the
    signature controller for the actions of [forward] and [step_forward]. *)
Theorem actions_within_ranges
    (d : DiscreteStatefulRNNModel.t)
    (table : DiscreteStatefulRNNModel.self_policy_matrix d = policy_matrix)
    (l : LazySigRegModel.t) (max_abs_norm : tensor3 -> tensor3)
    (max_abs_norm_2d : tensor2 -> tensor2) (P : Path.ops) :
  (forall (out : tensor3),
     all2 grid_range (fst (DiscreteStatefulRNNModel.soft_action d out)) /\
     all2 solar_range (snd (DiscreteStatefulRNNModel.soft_action d out)) /\
     all2 grid_range (fst (DiscreteStatefulRNNModel.hard_action d out)) /\
     all2 solar_range (snd (DiscreteStatefulRNNModel.hard_action d out))) /\
  (forall (x : tensor3) (pv pr peak_ind : tensor2) (hard_actions : bool)
          (w : runtime),
     let r := fst (DiscreteStatefulRNNModel.forward d x pv pr peak_ind
                     hard_actions w) in
     all3 grid_range (fst (fst (fst r))) /\
     all3 solar_range (snd (fst (fst r)))) /\
  (forall (battery_state : tensor2) (x_t h0 : tensor3) (w : runtime),
     let r := fst (DiscreteStatefulRNNModel.step_forward d battery_state x_t
                     h0 w) in
     all2 grid_range (fst (fst (fst r))) /\
     all2 solar_range (snd (fst (fst r)))) /\
  (forall (x : tensor3) (pv pr peak_ind : tensor2) (w : runtime),
     let r := fst (LazySigRegModel.forward max_abs_norm l x pv pr peak_ind
                     w) in
     all2 grid_range (fst (fst (fst r))) /\
     all2 solar_range (snd (fst (fst r)))) /\
  (forall (battery_state : tensor2) (x_t : tensor3)
          (path : option (Path.t P)) (w : runtime),
     let r := fst (LazySigRegModel.step_forward max_abs_norm_2d P l
                     battery_state x_t path w) in
     all2 grid_range (fst (fst r)) /\
     all2 solar_range (snd (fst r))).
Proof.
  split; [|split; [|split; [|split]]].
  - intros out.
    destruct (soft_action_range d table out) as [Sg Sp].
    destruct (hard_action_range d table out) as [Hg Hp].
    repeat split; assumption.
  - intros x pv pr peak_ind hard_actions w.
    destruct (forward_outputs d x pv pr peak_ind hard_actions w)
      as (s & w1 & s0 & -> & -> & Hg & Hp & _).
    cbv zeta. cbn [fst snd].
    destruct (forward_loop_range d table x pv pr peak_ind hard_actions
                (size1 x) 0 s0 w1) as [Fg Fp].
    { split.
      - rewrite Hg. apply zeros3_filled. unfold grid_range. lra.
      - rewrite Hp. apply zeros3_filled. unfold solar_range. lra. }
    split; eapply filled_all3; eassumption.
  - intros battery_state x_t h0 w.
    destruct (discrete_step_forward_spec d battery_state x_t h0 w)
      as (out & w' & h0' & -> & _).
    cbv zeta. cbn [fst snd]. apply select_action_range. exact table.
  - intros x pv pr peak_ind w.
    destruct (forward_spec max_abs_norm l x pv pr peak_ind w)
      as (ls & lf & gen0 & evs & trace & gen1 & actions & gen2
          & _ & _ & _ & ->).
    cbv zeta. cbn [fst snd]. split; [apply tanh2_range|apply sigmoid2_range].
  - intros battery_state x_t path w.
    destruct (lazysig_step_forward_spec max_abs_norm_2d P l battery_state x_t
                path w) as (z & path' & ->).
    cbv zeta. cbn [fst snd]. split; [apply tanh2_range|apply sigmoid2_range].
Qed.

(** The ranges on the small instances. *)
Lemma actions_within_ranges_witness :
  let r := fst (DiscreteStatefulRNNModel.forward
                  (Examples.discrete false true) Examples.x Examples.pv
                  Examples.pr Examples.peak_ind false Examples.fresh) in
  all3 grid_range (fst (fst (fst r))) /\ all3 solar_range (snd (fst (fst r))).
Proof.
  exact (proj1 (proj2 (actions_within_ranges
                         (Examples.discrete false true) eq_refl
                         (Examples.lazysig 5 false) Examples.identity3
                         (fun x => x)
                         {| Path.t := unit;
                            Path.new := fun _ _ _ => tt;
                            Path.update := fun _ _ => tt;
                            Path.size1 := fun _ => 2%nat;
                            Path.logsignature := fun _ => [[0]] |}))
           Examples.x Examples.pv Examples.pr Examples.peak_ind false
           Examples.fresh).
Defined.

(** ** The branch of the action selection *)

Lemma expectation_explicit (values : list R) (logits : tensor1) :
  dot (softmax logits) values = expected values logits.
Proof.
  unfold dot, softmax, expected.
  generalize (Rsum (map exp logits)). intros total. revert values.
  induction logits as [|logit logits IH]; intros values.
  - unfold Rsum. cbn. unfold Rdiv. ring.
  - destruct values as [|value values].
    + unfold Rsum. cbn. unfold Rdiv. ring.
    + cbn [map zip_with].
      change (Rsum (?a :: ?t)) with (a + Rsum t).
      rewrite IH. unfold Rdiv. ring.
Qed.

Lemma documented_columns :
  map (fun k => fst (documented_action k)) (seq 0 7) =
    [1; 0.5; 0; 0; 0; -0.5; -1] /\
  map (fun k => snd (documented_action k)) (seq 0 7) =
    [1; 1; 1; 0.5; 0; 0; 0].
Proof. split; reflexivity. Qed.

Section Selection.
Import DiscreteStatefulRNNModel.
Variable self : t.
Hypothesis table : self_policy_matrix self = policy_matrix.

Lemma soft_action_explicit (out : tensor3) :
  soft_action self out = (chosen_grid soft out, chosen_solar soft out).
Proof.
  unfold soft_action, chosen_grid, chosen_solar, chosen. cbv zeta.
  rewrite table, !select_matmul_softmax.
  destruct documented_columns as [-> ->].
  f_equal; apply map2_ext; intros logits; cbn [fst snd];
    rewrite <- expectation_explicit.
  - change (nth 0 (vecmat (softmax logits) policy_matrix) 0)
      with (dot (softmax logits) (map (fun row => nth 0 row 0) policy_matrix)).
    rewrite policy_grid_column. reflexivity.
  - change (nth 1 (vecmat (softmax logits) policy_matrix) 0)
      with (dot (softmax logits) (map (fun row => nth 1 row 0) policy_matrix)).
    rewrite policy_solar_column. reflexivity.
Qed.

Lemma hard_action_explicit (out : tensor3) :
  hard_action self out = (chosen_grid hard out, chosen_solar hard out).
Proof.
  unfold hard_action, chosen_grid, chosen_solar, chosen, lookup_policy,
    argmax3.
  cbv zeta. rewrite table, !map2_map2.
  f_equal; apply map2_ext; intros logits; apply policy_row.
Qed.

Lemma select_action_explicit (hard_actions : bool) (out : tensor3)
    (w : runtime) :
  select_action self hard_actions out w =
  ((chosen_grid (branch hard_actions) out,
    chosen_solar (branch hard_actions) out),
   {| generator := generator w; grad_enabled := grad_enabled w;
      events := events w ++ [selected (branch hard_actions)] |}).
Proof.
  unfold select_action. destruct hard_actions; cbn [branch].
  - rewrite hard_action_explicit. reflexivity.
  - rewrite soft_action_explicit. reflexivity.
Qed.
End Selection.

(** One turn of the loop of [forward] (lines 119-150), the selection
    written out. *)
Lemma forward_step_explicit (self : DiscreteStatefulRNNModel.t)
    (table : DiscreteStatefulRNNModel.self_policy_matrix self = policy_matrix)
    (x : tensor3) (pv pr peak_ind : tensor2) (hard_actions : bool) (i : nat)
    (s : DiscreteStatefulRNNModel.loop_state) (w : runtime) :
  let encoded :=
    DiscreteStatefulRNNModel.encoder self
      (DiscreteStatefulRNNModel.training self)
      (DiscreteStatefulRNNModel.observe self (slice_time i x)
         (DiscreteStatefulRNNModel.battery_state s))
      (DiscreteStatefulRNNModel.h0 s) (generator w) in
  let out := DiscreteStatefulRNNModel.fc self (fst (fst encoded)) in
  let grid_action := chosen_grid (branch hard_actions) out in
  let pv_action := chosen_solar (branch hard_actions) out in
  let stepped :=
    BatteryEnv.forward (DiscreteStatefulRNNModel.battery self)
      (DiscreteStatefulRNNModel.battery_state s) grid_action pv_action
      (slice_time i pv) (slice_time i pr)
      (DiscreteStatefulRNNModel.beta self) (select_time i peak_ind) in
  DiscreteStatefulRNNModel.forward_step self x pv pr peak_ind hard_actions i
    s w =
  ({| DiscreteStatefulRNNModel.h0 := snd (fst encoded);
      DiscreteStatefulRNNModel.battery_state := fst stepped;
      DiscreteStatefulRNNModel.grid_actions :=
        add_at_time i (DiscreteStatefulRNNModel.grid_actions s) grid_action;
      DiscreteStatefulRNNModel.pv_actions :=
        add_at_time i (DiscreteStatefulRNNModel.pv_actions s) pv_action;
      DiscreteStatefulRNNModel.battery_states :=
        add_at_time i (DiscreteStatefulRNNModel.battery_states s)
          (fst stepped);
      DiscreteStatefulRNNModel.costs :=
        add_at_time i (DiscreteStatefulRNNModel.costs s) (snd stepped) |},
   {| generator := snd encoded; grad_enabled := grad_enabled w;
      events := events w ++ [selected (branch hard_actions)] |}).
Proof.
  cbv zeta. unfold DiscreteStatefulRNNModel.forward_step.
  cbv zeta. unfold mbind at 1, M_bind at 1, draw.
  destruct (DiscreteStatefulRNNModel.encoder _ _ _ _ _) as [[z_t h0'] gen'].
  cbn [fst snd]. unfold mbind, M_bind.
  rewrite (select_action_explicit self table).
  cbn [generator grad_enabled events].
  destruct (BatteryEnv.forward _ _ _ _ _ _ _ _) as [state' cost].
  reflexivity.
Qed.

(** [step_forward] (lines 160-175), the selection written out. *)
Lemma step_forward_explicit (self : DiscreteStatefulRNNModel.t)
    (table : DiscreteStatefulRNNModel.self_policy_matrix self = policy_matrix)
    (battery_state : tensor2) (x_t h0 : tensor3) (w : runtime) :
  let encoded :=
    DiscreteStatefulRNNModel.encoder self
      (DiscreteStatefulRNNModel.training self)
      (DiscreteStatefulRNNModel.observe self x_t battery_state) h0
      (generator w) in
  let out := DiscreteStatefulRNNModel.fc self (fst (fst encoded)) in
  let s := if DiscreteStatefulRNNModel.semi_discrete self
           then soft else hard in
  DiscreteStatefulRNNModel.step_forward self battery_state x_t h0 w =
  ((chosen_grid s out, chosen_solar s out, battery_state, snd (fst encoded)),
   {| generator := snd encoded; grad_enabled := grad_enabled w;
      events := events w ++ [selected s] |}).
Proof.
  cbv zeta. unfold DiscreteStatefulRNNModel.step_forward.
  cbv zeta. unfold mbind at 1, M_bind at 1, draw.
  destruct (DiscreteStatefulRNNModel.encoder _ _ _ _ _) as [[z_t h0'] gen'].
  cbn [fst snd]. unfold mbind, M_bind.
  rewrite (select_action_explicit self table).
  cbn [generator grad_enabled events].
  destruct (DiscreteStatefulRNNModel.semi_discrete self); reflexivity.
Qed.

Lemma selections_replicate (n : nat) (s : selection) :
  selections (replicate n (selected s)) = replicate n s.
Proof.
  induction n as [|n IH]; [reflexivity|].
  cbn [replicate]. unfold selections in *. cbn [omap list_omap].
  rewrite IH. reflexivity.
Qed.

Lemma selections_app (evs evs' : list event) :
  selections (evs ++ evs') = selections evs ++ selections evs'.
Proof. apply omap_app. Qed.

Lemma selections_initial_state (self : DiscreteStatefulRNNModel.t)
    (batch : nat) :
  selections [initial_state_event self batch] = [].
Proof.
  unfold initial_state_event.
  destruct (DiscreteStatefulRNNModel.training self); reflexivity.
Qed.

Lemma forward_selections (self : DiscreteStatefulRNNModel.t) (x : tensor3)
    (pv pr peak_ind : tensor2) (hard_actions : bool) (w : runtime) :
  selections (events (snd (DiscreteStatefulRNNModel.forward self x pv pr
                             peak_ind hard_actions w))) =
  selections (events w) ++ replicate (size1 x) (branch hard_actions).
Proof.
  rewrite forward_events.
  change (?a :: ?l) with ([a] ++ l).
  rewrite !selections_app, selections_initial_state, selections_replicate.
  reflexivity.
Qed.

Lemma training_step_events (self : DiscreteStatefulRNNModel.t) (x : tensor3)
    (pv pr peak_ind : tensor2) (w : runtime) :
  events (snd (DiscreteStatefulRNNModel.training_step self
                 (x, pv, pr, peak_ind) w)) =
  events (snd (DiscreteStatefulRNNModel.forward self x pv pr peak_ind false
                 w)).
Proof.
  unfold DiscreteStatefulRNNModel.training_step, mbind, M_bind.
  destruct (DiscreteStatefulRNNModel.forward _ _ _ _ _ _ _)
    as [[[[g p] b] c] w']. reflexivity.
Qed.

Lemma validation_step_events (self : DiscreteStatefulRNNModel.t)
    (x : tensor3) (pv pr peak_ind : tensor2) (w : runtime) :
  events (snd (DiscreteStatefulRNNModel.validation_step self
                 (x, pv, pr, peak_ind) w)) =
  events (snd (DiscreteStatefulRNNModel.forward self x pv pr peak_ind
                 (if DiscreteStatefulRNNModel.semi_discrete self
                  then false else true) w)).
Proof.
  unfold DiscreteStatefulRNNModel.validation_step, mbind, M_bind.
  destruct (DiscreteStatefulRNNModel.forward _ _ _ _ _ _ _)
    as [[[[g p] b] c] w']. reflexivity.
Qed.

(** The branch every entry point of the discrete controller takes, at each
    of the time steps of the batch: [training_step] and [predict_step]
    select softly whatever the flags are, [validation_step] selects by
    argmax unless [semi_discrete] is set.  [step_forward_explicit] says the
    same of [step_forward], and [forward_step_explicit] what the selected
    values are. *)
Lemma selections_by_entry_point (self : DiscreteStatefulRNNModel.t)
    (x : tensor3) (pv pr peak_ind : tensor2) (w : runtime) :
  selections (events (snd (DiscreteStatefulRNNModel.training_step self
                             (x, pv, pr, peak_ind) w))) =
    selections (events w) ++ replicate (size1 x) soft /\
  selections (events (snd (DiscreteStatefulRNNModel.validation_step self
                             (x, pv, pr, peak_ind) w))) =
    selections (events w) ++
    replicate (size1 x)
      (if DiscreteStatefulRNNModel.semi_discrete self then soft else hard) /\
  selections (events (snd (DiscreteStatefulRNNModel.predict_step self
                             (x, pv, pr, peak_ind) w))) =
    selections (events w) ++ replicate (size1 x) soft.
Proof.
  split; [|split].
  - rewrite training_step_events, forward_selections. reflexivity.
  - rewrite validation_step_events, forward_selections.
    destruct (DiscreteStatefulRNNModel.semi_discrete self); reflexivity.
  - unfold DiscreteStatefulRNNModel.predict_step.
    rewrite forward_selections. reflexivity.
Qed.

Lemma chosen_on_equal_logits :
  chosen soft [0; 0; 0; 0; 0; 0; 0] = (0, 1 / 2) /\
  chosen hard [0; 0; 0; 0; 0; 0; 0] = (1, 1).
Proof.
  split.
  - unfold chosen, expected. destruct documented_columns as [-> ->].
    unfold Rsum. cbn [zip_with map fold_right]. rewrite exp_0.
    replace (1 + (1 + (1 + (1 + (1 + (1 + (1 + 0))))))) with 7 by lra.
    f_equal; lra.
  - unfold chosen, argmax. cbn [argmax_from].
    repeat (destruct (Rlt_dec 0 0) as [Hlt|_]; [lra|]). reflexivity.
Qed.

(** C6 fails on the code at one entry point.  [training_step] selects
    softly, [validation_step] and [step_forward] by argmax unless
    [semi_discrete] is set; but [predict_step] calls [forward] without
    [hard_actions] and so selects softly in evaluation mode with
    [semi_discrete = False] too.  On a controller prepared for prediction
    ([on_predict_start], evaluation mode, [semi_discrete = False]) whose
    seven logits are equal, [predict_step] returns the softmax expectation
    (grid 0, solar 1/2), while on the same batch [validation_step] selects
    by argmax (its [forward] returns grid 1, solar 1, the first row of the
    table) and so does [step_forward]. *)
Theorem predict_step_selects_softly_in_evaluation :
  let self :=
    DiscreteStatefulRNNModel.on_predict_start (Examples.discrete false false) in
  let batch := (Examples.x, Examples.pv, Examples.pr, Examples.peak_ind) in
  let predicted :=
    DiscreteStatefulRNNModel.predict_step self batch Examples.fresh in
  let validated :=
    DiscreteStatefulRNNModel.forward self Examples.x Examples.pv Examples.pr
      Examples.peak_ind
      (if DiscreteStatefulRNNModel.semi_discrete self then false else true)
      Examples.fresh in
  let stepped :=
    DiscreteStatefulRNNModel.step_forward self [[0]] Examples.x
      (DiscreteStatefulRNNModel.get_initial_h self 1) Examples.fresh in
  DiscreteStatefulRNNModel.training self = false /\
  DiscreteStatefulRNNModel.semi_discrete self = false /\
  selections (events (snd predicted)) = [soft] /\
  fst (fst (fst (fst predicted))) = [[[0]]] /\
  snd (fst (fst (fst predicted))) = [[[1 / 2]]] /\
  selections
    (events (snd (DiscreteStatefulRNNModel.validation_step self batch
                    Examples.fresh))) = [hard] /\
  events (snd (DiscreteStatefulRNNModel.validation_step self batch
                 Examples.fresh)) = events (snd validated) /\
  fst (fst (fst (fst validated))) = [[[1]]] /\
  snd (fst (fst (fst validated))) = [[[1]]] /\
  selections (events (snd stepped)) = [hard] /\
  fst (fst (fst (fst stepped))) = [[1]] /\
  snd (fst (fst (fst stepped))) = [[1]].
Proof.
  cbv zeta.
  destruct (selections_by_entry_point
              (DiscreteStatefulRNNModel.on_predict_start
                 (Examples.discrete false false))
              Examples.x Examples.pv Examples.pr Examples.peak_ind
              Examples.fresh) as (_ & Hvalidation & Hprediction).
  split; [reflexivity|]. split; [reflexivity|].
  split; [rewrite Hprediction; reflexivity|].
  split; [run; rewrite exp_0; repeat f_equal; lra|].
  split; [run; rewrite exp_0; repeat f_equal; lra|].
  split; [rewrite Hvalidation; reflexivity|].
  split; [rewrite validation_step_events; reflexivity|].
  split; [run; repeat (destruct (Rlt_dec 0 0) as [Hlt|_]; [lra|]);
          repeat f_equal; lra|].
  split; [run; repeat (destruct (Rlt_dec 0 0) as [Hlt|_]; [lra|]);
          repeat f_equal; lra|].
  split; [run; repeat (destruct (Rlt_dec 0 0) as [Hlt|_]; [lra|]);
          reflexivity|].
  split; run; repeat (destruct (Rlt_dec 0 0) as [Hlt|_]; [lra|]);
    reflexivity.
Qed.

(** In evaluation mode the discrete controller starts from the fixed
    initial state and asks for no random one. *)
Lemma discrete_eval_initial_state (self : DiscreteStatefulRNNModel.t)
    (batch : nat) (w : runtime) :
  DiscreteStatefulRNNModel.training self = false ->
  DiscreteStatefulRNNModel.initial_battery_state self batch w =
  (BatteryEnv.get_initial_state (DiscreteStatefulRNNModel.battery self) batch,
   {| generator := generator w; grad_enabled := grad_enabled w;
      events := events w ++ [get_initial_state_call batch] |}).
Proof.
  intros Heval. unfold DiscreteStatefulRNNModel.initial_battery_state.
  rewrite Heval. reflexivity.
Qed.

(** ** Shapes of the outputs *)

Lemma has_shape3_rows (b t c : nat) (x : tensor3) :
  has_shape [b; t; c] x -> has_rows b t x.
Proof.
  intros [Hb Hrows]%has_shape3_iff. split; [exact Hb|].
  eapply Forall_impl; [exact Hrows|]. intros rows [Ht _]. exact Ht.
Qed.

Lemma has_shape2_rows (b t : nat) (x : tensor2) :
  has_shape [b; t] x <-> has_rows b t x.
Proof. apply has_shape2_iff. Qed.

Lemma reshape_to_input (b t f c : nat) (x y : tensor3) :
  has_shape [b; t; f] x ->
  has_shape [size0 x; size1 x; c] y ->
  has_shape [b; t; c] y.
Proof.
  intros [Hb Hrows]%has_shape3_iff Hy. destruct x as [|rows x].
  - cbn in Hb. subst b. apply has_shape3_iff in Hy as [Hlen _].
    cbn in Hlen. apply nil_length_inv in Hlen. subst y.
    apply has_shape3_iff. split; [reflexivity|constructor].
  - apply Forall_cons in Hrows as [[Ht _] _].
    unfold size0, size1 in Hy. rewrite Hb, Ht in Hy. exact Hy.
Qed.

Lemma has_rows_map {A B : Type} (f : list A -> list B) (b t : nat)
    (x : list (list A)) :
  (forall row, length (f row) = length row) ->
  has_rows b t x -> has_rows b t (map f x).
Proof.
  intros Hf [Hb Hrows]. split; [rewrite length_map; exact Hb|].
  apply Forall_forall. intros row' Hin.
  apply list_elem_of_In, in_map_iff in Hin as [row [<- Hin]].
  rewrite Hf. apply list_elem_of_In in Hin.
  exact (proj1 (Forall_forall _ _) Hrows _ Hin).
Qed.

Lemma cat_last_rows (b t : nat) (u v : tensor3) :
  has_rows b t u -> has_rows b t v -> has_rows b t (cat_last u v).
Proof.
  unfold cat_last. revert b v.
  induction u as [|ru u IH]; intros b v [Hb Hu] [Hvb Hv].
  - split; [exact Hb|constructor].
  - destruct v as [|rv v]; [cbn in *; lia|].
    apply Forall_cons in Hu as [Hru Hu]. apply Forall_cons in Hv as [Hrv Hv].
    cbn in Hb, Hvb.
    destruct (IH (length u) v) as [Hlen Hall].
    { split; [reflexivity|exact Hu]. }
    { split; [lia|exact Hv]. }
    split.
    + cbn [zip_with length]. rewrite Hlen. exact Hb.
    + cbn [zip_with]. constructor; [|exact Hall].
      rewrite length_zip_with. lia.
Qed.

Lemma trace_features_rows (b t : nat) (c : R) (trace : tensor2) :
  has_shape [b; S t] trace ->
  has_rows b t (div_scalar3 c (unsqueeze_last (drop_first trace))).
Proof.
  intros Htr%has_shape2_rows.
  unfold div_scalar3, unsqueeze_last, drop_first.
  apply has_rows_map; [intros; apply length_map|].
  apply has_rows_map; [intros; apply length_map|].
  destruct Htr as [Hb Hrows]. split; [rewrite length_map; exact Hb|].
  apply Forall_forall. intros row' Hin.
  apply list_elem_of_In, in_map_iff in Hin as [row [<- Hin]].
  apply list_elem_of_In in Hin.
  rewrite length_drop, (proj1 (Forall_forall _ _) Hrows _ Hin). lia.
Qed.

Lemma concat_rows_length {A : Type} (b t : nat) (x : list (list A)) :
  has_rows b t x -> length (concat x) = (b * t)%nat.
Proof.
  revert b. induction x as [|rows x IH]; intros b [Hb Hrows].
  - cbn in *. subst b. reflexivity.
  - apply Forall_cons in Hrows as [Ht Hrows]. cbn in Hb. subst b.
    cbn [concat]. rewrite length_app, Ht, (IH (length x)).
    + reflexivity.
    + split; [reflexivity|exact Hrows].
Qed.

Lemma chunks_rows {A : Type} (size count : nat) :
  forall l : list A,
    length l = (count * size)%nat -> has_rows count size (chunks size count l).
Proof.
  induction count as [|count IH]; intros l Hl.
  - split; [reflexivity|constructor].
  - cbn [chunks]. destruct (IH (drop size l)) as [Hlen Hall].
    { rewrite length_drop. lia. }
    split.
    + cbn [length]. rewrite Hlen. reflexivity.
    + constructor; [|exact Hall]. rewrite length_take. lia.
Qed.

Lemma apply_rows_rows (f : tensor2 -> N -> tensor2 * N) (b t : nat)
    (x : tensor3) (gen : N) :
  (forall rows g, length (fst (f rows g)) = length rows) ->
  has_rows b t x -> has_rows b t (fst (apply_rows f x gen)).
Proof.
  intros Hf Hx. unfold apply_rows.
  pose proof (Hf (concat x) gen) as Hlen.
  destruct (f (concat x) gen) as [y gen']. cbn [fst] in *.
  rewrite (concat_rows_length b t x Hx) in Hlen.
  destruct Hx as [Hb Hrows]. destruct x as [|rows x].
  - cbn in Hb. subst b. split; [reflexivity|constructor].
  - apply Forall_cons in Hrows as [Ht _].
    unfold size0, size1. rewrite Hb, Ht. apply chunks_rows. exact Hlen.
Qed.

Lemma select_last_shape (c b t : nat) (x : tensor3) :
  has_rows b t x -> has_shape [b; t] (select_last c x).
Proof.
  intros Hx. apply has_shape2_rows. unfold select_last.
  apply has_rows_map; [intros; apply length_map|exact Hx].
Qed.

Lemma map2_shape (f : R -> R) (b t : nat) (x : tensor2) :
  has_shape [b; t] x -> has_shape [b; t] (map (map f) x).
Proof.
  intros Hx%has_shape2_rows. apply has_shape2_rows.
  apply has_rows_map; [intros; apply length_map|exact Hx].
Qed.

Section LazySigShapes.
Import LazySigRegModel.
Variable self : t.
Variables (ls lf : tensor3) (pv pr peak_ind : tensor2).
Variables (b t : nat).
Hypothesis logsig_rows : has_rows b t ls.
Hypothesis local_rows : has_rows b t lf.
Hypothesis fc_rows :
  forall training rows g, length (fst (fc self training rows g)) = length rows.
Hypothesis replay_shape :
  forall grid pv_action gen,
    has_shape [b; t] grid ->
    has_shape [b; S t]
      (fst (fst (SeqBatteryEnv.forward (battery self) grid pv_action pv pr
                   None true peak_ind gen))).

Lemma head_shapes (trace : tensor2) (gen : N) :
  has_shape [b; S t] trace ->
  has_shape [b; t] (fst (squashed (fst (head self ls lf trace gen)))) /\
  has_shape [b; t] (snd (squashed (fst (head self ls lf trace gen)))).
Proof.
  intros Htr. unfold squashed, head. cbn [fst snd].
  rewrite <- combine_features_explicit.
  assert (has_rows b t
            (fst (apply_rows (fc self (training self))
                    (combine_features self ls lf trace) gen))) as Hact.
  { apply apply_rows_rows; [apply fc_rows|].
    unfold combine_features.
    apply cat_last_rows; [apply cat_last_rows; assumption|].
    apply trace_features_rows. exact Htr. }
  split; apply map2_shape, select_last_shape; exact Hact.
Qed.

Lemma alternation_trace_shape (n : nat) (trace : tensor2) (gen : N)
    (evs : list event) (trace' : tensor2) (gen' : N) :
  alternation self ls lf pv pr peak_ind n trace gen evs trace' gen' ->
  has_shape [b; S t] trace -> has_shape [b; S t] trace'.
Proof.
  induction 1 as [|n trace gen actions gen1 trace1 costs1 gen2 evs trace'
                   gen' Hhead Hreplay _ IH]; intros Htr; [exact Htr|].
  apply IH.
  destruct (head_shapes trace gen Htr) as [Hg _].
  rewrite Hhead in Hg. cbn [fst] in Hg.
  pose proof (replay_shape _ (snd (squashed actions)) gen1 Hg) as Hs.
  unfold replay in Hreplay. rewrite Hreplay in Hs. exact Hs.
Qed.
End LazySigShapes.

Lemma discrete_forward_shapes (self : DiscreteStatefulRNNModel.t)
    (x : tensor3) (pv pr peak_ind : tensor2) (hard_actions : bool)
    (w : runtime) :
  let r := fst (DiscreteStatefulRNNModel.forward self x pv pr peak_ind
                  hard_actions w) in
  has_shape [size0 x; size1 x; 1%nat] (fst (fst (fst r))) /\
  has_shape [size0 x; size1 x; 1%nat] (snd (fst (fst r))) /\
  has_shape [size0 x; size1 x; 1%nat] (snd (fst r)) /\
  has_shape [size0 x; size1 x; 1%nat] (snd r).
Proof.
  destruct (forward_outputs self x pv pr peak_ind hard_actions w)
    as (s & w1 & s0 & -> & -> & Hg & Hp & Hb & Hc).
  cbv zeta. cbn [fst snd].
  apply (forward_loop_shape self x pv pr peak_ind hard_actions).
  unfold shaped. rewrite Hg, Hp, Hb, Hc.
  split; [|split; [|split]]; apply zeros3_shape.
Qed.

(** C9, as the claim states it, fails for the signature controller: in
    evaluation mode, on a batch of shape (1, 1, 1), the grid actions it
    returns are the rank-2 tensor [[tanh 0]] of shape (1, 1), not a tensor
    of shape (1, 1, 1). *)
Lemma lazysig_actions_have_rank_two :
  has_shape [1%nat; 1%nat; 1%nat] Examples.x /\
  LazySigRegModel.training (Examples.lazysig 5 false) = false /\
  fst (fst (fst (fst (LazySigRegModel.forward Examples.identity3
                        (Examples.lazysig 5 false) Examples.x Examples.pv
                        Examples.pr Examples.peak_ind Examples.fresh)))) =
    [[tanh 0]] /\
  ~ has_shape [1%nat; 1%nat; 1%nat]
      (fst (fst (fst (fst (LazySigRegModel.forward Examples.identity3
                             (Examples.lazysig 5 false) Examples.x Examples.pv
                             Examples.pr Examples.peak_ind
                             Examples.fresh))))).
Proof.
  assert (fst (fst (fst (fst (LazySigRegModel.forward Examples.identity3
                        (Examples.lazysig 5 false) Examples.x Examples.pv
                        Examples.pr Examples.peak_ind Examples.fresh)))) =
          [[tanh 0]]) as Hgrid by (run; reflexivity).
  split; [|split; [reflexivity|split; [exact Hgrid|]]].
  - apply has_shape3_iff. repeat constructor.
  - rewrite Hgrid. intros [_ Hrows].
    apply Forall_cons in Hrows as [[_ Hcells] _].
    apply Forall_cons in Hcells as [Hscalar _].
    discriminate Hscalar.
Qed.

(** C9 (amended): on a batch of shape (batch, time, features) the discrete
    controller returns four tensors of shape (batch, time, 1).  The
    signature controller returns grid and solar actions of shape
    (batch, time), the last dimension being indexed away, and as battery
    states the estimated trace of shape (batch, time + 1), which starts with
    the initial state; its costs are what [static_forward] returns.  The
    statement for the signature controller is under the contracts of its
    collaborators, which are hypotheses here: the two feature extractors
    return tensors whose first two dimensions are (batch, time), the
    prediction head answers one row for every row it is given,
    [get_neutral_trace] returns a trace of shape (batch, time + 1), and the
    simulator's [forward] returns a trace of shape (batch, time + 1) for
    actions of shape (batch, time). *)
Theorem forward_output_shapes
    (d : DiscreteStatefulRNNModel.t) (l : LazySigRegModel.t)
    (max_abs_norm : tensor3 -> tensor3)
    (b t f : nat) (x : tensor3) (pv pr peak_ind : tensor2)
    (hard_actions : bool) (w : runtime) :
  has_shape [b; t; f] x ->
  (let r := fst (DiscreteStatefulRNNModel.forward d x pv pr peak_ind
                   hard_actions w) in
   has_shape [b; t; 1%nat] (fst (fst (fst r))) /\
   has_shape [b; t; 1%nat] (snd (fst (fst r))) /\
   has_shape [b; t; 1%nat] (snd (fst r)) /\
   has_shape [b; t; 1%nat] (snd r)) /\
  (forall (ls lf : tensor3) (cl ch : nat),
     fst (LazySigRegModel.extract_features max_abs_norm l x w) = (ls, lf) ->
     has_shape [b; t; cl] ls ->
     has_shape [b; t; ch] lf ->
     (forall training rows g,
        length (fst (LazySigRegModel.fc l training rows g)) = length rows) ->
     has_shape [b; S t]
       (SeqBatteryEnv.get_neutral_trace (LazySigRegModel.battery l)
          (size0 x) (size1 x)) ->
     (forall grid pv_action gen,
        has_shape [b; t] grid ->
        has_shape [b; S t]
          (fst (fst (SeqBatteryEnv.forward (LazySigRegModel.battery l) grid
                       pv_action pv pr None true peak_ind gen)))) ->
     let r := fst (LazySigRegModel.forward max_abs_norm l x pv pr peak_ind
                     w) in
     has_shape [b; t] (fst (fst (fst r))) /\
     has_shape [b; t] (snd (fst (fst r))) /\
     has_shape [b; S t] (snd (fst r)) /\
     snd r =
       snd (SeqBatteryEnv.static_forward (LazySigRegModel.battery l)
              (drop_first (snd (fst r))) (tanh2 (fst (fst (fst r))))
              (sigmoid2 (snd (fst (fst r)))) pv pr (LazySigRegModel.beta l)
              peak_ind)).
Proof.
  intros Hx. split.
  - pose proof (discrete_forward_shapes d x pv pr peak_ind hard_actions w)
      as Hshapes.
    cbv zeta in Hshapes. destruct Hshapes as (Hg & Hp & Hb & Hc).
    cbv zeta.
    split; [|split; [|split]]; apply (reshape_to_input b t f 1 x _ Hx);
      [exact Hg|exact Hp|exact Hb|exact Hc].
  - intros ls lf cl ch Hfeat Hls Hlf Hfc Hneutral Hreplay.
    destruct (forward_spec max_abs_norm l x pv pr peak_ind w)
      as (ls' & lf' & gen0 & evs & trace & gen1 & actions & gen2
          & Hfeat' & Halt & Hhead & ->).
    rewrite Hfeat in Hfeat'. injection Hfeat' as <- <-.
    cbv zeta. cbn [fst snd].
    apply has_shape3_rows in Hls, Hlf.
    assert (has_shape [b; S t] trace) as Htr
      by exact (alternation_trace_shape l ls lf pv pr peak_ind b t Hls Hlf Hfc
                  Hreplay _ _ _ _ _ _ Halt Hneutral).
    destruct (head_shapes l ls lf b t Hls Hlf Hfc trace gen1 Htr) as [Hg Hp].
    rewrite Hhead in Hg, Hp. cbn [fst snd squashed] in Hg, Hp.
    split; [exact Hg|]. split; [exact Hp|]. split; [exact Htr|reflexivity].
Qed.

Lemma example_replay_shape (b t : nat) (grid pv_action pv pr peak : tensor2)
    (gen : N) :
  has_shape [b; t] grid ->
  has_shape [b; S t]
    (fst (fst (SeqBatteryEnv.forward Examples.seq_battery grid pv_action pv pr
                 None true peak gen))).
Proof.
  intros Hg%has_shape2_rows. apply has_shape2_rows. cbn [fst].
  unfold Examples.seq_battery. cbn [SeqBatteryEnv.forward fst].
  destruct Hg as [Hb Hrows]. split; [rewrite length_map; exact Hb|].
  apply Forall_forall. intros row' Hin.
  apply list_elem_of_In, in_map_iff in Hin as [row [<- Hin]].
  apply list_elem_of_In in Hin. cbn [length].
  rewrite (proj1 (Forall_forall _ _) Hrows _ Hin). reflexivity.
Qed.

(** The shapes on a batch of shape (1, 1, 1), the signature controller in
    evaluation mode. *)
Lemma forward_output_shapes_witness :
  (let r := fst (DiscreteStatefulRNNModel.forward
                   (Examples.discrete false true) Examples.x Examples.pv
                   Examples.pr Examples.peak_ind false Examples.fresh) in
   has_shape [1; 1; 1]%nat (snd r)) /\
  (let r := fst (LazySigRegModel.forward Examples.identity3
                   (Examples.lazysig 5 false) Examples.x Examples.pv
                   Examples.pr Examples.peak_ind Examples.fresh) in
   has_shape [1; 1]%nat (fst (fst (fst r))) /\
   has_shape [1; 2]%nat (snd (fst r))).
Proof.
  assert (has_shape [1; 1; 1]%nat Examples.x) as Hx
    by (apply has_shape3_iff; repeat constructor).
  destruct (forward_output_shapes (Examples.discrete false true)
              (Examples.lazysig 5 false) Examples.identity3 1 1 1 Examples.x
              Examples.pv Examples.pr Examples.peak_ind false Examples.fresh
              Hx) as [Hd Hl].
  split.
  - apply Hd.
  - destruct (Hl [[[INR 0 * (1 / 12); 0]]] [[[0]]] 2%nat 1%nat)
      as (Hg & _ & Htr & _).
    + run. reflexivity.
    + apply has_shape3_iff. repeat constructor.
    + apply has_shape3_iff. repeat constructor.
    + intros training rows g. apply length_map.
    + apply has_shape2_iff. repeat constructor.
    + intros grid pv_action gen. apply example_replay_shape.
    + split; assumption.
Defined.

(** ** The estimation loop and what [forward] returns *)

Section Rounds.
Variable self : LazySigRegModel.t.
Variables (ls lf : tensor3) (pv pr peak_ind : tensor2).

Lemma alternation_detached (n : nat) (trace : tensor2) (gen : N)
    (evs : list event) (trace' : tensor2) (gen' : N) :
  alternation self ls lf pv pr peak_ind n trace gen evs trace' gen' ->
  Forall detached evs.
Proof.
  induction 1; [constructor|].
  constructor; [reflexivity|]. constructor; [split; reflexivity|assumption].
Qed.

End Rounds.






Lemma last_after_two {A : Type} (a c : list A) (b d e : A) :
  last (a ++ b :: c ++ [d; e]) = Some e.
Proof.
  replace (a ++ b :: c ++ [d; e]) with ((a ++ b :: c ++ [d]) ++ [e]).
  - apply last_snoc.
  - rewrite <- app_assoc. cbn [app]. rewrite <- app_assoc. reflexivity.
Qed.

(** What [m_step] replays, for every input: the returned actions squashed
    once more. *)
Lemma m_step_squashes_again
    (max_abs_norm : tensor3 -> tensor3) (self : LazySigRegModel.t)
    (x : tensor3) (pv pr peak_ind : tensor2) (w : runtime) :
  let r := LazySigRegModel.forward max_abs_norm self x pv pr peak_ind w in
  last (events (snd r)) =
    Some (static_forward_call (grad_enabled w)
            (drop_first (snd (fst (fst r))))
            (tanh2 (fst (fst (fst (fst r)))))
            (sigmoid2 (snd (fst (fst (fst r)))))
            (LazySigRegModel.beta self)) /\
  Forall (Forall (fun v => 1 / 2 < v < 1))
    (sigmoid2 (snd (fst (fst (fst r))))).
Proof.
  destruct (forward_spec max_abs_norm self x pv pr peak_ind w)
    as (ls & lf & gen0 & evs & trace & gen1 & actions & gen2
        & _ & _ & _ & Heq).
  cbv zeta. rewrite Heq. cbn [fst snd events]. split.
  - apply last_after_two.
  - unfold sigmoid2. rewrite map2_map2.
    apply (all2_map_gen (fun v => 1 / 2 < v < 1)
             (fun a => sigmoid (sigmoid a))).
    intros v. split; [apply sigmoid_twice_above_half|apply sigmoid_range].
Qed.

(** C1 fails on the code.  In training mode, on a batch of two time steps
    for which the prediction head answers (0, 0), [forward] returns the
    grid actions [tanh 0] and the solar actions [sigmoid 0], but the call of
    [static_forward] that produces the returned costs replays
    [tanh (tanh 0)] and [sigmoid (sigmoid 0)]: [m_step] squashes the
    already squashed actions again.  The replayed solar action is not the
    returned one, and no replayed solar action can be below one half. *)
Theorem costs_replay_resquashed_actions :
  let r := LazySigRegModel.forward Examples.identity3
             (Examples.lazysig 5 true) Examples.x2 Examples.pv2 Examples.pr2
             Examples.peak_ind2 Examples.fresh in
  has_shape [1%nat; 2%nat; 1%nat] Examples.x2 /\
  fst (fst (fst (fst r))) = [[tanh 0; tanh 0]] /\
  snd (fst (fst (fst r))) = [[sigmoid 0; sigmoid 0]] /\
  last (events (snd r)) =
    Some (static_forward_call true [[tanh 0; tanh 0]]
            [[tanh (tanh 0); tanh (tanh 0)]]
            [[sigmoid (sigmoid 0); sigmoid (sigmoid 0)]] (Some 0.5)) /\
  snd (fst r) = [[tanh (tanh 0); tanh (tanh 0)]] /\
  sigmoid (sigmoid 0) <> sigmoid 0 /\
  (forall z : R, 1 / 2 < sigmoid (sigmoid z)).
Proof.
  cbv zeta. split; [apply has_shape3_iff; repeat constructor|].
  split; [run; reflexivity|]. split; [run; reflexivity|].
  split; [run; reflexivity|]. split; [run; reflexivity|]. split.
  - pose proof (sigmoid_twice_above_half 0). rewrite sigmoid_0 in *. lra.
  - apply sigmoid_twice_above_half.
Qed.

(** In evaluation mode too, a signature controller with at least one
    estimation round asks the simulator for a random initial state. *)
Lemma lazysig_eval_requests_random_state
    (max_abs_norm : tensor3 -> tensor3) (self : LazySigRegModel.t)
    (x : tensor3) (pv pr peak_ind : tensor2) (w : runtime) :
  LazySigRegModel.training self = false ->
  (0 < LazySigRegModel.e_step_iters self)%Z ->
  Exists random_replay
    (events (snd (LazySigRegModel.forward max_abs_norm self x pv pr peak_ind
                    w))).
Proof.
  intros _ Hpos.
  destruct (forward_spec max_abs_norm self x pv pr peak_ind w)
    as (ls & lf & gen0 & evs & trace & gen1 & actions & gen2
        & _ & Halt & _ & ->).
  cbn [snd events].
  destruct (Z.to_nat (LazySigRegModel.e_step_iters self)) as [|n] eqn:Hn;
    [lia|].
  inversion Halt; subst.
  apply Exists_app. right. apply Exists_cons. right.
  apply Exists_cons. right. apply Exists_cons. left. reflexivity.
Qed.

(** C8 fails on the code for the signature controller.  In evaluation mode
    ([training = False]) its estimation loop still replays with
    [random_initial_state=True]; with a simulator whose random initial state
    is read off the generator, two evaluation passes over the same batch
    that differ in the generator state alone start from, and return,
    different battery states. *)
Theorem lazysig_eval_uses_random_initial_state :
  let eval gen :=
    LazySigRegModel.forward Examples.identity3 (Examples.lazysig 5 false)
      Examples.x Examples.pv Examples.pr Examples.peak_ind
      {| generator := gen; grad_enabled := false; events := [] |} in
  LazySigRegModel.training (Examples.lazysig 5 false) = false /\
  Exists random_replay (events (snd (eval 0%N))) /\
  snd (fst (fst (eval 0%N))) = [[INR 4; tanh 0]] /\
  snd (fst (fst (eval 1%N))) = [[INR 5; tanh 0]] /\
  INR 4 <> INR 5.
Proof.
  cbv zeta. split; [reflexivity|]. split; [|split; [|split]].
  - apply lazysig_eval_requests_random_state; [reflexivity|cbn; lia].
  - run. reflexivity.
  - run. reflexivity.
  - rewrite (S_INR 4). lra.
Qed.

(** ** The deployment adapter *)

Section Adapter.
Import Calibration.
Variable active_columns : list string.
Variable self : t.
Variable external_state : gmap string cell.

Lemma default_missing_lookup (columns : list string) :
  (forall k, k ∈ columns -> is_Some (means self !! k)) ->
  exists current : gmap string cell,
    default_missing columns self external_state = Ok current /\
    forall key,
      current !! key = if decide (key ∈ columns)
      then defaulted self external_state key else None.
Proof.
  unfold default_missing.
  induction columns as [|k columns IH] using rev_ind; intros Hmeans.
  - exists ∅. split; [reflexivity|]. intros key.
    rewrite lookup_empty. destruct (decide (key ∈ [])) as [Hin|_];
      [inversion Hin|reflexivity].
  - destruct IH as (current & Hcur & Hlookup).
    { intros k' Hk'. apply Hmeans. apply elem_of_app. left. exact Hk'. }
    rewrite foldl_app. cbn [foldl]. rewrite Hcur.
    unfold mbind at 1, result_bind at 1.
    assert (exists v, defaulted self external_state k = Some v /\
              match external_state !! k with
              | Some v => Ok v
              | None => getitem (means self) k
              end = Ok v) as (v & Hv & ->).
    { unfold defaulted, getitem.
      destruct (external_state !! k) as [v|]; [exists v; split; reflexivity|].
      destruct (Hmeans k) as [m Hm].
      { apply elem_of_app. right. apply list_elem_of_singleton. reflexivity. }
      rewrite Hm. exists m. split; reflexivity. }
    exists (<[k := v]> current). split; [reflexivity|].
    intros key. destruct (decide (k = key)) as [<-|Hne].
    + rewrite lookup_insert_eq.
      destruct (decide (k ∈ columns ++ [k])) as [_|Hnot]; [symmetry; exact Hv|].
      exfalso. apply Hnot, elem_of_app. right.
      apply list_elem_of_singleton. reflexivity.
    + rewrite lookup_insert_ne by exact Hne. rewrite Hlookup.
      destruct (decide (key ∈ columns)) as [Hin|Hnin];
        destruct (decide (key ∈ columns ++ [k])) as [Hin'|Hnin'];
        try reflexivity.
      * exfalso. apply Hnin', elem_of_app. left. exact Hin.
      * exfalso. apply elem_of_app in Hin' as [Hin'|Hin']; [tauto|].
        apply list_elem_of_singleton in Hin'. congruence.
Qed.

Lemma fillna_lookup (value current : gmap string cell) (key : string) :
  fillna value current !! key =
  match current !! key with
  | Some c => if isna c then Some (default c (value !! key)) else Some c
  | None => None
  end.
Proof.
  unfold fillna. rewrite map_lookup_imap.
  destruct (current !! key) as [c|]; [|reflexivity].
  cbn. destruct (isna c); [|reflexivity].
  destruct (value !! key); reflexivity.
Qed.

Lemma complete_lookup :
  (forall k, k ∈ active_columns -> is_Some (means self !! k)) ->
  exists current : gmap string cell,
    complete active_columns self external_state = Ok current /\
    forall key,
      current !! key =
      if decide (key ∈ active_columns)
      then filled self external_state key else None.
Proof.
  intros Hmeans. unfold complete.
  destruct (default_missing_lookup active_columns Hmeans)
    as (current & -> & Hlookup).
  unfold mbind, result_bind.
  destruct (last (historical_states self)) as [last_state|] eqn:Hlast.
  - exists (fillna last_state current). split; [reflexivity|].
    intros key. rewrite fillna_lookup, Hlookup. unfold filled.
    rewrite Hlast.
    destruct (decide (key ∈ active_columns)); [|reflexivity].
    destruct (defaulted self external_state key); reflexivity.
  - exists (fillna (means self) current). split; [reflexivity|].
    intros key. rewrite fillna_lookup, Hlookup. unfold filled.
    rewrite Hlast.
    destruct (decide (key ∈ active_columns)); [|reflexivity].
    destruct (defaulted self external_state key); reflexivity.
Qed.
End Adapter.

(** Whatever else the record holds, a call whose record lacks [pv_power]
    raises [KeyError] once the row is completed and the model has run. *)
Lemma act_raises_without_pv_power (columns : list string)
    (to_datetime : Calibration.cell -> result Calibration.cell)
    (self : Calibration.t)
    (external_state : gmap string Calibration.cell)
    (internal_state : gmap string R)
    (current : gmap string Calibration.cell) (ts : Calibration.cell)
    (features : tensor2 * tensor2 * tensor2 * tensor2) (soc cr : R) :
  external_state !! "pv_power" = None ->
  Calibration.complete columns self external_state = Ok current ->
  current !! "timestamp" = Some ts ->
  to_datetime ts = Ok ts ->
  Calibration.preprocessor_transform self (<["timestamp" := ts]> current) =
    Ok features ->
  internal_state !! "battery_soc" = Some soc ->
  internal_state !! "max_charge_rate" = Some cr ->
  snd (Calibration.act columns to_datetime external_state internal_state self)
  = Raise (KeyError "pv_power").
Proof.
  intros Hpv Hcur Hts Hdt Hpre Hsoc Hcr.
  unfold Calibration.act, mbind, Calibration.method_bind, Calibration.get,
    Calibration.lift, Calibration.modify.
  rewrite Hcur. unfold Calibration.getitem at 1. rewrite Hts.
  unfold result_bind at 1. rewrite Hdt, Hpre.
  destruct features as [[[state pv_power] price] peak].
  unfold Calibration.getitem at 1. rewrite Hsoc.
  destruct (StatefulRNNModel.step_forward _ _ _ _)
    as [[[grid_action pv_action] battery_state] h'].
  unfold Calibration.getitem at 1. rewrite Hcr.
  unfold Calibration.getitem at 1. rewrite Hpv. reflexivity.
Qed.

(** C10, as the claim states it, fails twice on one adapter that has seen a
    record with price 55 and whose training mean of the price is 40.  A
    record without the price is completed with the mean 40, not with the
    last observed 55; and a call whose record lacks [pv_power] raises
    [KeyError]. *)
Lemma absent_field_defaults_to_mean_and_pv_power_is_required :
  (current ← Calibration.complete Examples.active_columns
               Examples.calibration Examples.without_price;
   Calibration.getitem current "price") = Ok (Calibration.Num 40) /\
  (last (Calibration.historical_states Examples.calibration)
     ≫= fun record => record !! "price") = Some (Calibration.Num 55) /\
  Calibration.Num 40 <> Calibration.Num 55 /\
  snd (Calibration.act Examples.active_columns Examples.to_datetime
         Examples.without_pv_power Examples.internal_state
         Examples.calibration) = Raise (KeyError "pv_power").
Proof.
  split; [run; reflexivity|]. split; [run; reflexivity|]. split.
  - intros H. injection H as H. lra.
  - run. reflexivity.
Qed.

(** C10 (amended): when the means have every active column, as line 37
    leaves them, the row of a call is completed without an exception for
    every set of absent fields.  Each active column first gets the value of
    the record, or the training mean if the record lacks the field (lines
    44-48).  A value that is not NaN then stays: an absent field whose mean
    is not NaN takes the mean, whether or not a record was observed before.
    A value that is NaN then (the field was present as NaN, or absent with
    a NaN mean) is replaced by what the last observed record holds for the
    field if a record was observed before (it stays NaN if that record
    lacks the field), and by the training mean otherwise. *)
Theorem missing_fields_completed
    (columns : list string) (self : Calibration.t)
    (external_state : gmap string Calibration.cell) :
  (forall k, k ∈ columns -> is_Some (Calibration.means self !! k)) ->
  exists current : gmap string Calibration.cell,
    Calibration.complete columns self external_state = Ok current /\
    forall key, key ∈ columns ->
      current !! key = filled self external_state key /\
      exists d : Calibration.cell,
        (forall v, external_state !! key = Some v -> d = v) /\
        (external_state !! key = None ->
         Calibration.means self !! key = Some d) /\
        (Calibration.isna d = false -> current !! key = Some d) /\
        (Calibration.isna d = true ->
         forall last_state,
           last (Calibration.historical_states self) = Some last_state ->
           (forall v, last_state !! key = Some v -> current !! key = Some v) /\
           (last_state !! key = None -> current !! key = Some d)) /\
        (Calibration.isna d = true ->
         Calibration.historical_states self = [] ->
         current !! key = Calibration.means self !! key).
Proof.
  intros Hmeans.
  destruct (complete_lookup columns self external_state Hmeans)
    as (current & Hcur & Hlookup).
  exists current. split; [exact Hcur|]. intros key Hkey.
  assert (current !! key = filled self external_state key) as Hfilled.
  { rewrite Hlookup. destruct (decide (key ∈ columns)); [reflexivity|tauto]. }
  split; [exact Hfilled|]. rewrite Hfilled. unfold filled, defaulted.
  destruct (Hmeans key Hkey) as [m Hm].
  destruct (external_state !! key) as [v|] eqn:Hext.
  - exists v. split; [intros v' Hv'; congruence|]. split; [discriminate|].
    split; [intros ->; reflexivity|]. split.
    + intros -> last_state ->. split.
      * intros v' ->. reflexivity.
      * intros ->. reflexivity.
    + intros -> ->. cbn [last]. rewrite Hm. reflexivity.
  - exists m. split; [discriminate|]. split; [intros _; exact Hm|].
    rewrite Hm.
    split; [intros ->; reflexivity|]. split.
    + intros -> last_state ->. split.
      * intros v' ->. reflexivity.
      * intros ->. reflexivity.
    + intros -> ->. reflexivity.
Qed.

Lemma example_means_cover (k : string) :
  k ∈ Examples.active_columns ->
  is_Some (Calibration.means Examples.calibration !! k).
Proof.
  intros Hk. unfold Examples.active_columns in Hk.
  repeat (apply elem_of_cons in Hk as [->|Hk]);
    [eexists; run; reflexivity ..|inversion Hk].
Defined.

Lemma example_nan_means_cover (k : string) :
  k ∈ Examples.active_columns ->
  is_Some (Calibration.means Examples.calibration_nan_mean !! k).
Proof.
  intros Hk. unfold Examples.active_columns in Hk.
  repeat (apply elem_of_cons in Hk as [->|Hk]);
    [eexists; run; reflexivity ..|inversion Hk].
Defined.

(** With a record observed before whose price is 55: a NaN price takes
    that price, and so does an absent price when the training mean of the
    price is itself NaN; with a mean of 40 the absent price takes the
    mean. *)
Lemma missing_fields_completed_witness :
  (exists current : gmap string Calibration.cell,
     Calibration.complete Examples.active_columns Examples.calibration
       Examples.nan_price = Ok current /\
     current !! "price" = Some (Calibration.Num 55)) /\
  (exists current : gmap string Calibration.cell,
     Calibration.complete Examples.active_columns Examples.calibration_nan_mean
       Examples.without_price = Ok current /\
     current !! "price" = Some (Calibration.Num 55)) /\
  (exists current : gmap string Calibration.cell,
     Calibration.complete Examples.active_columns Examples.calibration
       Examples.without_price = Ok current /\
     current !! "price" = Some (Calibration.Num 40)).
Proof.
  assert ("price" ∈ Examples.active_columns) as Hprice.
  { unfold Examples.active_columns. apply elem_of_cons. right.
    apply elem_of_cons. left. reflexivity. }
  split; [|split].
  - destruct (missing_fields_completed Examples.active_columns
                Examples.calibration Examples.nan_price example_means_cover)
      as (current & Hcur & Hkeys).
    exists current. split; [exact Hcur|].
    destruct (Hkeys "price" Hprice) as (_ & d & Hpresent & _ & _ & Hlast & _).
    assert (d = Calibration.NA) as ->
      by (apply Hpresent; run; reflexivity).
    apply (Hlast eq_refl Examples.first_record); run; reflexivity.
  - destruct (missing_fields_completed Examples.active_columns
                Examples.calibration_nan_mean Examples.without_price
                example_nan_means_cover)
      as (current & Hcur & Hkeys).
    exists current. split; [exact Hcur|].
    destruct (Hkeys "price" Hprice) as (_ & d & _ & Habsent & _ & Hlast & _).
    assert (Some d = Some Calibration.NA) as Hd.
    { rewrite <- Habsent by (run; reflexivity). run. reflexivity. }
    injection Hd as ->.
    apply (Hlast eq_refl Examples.first_record); run; reflexivity.
  - destruct (missing_fields_completed Examples.active_columns
                Examples.calibration Examples.without_price
                example_means_cover)
      as (current & Hcur & Hkeys).
    exists current. split; [exact Hcur|].
    destruct (Hkeys "price" Hprice) as (_ & d & _ & Habsent & Hkeep & _).
    assert (Some d = Some (Calibration.Num 40)) as Hd.
    { rewrite <- Habsent by (run; reflexivity). run. reflexivity. }
    injection Hd as ->. apply Hkeep. reflexivity.
Defined.

(** ** Further properties of the controllers and the adapter *)

(** X1: one turn of the loop of the discrete [forward], taken with
    [hard_actions = not semi_discrete] as [validation_step] does, is
    [step_forward] on the current battery state, the time slice and the
    recurrent state, followed by one step of the simulator on the selected
    actions and the four accumulations.  [step_forward] hands the battery
    state back unchanged: advancing it is left to the caller. *)
Theorem forward_step_is_step_forward_then_simulator
    (self : DiscreteStatefulRNNModel.t) (x : tensor3)
    (pv pr peak_ind : tensor2) (i : nat)
    (s : DiscreteStatefulRNNModel.loop_state) (w : runtime) :
  let r := DiscreteStatefulRNNModel.step_forward self
             (DiscreteStatefulRNNModel.battery_state s) (slice_time i x)
             (DiscreteStatefulRNNModel.h0 s) w in
  let grid_action := fst (fst (fst (fst r))) in
  let pv_action := snd (fst (fst (fst r))) in
  let stepped :=
    BatteryEnv.forward (DiscreteStatefulRNNModel.battery self)
      (DiscreteStatefulRNNModel.battery_state s) grid_action pv_action
      (slice_time i pv) (slice_time i pr)
      (DiscreteStatefulRNNModel.beta self) (select_time i peak_ind) in
  snd (fst (fst r)) = DiscreteStatefulRNNModel.battery_state s /\
  DiscreteStatefulRNNModel.forward_step self x pv pr peak_ind
    (negb (DiscreteStatefulRNNModel.semi_discrete self)) i s w =
  ({| DiscreteStatefulRNNModel.h0 := snd (fst r);
      DiscreteStatefulRNNModel.battery_state := fst stepped;
      DiscreteStatefulRNNModel.grid_actions :=
        add_at_time i (DiscreteStatefulRNNModel.grid_actions s) grid_action;
      DiscreteStatefulRNNModel.pv_actions :=
        add_at_time i (DiscreteStatefulRNNModel.pv_actions s) pv_action;
      DiscreteStatefulRNNModel.battery_states :=
        add_at_time i (DiscreteStatefulRNNModel.battery_states s)
          (fst stepped);
      DiscreteStatefulRNNModel.costs :=
        add_at_time i (DiscreteStatefulRNNModel.costs s) (snd stepped) |},
   snd r).
Proof.
  unfold DiscreteStatefulRNNModel.step_forward,
    DiscreteStatefulRNNModel.forward_step.
  cbv zeta. unfold mbind, M_bind.
  destruct (draw _ w) as [[z_t h0'] w1].
  destruct (DiscreteStatefulRNNModel.select_action _ _ _ w1)
    as [[grid_action pv_action] w2].
  cbn [fst snd mret M_ret]. unfold mret, M_ret. cbn [fst snd].
  destruct (BatteryEnv.forward _ _ _ _ _ _ _ _) as [state' cost].
  split; reflexivity.
Qed.

Lemma dot_minus (w : list R) :
  forall s g : list R,
    length s = length g ->
    dot w (zip_with Rminus s g) = dot w s - dot w g.
Proof.
  induction w as [|a w IH]; intros s g Hlen.
  - unfold dot, Rsum. cbn. lra.
  - destruct s as [|x s], g as [|y g]; try discriminate Hlen.
    + unfold dot, Rsum. cbn. lra.
    + cbn [zip_with]. rewrite !dot_cons, IH by (cbn in Hlen; lia). lra.
Qed.

Lemma soft_solar_covers_grid (l : list R) :
  solar_covers_grid (nth 0 (vecmat (softmax l) policy_matrix) 0)
                    (nth 1 (vecmat (softmax l) policy_matrix) 0).
Proof.
  change (nth 0 (vecmat (softmax l) policy_matrix) 0)
    with (dot (softmax l) (map (fun row => nth 0 row 0) policy_matrix)).
  change (nth 1 (vecmat (softmax l) policy_matrix) 0)
    with (dot (softmax l) (map (fun row => nth 1 row 0) policy_matrix)).
  rewrite policy_grid_column, policy_solar_column.
  pose proof (dot_minus (softmax l) [1; 1; 1; 0.5; 0; 0; 0]
                [1; 0.5; 0; 0; 0; -0.5; -1] eq_refl) as Hd.
  cbn [zip_with] in Hd.
  pose proof (expectation_bounds 0 1 l
                [1 - 1; 1 - 0.5; 1 - 0; 0.5 - 0; 0 - 0; 0 - -0.5; 0 - -1]
                ltac:(lra) ltac:(repeat constructor; lra)) as Hb.
  rewrite Hd in Hb. unfold solar_covers_grid. lra.
Qed.

Lemma hard_solar_covers_grid (a : nat) :
  solar_covers_grid (nth 0 (nth a policy_matrix []) 0)
                    (nth 1 (nth a policy_matrix []) 0).
Proof.
  unfold solar_covers_grid, policy_matrix.
  do 7 (destruct a as [|a]; [cbn [nth]; lra|]). destruct a; cbn [nth]; lra.
Qed.

Lemma Forall2_map2 {A : Type} (rel : R -> R -> Prop) (f g : A -> R)
    (x : list (list A)) :
  (forall a, rel (f a) (g a)) ->
  Forall2 (Forall2 rel) (map (map f) x) (map (map g) x).
Proof.
  intros Hfg. induction x as [|row x IH]; [constructor|].
  cbn [map]. constructor; [|exact IH].
  induction row as [|a row IHr]; [constructor|].
  cbn [map]. constructor; [apply Hfg|exact IHr].
Qed.

(** X2: whichever way the discrete controller selects, softly or by
    argmax, the solar fraction of every selected action is at least its grid
    fraction and exceeds it by at most one: an invariant of the table that
    the softmax expectation keeps. *)
Theorem discrete_solar_covers_grid
    (self : DiscreteStatefulRNNModel.t)
    (table : DiscreteStatefulRNNModel.self_policy_matrix self = policy_matrix)
    (hard_actions : bool) (out : tensor3) (w : runtime) :
  let sel := fst (DiscreteStatefulRNNModel.select_action self hard_actions
                    out w) in
  Forall2 (Forall2 solar_covers_grid) (fst sel) (snd sel).
Proof.
  cbv zeta. rewrite select_action_value. destruct hard_actions.
  - unfold DiscreteStatefulRNNModel.hard_action, lookup_policy. cbv zeta.
    rewrite table. cbn [fst snd]. apply Forall2_map2.
    intros a. apply hard_solar_covers_grid.
  - unfold DiscreteStatefulRNNModel.soft_action. cbv zeta. rewrite table.
    cbn [fst snd]. rewrite !select_matmul_softmax.
    apply (Forall2_map2 solar_covers_grid
             (fun l => nth 0 (vecmat (softmax l) policy_matrix) 0)
             (fun l => nth 1 (vecmat (softmax l) policy_matrix) 0)).
    apply soft_solar_covers_grid.
Qed.

Lemma discrete_solar_covers_grid_witness :
  let sel := fst (DiscreteStatefulRNNModel.select_action
                    (Examples.discrete false true) false
                    [[[0; 0; 0; 0; 0; 0; 0]]] Examples.fresh) in
  Forall2 (Forall2 solar_covers_grid) (fst sel) (snd sel).
Proof.
  exact (discrete_solar_covers_grid (Examples.discrete false true) eq_refl
           false [[[0; 0; 0; 0; 0; 0; 0]]] Examples.fresh).
Defined.

Lemma annealed_beta_bounds (a d m : R) (n : Z) (k : nat) :
  (1 <= n)%Z -> a <= m -> 0 <= d ->
  a <= annealed_beta a d m n k <= m.
Proof.
  intros Hn Ham Hd. unfold annealed_beta.
  pose proof (intervals_begun_nonneg n (Z.of_nat k) Hn ltac:(lia)) as Hc.
  apply IZR_le in Hc. unfold Rmin.
  destruct (Rle_dec _ _); split; try lra; nra.
Qed.

Lemma annealed_beta_monotone (a d m : R) (n : Z) (k : nat) :
  (1 <= n)%Z -> a <= m -> 0 <= d ->
  annealed_beta a d m n k <= annealed_beta a d m n (S k).
Proof.
  intros Hn Ham Hd. rewrite annealed_beta_S by assumption.
  pose proof (annealed_beta_bounds a d m n k Hn Ham Hd) as Hb.
  destruct (Z.of_nat k `mod` n =? 0)%Z; [|lra].
  unfold Rmin. destruct (Rle_dec _ _); lra.
Qed.

(** X4: for a valid configuration with a non-negative increment, beta
    never decreases from one epoch to the next and stays between [beta_min]
    and [beta_max], for both controllers. *)
Theorem beta_never_decreases_nor_leaves_its_bounds
    (d : DiscreteStatefulRNNModel.t) (l : LazySigRegModel.t) (k : nat) :
  ((1 <= DiscreteStatefulRNNModel.increase_beta_per_n_epoch d)%Z ->
   DiscreteStatefulRNNModel.beta_min d <= DiscreteStatefulRNNModel.beta_max d ->
   0 <= DiscreteStatefulRNNModel.beta_increment d ->
   exists b b' : R,
     DiscreteStatefulRNNModel.beta <$> Lightning.fit k d = Ok (Some b) /\
     DiscreteStatefulRNNModel.beta <$> Lightning.fit (S k) d = Ok (Some b') /\
     DiscreteStatefulRNNModel.beta_min d <= b /\ b <= b' /\
     b' <= DiscreteStatefulRNNModel.beta_max d) /\
  ((1 <= LazySigRegModel.increase_beta_per_n_epoch l)%Z ->
   LazySigRegModel.beta_min l <= LazySigRegModel.beta_max l ->
   0 <= LazySigRegModel.beta_increment l ->
   exists b b' : R,
     LazySigRegModel.beta <$> Lightning.fit k l = Ok (Some b) /\
     LazySigRegModel.beta <$> Lightning.fit (S k) l = Ok (Some b') /\
     LazySigRegModel.beta_min l <= b /\ b <= b' /\
     b' <= LazySigRegModel.beta_max l).
Proof.
  split; intros Hn Hb Hd.
  - destruct (discrete_fit d Hn Hb k) as (s & Hs & _ & Hbeta).
    destruct (discrete_fit d Hn Hb (S k)) as (s' & Hs' & _ & Hbeta').
    eexists _, _. rewrite Hs, Hs'. cbn [fmap result_fmap].
    rewrite Hbeta, Hbeta'. split; [reflexivity|]. split; [reflexivity|].
    pose proof (annealed_beta_bounds _ _ _ _ k Hn Hb Hd).
    pose proof (annealed_beta_bounds _ _ _ _ (S k) Hn Hb Hd).
    pose proof (annealed_beta_monotone _ _ _ _ k Hn Hb Hd).
    repeat split; lra.
  - destruct (lazysig_fit l Hn Hb k) as (s & Hs & _ & Hbeta).
    destruct (lazysig_fit l Hn Hb (S k)) as (s' & Hs' & _ & Hbeta').
    eexists _, _. rewrite Hs, Hs'. cbn [fmap result_fmap].
    rewrite Hbeta, Hbeta'. split; [reflexivity|]. split; [reflexivity|].
    pose proof (annealed_beta_bounds _ _ _ _ k Hn Hb Hd).
    pose proof (annealed_beta_bounds _ _ _ _ (S k) Hn Hb Hd).
    pose proof (annealed_beta_monotone _ _ _ _ k Hn Hb Hd).
    repeat split; lra.
Qed.

Lemma beta_never_decreases_nor_leaves_its_bounds_witness :
  (exists b b' : R,
     DiscreteStatefulRNNModel.beta <$>
       Lightning.fit 3 (Examples.discrete false true) = Ok (Some b) /\
     DiscreteStatefulRNNModel.beta <$>
       Lightning.fit 4 (Examples.discrete false true) = Ok (Some b') /\
     0.5 <= b /\ b <= b' /\ b' <= 5) /\
  (exists b b' : R,
     LazySigRegModel.beta <$>
       Lightning.fit 3 (Examples.lazysig 5 true) = Ok (Some b) /\
     LazySigRegModel.beta <$>
       Lightning.fit 4 (Examples.lazysig 5 true) = Ok (Some b') /\
     0.5 <= b /\ b <= b' /\ b' <= 5).
Proof.
  destruct (beta_never_decreases_nor_leaves_its_bounds
              (Examples.discrete false true) (Examples.lazysig 5 true) 3)
    as [Hd Hl].
  split.
  - apply Hd; cbn; [lia|lra|lra].
  - apply Hl; cbn; [lia|lra|lra].
Defined.

Lemma foldl_raise {A B : Type} (f : result A -> B -> result A) (e : exn)
    (l : list B) :
  (forall b, f (Raise e) b = Raise e) -> foldl f (Raise e) l = Raise e.
Proof.
  intros Hf. induction l as [|b l IH]; [reflexivity|].
  cbn [foldl]. rewrite Hf. exact IH.
Qed.

(** X5: with [increase_beta_per_n_epoch = 0] the hook at the end of the
    first epoch raises [ZeroDivisionError] ([current_epoch % 0]), so every
    training run of at least one epoch fails; the start of the run does
    not. *)
Theorem zero_interval_fails_first_epoch
    (d : DiscreteStatefulRNNModel.t) (l : LazySigRegModel.t) (k : nat) :
  (DiscreteStatefulRNNModel.increase_beta_per_n_epoch d = 0%Z ->
   Lightning.fit 0 d = Ok (DiscreteStatefulRNNModel.on_train_start d) /\
   Lightning.fit (S k) d = Raise ZeroDivisionError) /\
  (LazySigRegModel.increase_beta_per_n_epoch l = 0%Z ->
   Lightning.fit 0 l = Ok (LazySigRegModel.on_train_start l) /\
   Lightning.fit (S k) l = Raise ZeroDivisionError).
Proof.
  split; intros Hzero; (split; [reflexivity|]).
  - unfold Lightning.fit. cbn [seq foldl]. unfold mbind at 2, result_bind at 2.
    rewrite discrete_epoch_end.
    change (DiscreteStatefulRNNModel.increase_beta_per_n_epoch
              (Lightning.on_train_start d))
      with (DiscreteStatefulRNNModel.increase_beta_per_n_epoch d).
    rewrite Hzero. cbn [Z.eqb]. apply foldl_raise. reflexivity.
  - unfold Lightning.fit. cbn [seq foldl]. unfold mbind at 2, result_bind at 2.
    rewrite lazysig_epoch_end.
    change (LazySigRegModel.increase_beta_per_n_epoch
              (Lightning.on_train_start l))
      with (LazySigRegModel.increase_beta_per_n_epoch l).
    rewrite Hzero. cbn [Z.eqb]. apply foldl_raise. reflexivity.
Qed.

Lemma zero_interval_fails_first_epoch_witness :
  Lightning.fit 2 discrete_without_interval = Raise ZeroDivisionError /\
  Lightning.fit 2 lazysig_without_interval = Raise ZeroDivisionError.
Proof.
  destruct (zero_interval_fails_first_epoch discrete_without_interval
              lazysig_without_interval 1) as [Hd Hl].
  split.
  - apply Hd. reflexivity.
  - apply Hl. reflexivity.
Defined.

(** X6: after [on_predict_start] has set beta to [None], the hook
    [on_train_epoch_end] raises [TypeError] at an anneal epoch
    ([None + beta_increment]); a training run started through
    [on_train_start] resets beta first and behaves as if no prediction had
    taken place. *)
Theorem training_after_prediction
    (d : DiscreteStatefulRNNModel.t) (l : LazySigRegModel.t) (e : Z)
    (k : nat) :
  (DiscreteStatefulRNNModel.increase_beta_per_n_epoch d <> 0%Z ->
   (e `mod` DiscreteStatefulRNNModel.increase_beta_per_n_epoch d = 0)%Z ->
   DiscreteStatefulRNNModel.on_train_epoch_end
     (DiscreteStatefulRNNModel.with_epoch e
        (DiscreteStatefulRNNModel.on_predict_start d)) = Raise TypeError) /\
  (LazySigRegModel.increase_beta_per_n_epoch l <> 0%Z ->
   (e `mod` LazySigRegModel.increase_beta_per_n_epoch l = 0)%Z ->
   LazySigRegModel.on_train_epoch_end
     (LazySigRegModel.with_epoch e (LazySigRegModel.on_predict_start l)) =
   Raise TypeError) /\
  Lightning.fit k (DiscreteStatefulRNNModel.on_predict_start d) =
    Lightning.fit k d /\
  Lightning.fit k (LazySigRegModel.on_predict_start l) = Lightning.fit k l.
Proof.
  split; [|split; [|split; reflexivity]].
  - intros Hn He. unfold DiscreteStatefulRNNModel.on_train_epoch_end.
    cbn [DiscreteStatefulRNNModel.on_predict_start
         DiscreteStatefulRNNModel.with_beta DiscreteStatefulRNNModel.with_epoch
         DiscreteStatefulRNNModel.increase_beta_per_n_epoch
         DiscreteStatefulRNNModel.current_epoch DiscreteStatefulRNNModel.beta].
    destruct (Z.eqb_spec (DiscreteStatefulRNNModel.increase_beta_per_n_epoch d)
                0) as [E|_]; [contradiction|].
    rewrite He. reflexivity.
  - intros Hn He. unfold LazySigRegModel.on_train_epoch_end.
    cbn [LazySigRegModel.on_predict_start LazySigRegModel.with_beta
         LazySigRegModel.with_epoch LazySigRegModel.increase_beta_per_n_epoch
         LazySigRegModel.current_epoch LazySigRegModel.beta].
    destruct (Z.eqb_spec (LazySigRegModel.increase_beta_per_n_epoch l) 0)
      as [E|_]; [contradiction|].
    rewrite He. reflexivity.
Qed.

Lemma training_after_prediction_witness :
  DiscreteStatefulRNNModel.on_train_epoch_end
    (DiscreteStatefulRNNModel.with_epoch 4
       (DiscreteStatefulRNNModel.on_predict_start
          (Examples.discrete false true))) = Raise TypeError /\
  LazySigRegModel.on_train_epoch_end
    (LazySigRegModel.with_epoch 4
       (LazySigRegModel.on_predict_start (Examples.lazysig 5 true))) =
  Raise TypeError.
Proof.
  destruct (training_after_prediction (Examples.discrete false true)
              (Examples.lazysig 5 true) 4 0) as (Hd & Hl & _).
  split.
  - apply Hd; [cbn; lia|reflexivity].
  - apply Hl; [cbn; lia|reflexivity].
Defined.

Lemma sum_time_single_channel (b t : nat) (costs : tensor3) :
  (1 <= t)%nat -> has_shape [b; t; 1%nat] costs ->
  concat (sum_time costs) =
  map (fun rows => Rsum (map (fun c => nth 0 c 0) rows)) costs.
Proof.
  intros Ht [_ Hrows]%has_shape3_iff. unfold sum_time.
  induction Hrows as [|rows costs [Hlen Hcells] _ IH]; [reflexivity|].
  cbn [map concat]. rewrite IH.
  destruct rows as [|cell rows]; [cbn in Hlen; lia|].
  apply Forall_cons in Hcells as [Hcell _].
  unfold size1. rewrite Hcell. reflexivity.
Qed.

Lemma loss_of_single_channel (b t : nat) (costs : tensor3) :
  (1 <= t)%nat -> has_shape [b; t; 1%nat] costs ->
  loss_of costs = total_cost costs / INR b.
Proof.
  intros Ht Hshape. unfold loss_of, mean, total_cost.
  rewrite (sum_time_single_channel b t costs Ht Hshape), length_map.
  apply has_shape3_iff in Hshape as [-> _]. reflexivity.
Qed.

Lemma training_step_value (self : DiscreteStatefulRNNModel.t) (x : tensor3)
    (pv pr peak_ind : tensor2) (w : runtime) :
  fst (DiscreteStatefulRNNModel.training_step self (x, pv, pr, peak_ind) w) =
  loss_of (snd (fst (DiscreteStatefulRNNModel.forward self x pv pr peak_ind
                       false w))).
Proof.
  unfold DiscreteStatefulRNNModel.training_step, mbind, M_bind.
  destruct (DiscreteStatefulRNNModel.forward _ _ _ _ _ _ _)
    as [[[[g p] bs] c] w']. reflexivity.
Qed.

Lemma validation_step_value (self : DiscreteStatefulRNNModel.t) (x : tensor3)
    (pv pr peak_ind : tensor2) (w : runtime) :
  fst (DiscreteStatefulRNNModel.validation_step self (x, pv, pr, peak_ind)
         w) =
  loss_of (snd (fst (DiscreteStatefulRNNModel.forward self x pv pr peak_ind
                       (if DiscreteStatefulRNNModel.semi_discrete self
                        then false else true) w))).
Proof.
  unfold DiscreteStatefulRNNModel.validation_step, mbind, M_bind.
  destruct (DiscreteStatefulRNNModel.forward _ _ _ _ _ _ _)
    as [[[[g p] bs] c] w']. reflexivity.
Qed.

(** X7: on a batch of at least one trajectory and one time step, the loss
    of [training_step] and of [validation_step] of the discrete controller
    is the cost summed over all time steps and trajectories, divided by the
    batch size. *)
Theorem loss_is_mean_trajectory_cost
    (self : DiscreteStatefulRNNModel.t) (b t f : nat) (x : tensor3)
    (pv pr peak_ind : tensor2) (w : runtime) :
  has_shape [b; t; f] x -> (1 <= b)%nat -> (1 <= t)%nat ->
  fst (DiscreteStatefulRNNModel.training_step self (x, pv, pr, peak_ind) w) =
    total_cost
      (snd (fst (DiscreteStatefulRNNModel.forward self x pv pr peak_ind
                   false w))) / INR b /\
  fst (DiscreteStatefulRNNModel.validation_step self (x, pv, pr, peak_ind)
         w) =
    total_cost
      (snd (fst (DiscreteStatefulRNNModel.forward self x pv pr peak_ind
                   (if DiscreteStatefulRNNModel.semi_discrete self
                    then false else true) w))) / INR b.
Proof.
  intros Hx Hb Ht. rewrite training_step_value, validation_step_value.
  split; apply (loss_of_single_channel b t); try exact Ht.
  - pose proof (discrete_forward_shapes self x pv pr peak_ind false w) as H.
    cbv zeta in H. destruct H as (_ & _ & _ & Hc).
    exact (reshape_to_input b t f 1 x _ Hx Hc).
  - pose proof (discrete_forward_shapes self x pv pr peak_ind
                  (if DiscreteStatefulRNNModel.semi_discrete self
                   then false else true) w) as H.
    cbv zeta in H. destruct H as (_ & _ & _ & Hc).
    exact (reshape_to_input b t f 1 x _ Hx Hc).
Qed.

Lemma loss_is_mean_trajectory_cost_witness :
  fst (DiscreteStatefulRNNModel.training_step (Examples.discrete false true)
         (Examples.x, Examples.pv, Examples.pr, Examples.peak_ind)
         Examples.fresh) =
  total_cost
    (snd (fst (DiscreteStatefulRNNModel.forward (Examples.discrete false true)
                 Examples.x Examples.pv Examples.pr Examples.peak_ind false
                 Examples.fresh))) / INR 1.
Proof.
  refine (proj1 (loss_is_mean_trajectory_cost (Examples.discrete false true)
                   1 1 1 Examples.x Examples.pv Examples.pr Examples.peak_ind
                   Examples.fresh _ _ _)).
  - apply has_shape3_iff. repeat constructor.
  - lia.
  - lia.
Defined.

(** X8: on trajectories without time steps the discrete [forward] returns
    four tensors with an empty time dimension, having asked for the initial
    state and nothing else: no action is selected and the encoder is not
    run. *)
Theorem discrete_forward_of_empty_trajectory
    (self : DiscreteStatefulRNNModel.t) (x : tensor3)
    (pv pr peak_ind : tensor2) (hard_actions : bool) (w : runtime) :
  size1 x = 0%nat ->
  DiscreteStatefulRNNModel.forward self x pv pr peak_ind hard_actions w =
  ((replicate (size0 x) [], replicate (size0 x) [], replicate (size0 x) [],
    replicate (size0 x) []),
   snd (DiscreteStatefulRNNModel.initial_battery_state self (size0 x) w)) /\
  events (snd (DiscreteStatefulRNNModel.forward self x pv pr peak_ind
                 hard_actions w)) =
  events w ++ [initial_state_event self (size0 x)].
Proof.
  intros Hlen. split.
  - unfold DiscreteStatefulRNNModel.forward. cbv zeta. rewrite Hlen.
    cbn [seq for_each]. unfold mbind, M_bind, mret, M_ret.
    destruct (DiscreteStatefulRNNModel.initial_battery_state _ _ _)
      as [state w1]. reflexivity.
  - rewrite forward_events, Hlen. reflexivity.
Qed.

Lemma discrete_forward_of_empty_trajectory_witness :
  events (snd (DiscreteStatefulRNNModel.forward (Examples.discrete false false)
                 no_steps no_series no_series no_series true Examples.fresh)) =
  events Examples.fresh
  ++ [initial_state_event (Examples.discrete false false) (size0 no_steps)].
Proof.
  exact (proj2 (discrete_forward_of_empty_trajectory
                  (Examples.discrete false false) no_steps no_series no_series no_series true
                  Examples.fresh eq_refl)).
Defined.

(** X9: after the estimation loop, the signature [forward] makes exactly
    two more calls, the prediction and then [static_forward], both with the
    autograd setting of the caller and [static_forward] with the beta of
    the model; the autograd setting is the caller's again afterwards.
    After [on_predict_start] the static replay is therefore hard-clamped
    ([beta=None]). *)
Theorem lazysig_final_pass
    (max_abs_norm : tensor3 -> tensor3) (self : LazySigRegModel.t)
    (x : tensor3) (pv pr peak_ind : tensor2) (w : runtime) :
  let r := LazySigRegModel.forward max_abs_norm self x pv pr peak_ind w in
  (exists (evs : list event) (features : tensor3) (grid pv_action : tensor2),
     events (snd r) =
       events w
       ++ get_neutral_trace_call (size0 x) (size1 x) :: evs
       ++ [fc_call (grad_enabled w) features;
           static_forward_call (grad_enabled w)
             (drop_first (snd (fst (fst r)))) grid pv_action
             (LazySigRegModel.beta self)] /\
     Forall detached evs) /\
  grad_enabled (snd r) = grad_enabled w /\
  (exists (est grid pv_action : tensor2),
     last (events (snd (LazySigRegModel.forward max_abs_norm
                          (LazySigRegModel.on_predict_start self) x pv pr
                          peak_ind w))) =
     Some (static_forward_call (grad_enabled w) est grid pv_action None)).
Proof.
  cbv zeta. split; [|split].
  - destruct (forward_spec max_abs_norm self x pv pr peak_ind w)
      as (ls & lf & gen0 & evs & trace & gen1 & actions & gen2
          & _ & Halt & _ & ->).
    cbn [fst snd events]. eexists evs, _, _, _. split; [reflexivity|].
    eapply alternation_detached. exact Halt.
  - destruct (forward_spec max_abs_norm self x pv pr peak_ind w)
      as (ls & lf & gen0 & evs & trace & gen1 & actions & gen2
          & _ & _ & _ & ->).
    reflexivity.
  - destruct (forward_spec max_abs_norm
                (LazySigRegModel.on_predict_start self) x pv pr peak_ind w)
      as (ls & lf & gen0 & evs & trace & gen1 & actions & gen2
          & _ & _ & _ & ->).
    cbn [snd events]. eexists _, _, _. apply last_after_two.
Qed.

(** X10: with [e_step_iters <= 0] the signature [forward] returns the
    neutral trace as battery states and calls the simulator's [forward] not
    at all: one prediction and one [static_forward] follow the request for
    the neutral trace. *)
Theorem lazysig_without_rounds
    (max_abs_norm : tensor3 -> tensor3) (self : LazySigRegModel.t)
    (x : tensor3) (pv pr peak_ind : tensor2) (w : runtime) :
  (LazySigRegModel.e_step_iters self <= 0)%Z ->
  let r := LazySigRegModel.forward max_abs_norm self x pv pr peak_ind w in
  snd (fst (fst r)) =
    SeqBatteryEnv.get_neutral_trace (LazySigRegModel.battery self) (size0 x)
      (size1 x) /\
  exists (features : tensor3) (grid pv_action : tensor2),
    events (snd r) =
      events w
      ++ [get_neutral_trace_call (size0 x) (size1 x);
          fc_call (grad_enabled w) features;
          static_forward_call (grad_enabled w)
            (drop_first (snd (fst (fst r)))) grid pv_action
            (LazySigRegModel.beta self)].
Proof.
  intros Hk. cbv zeta.
  destruct (forward_spec max_abs_norm self x pv pr peak_ind w)
    as (ls & lf & gen0 & evs & trace & gen1 & actions & gen2
        & _ & Halt & _ & ->).
  replace (Z.to_nat (LazySigRegModel.e_step_iters self)) with 0%nat in Halt
    by lia.
  inversion Halt; subst. cbn [fst snd events app].
  split; [reflexivity|]. eexists _, _, _. reflexivity.
Qed.

Lemma lazysig_without_rounds_witness :
  snd (fst (fst (LazySigRegModel.forward Examples.identity3
                   (Examples.lazysig 0 false) Examples.x Examples.pv
                   Examples.pr Examples.peak_ind Examples.fresh))) =
  SeqBatteryEnv.get_neutral_trace
    (LazySigRegModel.battery (Examples.lazysig 0 false)) (size0 Examples.x)
    (size1 Examples.x).
Proof.
  refine (proj1 (lazysig_without_rounds Examples.identity3
                   (Examples.lazysig 0 false) Examples.x Examples.pv
                   Examples.pr Examples.peak_ind Examples.fresh _)).
  cbn. lia.
Defined.

Lemma cat_last_shape (b t a c : nat) (u v : tensor3) :
  has_shape [b; t; a] u -> has_shape [b; t; c] v ->
  has_shape [b; t; (a + c)%nat] (cat_last u v).
Proof.
  rewrite !has_shape3_iff. unfold cat_last. revert b v.
  induction u as [|ru u IH]; intros b v [Hb Hu] [Hvb Hv].
  - split; [exact Hb|constructor].
  - destruct v as [|rv v]; [cbn in *; lia|].
    apply Forall_cons in Hu as [[Hru Hcu] Hu].
    apply Forall_cons in Hv as [[Hrv Hcv] Hv].
    cbn in Hb, Hvb.
    destruct (IH (length u) v) as [Hlen Hall].
    { split; [reflexivity|exact Hu]. }
    { split; [lia|exact Hv]. }
    split; [cbn [zip_with length]; rewrite Hlen; exact Hb|].
    cbn [zip_with]. constructor; [|exact Hall].
    split; [rewrite length_zip_with; lia|].
    clear - Hcu Hcv. revert rv Hcv.
    induction Hcu as [|cu ru Hcell _ IHc]; intros rv Hcv; [constructor|].
    destruct Hcv as [|cv rv Hcell' Hcv]; [constructor|].
    cbn [zip_with]. constructor; [|apply IHc; exact Hcv].
    rewrite length_app. lia.
Qed.

(** X11: the signature [step_forward] gives the path points of different
    widths.  With [f] global features, the first call ([path is None])
    builds the path from a point of [f + 1] channels (one time tick), while
    a later call appends a point of [2 * f] channels, the time tick being
    expanded to the shape of the features. *)
Theorem step_forward_path_channels
    (max_abs_norm_2d : tensor2 -> tensor2) (P : Path.ops)
    (self : LazySigRegModel.t) (battery_state : tensor2) (x_t : tensor3)
    (w : runtime) (b f : nat) :
  has_shape [b; 1%nat; f] (LazySigRegModel.global_conv self x_t) ->
  (exists data : tensor3,
     snd (fst (LazySigRegModel.step_forward max_abs_norm_2d P self
                 battery_state x_t None w)) =
       Path.new P data (LazySigRegModel.sig_depth self)
         (select_first_time data) /\
     has_shape [b; 1%nat; S f] data) /\
  (forall path : Path.t P,
     exists data : tensor3,
       snd (fst (LazySigRegModel.step_forward max_abs_norm_2d P self
                   battery_state x_t (Some path) w)) =
         Path.update P path data /\
       has_shape [b; 1%nat; (f + f)%nat] data).
Proof.
  intros Hg. split; [|intros path];
    unfold LazySigRegModel.step_forward; cbv zeta;
    unfold mbind, M_bind;
    destruct (draw _ w) as [x_local w1];
    destruct (draw _ w1) as [z w2]; cbn [fst snd mret M_ret];
    unfold mret, M_ret; cbn [fst snd];
    eexists; (split; [reflexivity|]).
  - change (S f) with (1 + f)%nat. apply cat_last_shape; [|exact Hg].
    apply has_shape3_iff in Hg as [Hb _]. unfold size0. rewrite Hb.
    apply has_shape3_iff. split; [apply length_replicate|].
    apply Forall_replicate. repeat constructor.
  - apply cat_last_shape; [|exact Hg].
    apply has_shape3_iff in Hg as [Hb Hrows]. apply has_shape3_iff.
    split; [rewrite length_map; exact Hb|].
    apply Forall_forall. intros rows' Hin.
    apply list_elem_of_In, in_map_iff in Hin as [rows [<- Hin]].
    apply list_elem_of_In in Hin.
    destruct (proj1 (Forall_forall _ _) Hrows _ Hin) as [Ht Hcells].
    split; [rewrite length_map; exact Ht|].
    apply Forall_forall. intros cell' Hc.
    apply list_elem_of_In, in_map_iff in Hc as [cell [<- Hc]].
    apply list_elem_of_In in Hc. rewrite length_map.
    exact (proj1 (Forall_forall _ _) Hcells _ Hc).
Qed.

Lemma step_forward_path_channels_witness :
  exists data : tensor3,
    snd (fst (LazySigRegModel.step_forward (fun x => x) Examples.path
                (Examples.lazysig 5 false) [[0]] [[[0; 0]]] (Some 2%nat)
                Examples.fresh)) =
      Path.update Examples.path 2%nat data /\
    has_shape [1; 1; 4]%nat data.
Proof.
  refine (proj2 (step_forward_path_channels (fun x => x) Examples.path
                   (Examples.lazysig 5 false) [[0]] [[[0; 0]]] Examples.fresh
                   1 2 _) 2%nat).
  apply has_shape3_iff. repeat constructor.
Defined.

Lemma method_bind_run {A B : Type} (m : Calibration.method A)
    (f : A -> Calibration.method B) (self : Calibration.t) :
  (m ≫= f) self =
  match m self with
  | (self', Ok a) => f a self'
  | (self', Raise e) => (self', Raise e)
  end.
Proof. reflexivity. Qed.

(** X13: once the row is completed, the timestamp converted, the
    preprocessing done and the state of charge read, [act] has appended the
    completed row to the history and replaced the recurrent state by the
    one the model returned, whether it then returns the two charges or
    raises for a missing [max_charge_rate] or [pv_power] or a [pv_power]
    that is a text.  A NaN [pv_power] gives a NaN solar charge. *)
Theorem act_after_the_model
    (columns : list string)
    (to_datetime : Calibration.cell -> result Calibration.cell)
    (self : Calibration.t)
    (external_state : gmap string Calibration.cell)
    (internal_state : gmap string R)
    (current : gmap string Calibration.cell) (ts ts' : Calibration.cell)
    (state pv_power price peak : tensor2) (soc : R) :
  Calibration.complete columns self external_state = Ok current ->
  current !! "timestamp" = Some ts ->
  to_datetime ts = Ok ts' ->
  Calibration.preprocessor_transform self (<["timestamp" := ts']> current) =
    Ok (state, pv_power, price, peak) ->
  internal_state !! "battery_soc" = Some soc ->
  let stepped :=
    StatefulRNNModel.step_forward (Calibration.model self) [[soc]] [state]
      (Calibration.h self) in
  Calibration.act columns to_datetime external_state internal_state self =
  (Calibration.with_h (snd stepped)
     (Calibration.with_history
        (Calibration.historical_states self ++ [current]) self),
   charges external_state internal_state (fst (fst (fst stepped)))
     (snd (fst (fst stepped)))).
Proof.
  intros Hcur Hts Hdt Hpre Hsoc. cbv zeta.
  unfold Calibration.act, mbind, Calibration.method_bind, Calibration.get,
    Calibration.lift, Calibration.modify, charges.
  rewrite Hcur. unfold Calibration.getitem at 1. rewrite Hts.
  unfold result_bind at 1. rewrite Hdt, Hpre.
  unfold Calibration.getitem at 1. rewrite Hsoc.
  destruct (StatefulRNNModel.step_forward _ _ _ _)
    as [[[grid_action pv_action] battery_state] h'].
  cbn [fst snd]. unfold Calibration.getitem at 1.
  destruct (internal_state !! "max_charge_rate") as [cr|]; [|reflexivity].
  unfold Calibration.getitem at 1.
  destruct (external_state !! "pv_power") as [v|]; [|reflexivity].
  destruct (Calibration.scale _ v) as [pv_charge|e]; reflexivity.
Qed.

Lemma example_without_pv_power_completed :
  exists current,
    Calibration.complete Examples.active_columns Examples.calibration
      Examples.without_pv_power = Ok current /\
    current !! "timestamp" = Some (Calibration.Txt "2024-01-01 00:05").
Proof.
  destruct (complete_lookup Examples.active_columns Examples.calibration
              Examples.without_pv_power example_means_cover)
    as (current & Hcur & Hlookup).
  exists current. split; [exact Hcur|]. rewrite Hlookup. run. reflexivity.
Defined.

Lemma act_after_the_model_witness :
  snd (Calibration.act Examples.active_columns Examples.to_datetime
         Examples.without_pv_power Examples.internal_state
         Examples.calibration) =
  Raise (KeyError "pv_power") /\
  length (Calibration.historical_states
            (fst (Calibration.act Examples.active_columns Examples.to_datetime
                    Examples.without_pv_power Examples.internal_state
                    Examples.calibration))) = 2%nat.
Proof.
  destruct example_without_pv_power_completed as (current & Hcur & Hts).
  rewrite (act_after_the_model Examples.active_columns Examples.to_datetime
             Examples.calibration Examples.without_pv_power
             Examples.internal_state current
             (Calibration.Txt "2024-01-01 00:05")
             (Calibration.Txt "2024-01-01 00:05") [[0]] [[0]] [[0]] [[0]] 5
             Hcur Hts eq_refl eq_refl eq_refl).
  split; reflexivity.
Defined.

(** X14: failures of [act] before the model runs.  If the active columns
    lack ["timestamp"], every call raises [KeyError] and changes nothing; if
    the timestamp cannot be converted, the exception passes and nothing is
    stored; if the preprocessing raises, the completed row has already been
    appended to the history and the recurrent state is unchanged. *)
Theorem act_failures_before_the_model
    (columns : list string)
    (to_datetime : Calibration.cell -> result Calibration.cell)
    (self : Calibration.t)
    (external_state : gmap string Calibration.cell)
    (internal_state : gmap string R) :
  (forall k, k ∈ columns -> is_Some (Calibration.means self !! k)) ->
  ("timestamp" ∉ columns ->
   Calibration.act columns to_datetime external_state internal_state self =
   (self, Raise (KeyError "timestamp"))) /\
  (forall current ts e,
     Calibration.complete columns self external_state = Ok current ->
     current !! "timestamp" = Some ts ->
     to_datetime ts = Raise e ->
     Calibration.act columns to_datetime external_state internal_state self =
     (self, Raise e)) /\
  (forall current ts ts' e,
     Calibration.complete columns self external_state = Ok current ->
     current !! "timestamp" = Some ts ->
     to_datetime ts = Ok ts' ->
     Calibration.preprocessor_transform self (<["timestamp" := ts']> current) =
       Raise e ->
     Calibration.act columns to_datetime external_state internal_state self =
     (Calibration.with_history
        (Calibration.historical_states self ++ [current]) self,
      Raise e)).
Proof.
  intros Hmeans. split; [|split].
  - intros Hts.
    destruct (complete_lookup columns self external_state Hmeans)
      as (current & Hcur & Hlookup).
    unfold Calibration.act, mbind, Calibration.method_bind, Calibration.get,
      Calibration.lift.
    rewrite Hcur. unfold Calibration.getitem at 1. rewrite Hlookup.
    destruct (decide ("timestamp" ∈ columns)); [contradiction|reflexivity].
  - intros current ts e Hcur Hts Hdt.
    unfold Calibration.act, mbind, Calibration.method_bind, Calibration.get,
      Calibration.lift.
    rewrite Hcur. unfold Calibration.getitem at 1. rewrite Hts.
    unfold result_bind at 1. rewrite Hdt. reflexivity.
  - intros current ts ts' e Hcur Hts Hdt Hpre.
    unfold Calibration.act, mbind, Calibration.method_bind, Calibration.get,
      Calibration.lift, Calibration.modify.
    rewrite Hcur. unfold Calibration.getitem at 1. rewrite Hts.
    unfold result_bind at 1. rewrite Hdt, Hpre. reflexivity.
Qed.

Lemma act_failures_before_the_model_witness :
  Calibration.act ["price"; "pv_power"]%string Examples.to_datetime
    Examples.without_price Examples.internal_state Examples.calibration =
  (Examples.calibration, Raise (KeyError "timestamp")).
Proof.
  refine (proj1 (act_failures_before_the_model ["price"; "pv_power"]%string
                   Examples.to_datetime Examples.calibration
                   Examples.without_price Examples.internal_state _) _).
  - intros k Hk. apply example_means_cover.
    unfold Examples.active_columns. apply elem_of_cons. right. exact Hk.
  - intros Hin. repeat (apply elem_of_cons in Hin as [Hin|Hin]);
      [discriminate Hin ..|inversion Hin].
Defined.

Lemma act_history (columns : list string)
    (to_datetime : Calibration.cell -> result Calibration.cell)
    (self : Calibration.t)
    (external_state : gmap string Calibration.cell)
    (internal_state : gmap string R) :
  let self' := fst (Calibration.act columns to_datetime external_state
                      internal_state self) in
  Calibration.means self' = Calibration.means self /\
  (Calibration.historical_states self' = Calibration.historical_states self \/
   exists current,
     Calibration.complete columns self external_state = Ok current /\
     Calibration.historical_states self' =
       Calibration.historical_states self ++ [current]).
Proof.
  cbv zeta.
  unfold Calibration.act, mbind, Calibration.method_bind, Calibration.get,
    Calibration.lift, Calibration.modify.
  destruct (Calibration.complete columns self external_state)
    as [current|e]; [|split; [reflexivity|left; reflexivity]].
  destruct (result_bind _ _ _ (Calibration.getitem current "timestamp"))
    as [ts|e]; [|split; [reflexivity|left; reflexivity]].
  assert (forall r : Calibration.t * result (Calibration.cell * R),
            Calibration.means (fst r) = Calibration.means self ->
            Calibration.historical_states (fst r) =
              Calibration.historical_states self ++ [current] ->
            Calibration.means (fst r) = Calibration.means self /\
            (Calibration.historical_states (fst r) =
               Calibration.historical_states self \/
             exists current0,
               Ok current = Ok current0 /\
               Calibration.historical_states (fst r) =
                 Calibration.historical_states self ++ [current0]))
    as Hstored.
  { intros r Hm Hh. split; [exact Hm|]. right. exists current.
    split; [reflexivity|exact Hh]. }
  destruct (Calibration.preprocessor_transform self _)
    as [[[[state pv_power] price] peak]|e]; [|apply Hstored; reflexivity].
  destruct (Calibration.getitem internal_state "battery_soc") as [soc|e];
    [|apply Hstored; reflexivity].
  destruct (StatefulRNNModel.step_forward _ _ _ _)
    as [[[grid_action pv_action] battery_state] h'].
  destruct (Calibration.getitem internal_state "max_charge_rate") as [cr|e];
    [|apply Hstored; reflexivity].
  destruct (Calibration.getitem external_state "pv_power") as [v|e];
    [|apply Hstored; reflexivity].
  destruct (Calibration.scale _ v) as [pv_charge|e];
    apply Hstored; reflexivity.
Qed.

Lemma completed_row_is_complete (columns : list string)
    (self : Calibration.t) (external_state current : gmap string Calibration.cell) :
  complete_row columns (Calibration.means self) ->
  Forall (complete_row columns) (Calibration.historical_states self) ->
  (forall key,
     current !! key =
     if decide (key ∈ columns) then filled self external_state key else None) ->
  complete_row columns current.
Proof.
  intros Hmeans Hhist Hlookup k Hk.
  rewrite Hlookup. destruct (decide (k ∈ columns)); [|contradiction].
  destruct (Hmeans k Hk) as (m & Hm & Hna).
  unfold filled, defaulted.
  assert (forall v,
            exists v',
              (if Calibration.isna v
               then match last (Calibration.historical_states self) with
                    | Some last => Some (default v (last !! k))
                    | None => Some (default v (Calibration.means self !! k))
                    end
               else Some v) = Some v' /\ Calibration.isna v' = false) as Hfill.
  { intros v. destruct (Calibration.isna v) eqn:Hv; [|exists v; split; auto].
    destruct (last (Calibration.historical_states self)) as [l|] eqn:Hlast.
    - apply last_Some in Hlast as [hs Hhs]. rewrite Hhs in Hhist.
      apply Forall_app in Hhist as [_ Hl].
      apply Forall_cons in Hl as [Hl _].
      destruct (Hl k Hk) as (lv & -> & Hlv). exists lv. split; auto.
    - rewrite Hm. exists m. split; auto. }
  destruct (external_state !! k) as [v|]; [apply Hfill|].
  pose proof (Hfill m) as Hfm. rewrite Hm. rewrite Hm in Hfm. exact Hfm.
Qed.

(** X15: if the training means have a value that is not NaN for every
    active column and so has every stored record, then a call of [act]
    completes its row to one with a value that is not NaN in exactly the
    active columns (other fields of the record are dropped), and whatever
    the outcome of the call the means are unchanged and every stored record
    is still complete. *)
Theorem stored_records_stay_complete
    (columns : list string)
    (to_datetime : Calibration.cell -> result Calibration.cell)
    (self : Calibration.t)
    (external_state : gmap string Calibration.cell)
    (internal_state : gmap string R) :
  complete_row columns (Calibration.means self) ->
  Forall (complete_row columns) (Calibration.historical_states self) ->
  let self' := fst (Calibration.act columns to_datetime external_state
                      internal_state self) in
  (exists current,
     Calibration.complete columns self external_state = Ok current /\
     complete_row columns current /\
     forall key, key ∉ columns -> current !! key = None) /\
  complete_row columns (Calibration.means self') /\
  Forall (complete_row columns) (Calibration.historical_states self').
Proof.
  intros Hmeans Hhist. cbv zeta.
  assert (forall k, k ∈ columns -> is_Some (Calibration.means self !! k))
    as Hcover.
  { intros k Hk. destruct (Hmeans k Hk) as (m & -> & _). eexists. reflexivity. }
  destruct (complete_lookup columns self external_state Hcover)
    as (current & Hcur & Hlookup).
  pose proof (completed_row_is_complete columns self external_state current
                Hmeans Hhist Hlookup) as Hcomplete.
  split.
  - exists current. split; [exact Hcur|]. split; [exact Hcomplete|].
    intros key Hkey. rewrite Hlookup.
    destruct (decide (key ∈ columns)); [contradiction|reflexivity].
  - pose proof (act_history columns to_datetime self external_state
                  internal_state) as Hact.
    cbv zeta in Hact. destruct Hact as [-> Hh]. split; [exact Hmeans|].
    destruct Hh as [->|(current' & Hcur' & ->)]; [exact Hhist|].
    rewrite Hcur in Hcur'. injection Hcur' as <-.
    apply Forall_app. split; [exact Hhist|]. constructor; [exact Hcomplete|].
    constructor.
Qed.

Lemma example_means_complete :
  complete_row Examples.active_columns
    (Calibration.means Examples.calibration).
Proof.
  intros k Hk. unfold Examples.active_columns in Hk.
  repeat (apply elem_of_cons in Hk as [->|Hk]);
    [eexists; split; run; reflexivity ..|inversion Hk].
Defined.

Lemma example_history_complete :
  Forall (complete_row Examples.active_columns)
    (Calibration.historical_states Examples.calibration).
Proof.
  constructor; [|constructor].
  intros k Hk. unfold Examples.active_columns in Hk.
  repeat (apply elem_of_cons in Hk as [->|Hk]);
    [eexists; split; run; reflexivity ..|inversion Hk].
Defined.

Lemma stored_records_stay_complete_witness :
  Forall (complete_row Examples.active_columns)
    (Calibration.historical_states
       (fst (Calibration.act Examples.active_columns Examples.to_datetime
               Examples.nan_price Examples.internal_state
               Examples.calibration))).
Proof.
  exact (proj2 (proj2 (stored_records_stay_complete Examples.active_columns
                         Examples.to_datetime Examples.calibration
                         Examples.nan_price Examples.internal_state
                         example_means_complete example_history_complete))).
Defined.

Lemma restricted_row_lookup (columns : list string)
    (row : gmap string Calibration.cell) (key : string) :
  (list_to_map
     (map (fun k => (k, default Calibration.NA (row !! k))) columns)
   : gmap string Calibration.cell) !! key =
  if decide (key ∈ columns)
  then Some (default Calibration.NA (row !! key)) else None.
Proof.
  induction columns as [|c columns IH].
  - cbn [map list_to_map foldr]. rewrite lookup_empty.
    destruct (decide (key ∈ [])) as [Hin|_]; [inversion Hin|reflexivity].
  - cbn [map]. rewrite list_to_map_cons.
    destruct (decide (c = key)) as [->|Hne].
    + rewrite lookup_insert_eq.
      destruct (decide (key ∈ key :: columns)) as [_|Hnot]; [reflexivity|].
      exfalso. apply Hnot. apply elem_of_cons. left. reflexivity.
    + rewrite lookup_insert_ne by exact Hne. rewrite IH.
      destruct (decide (key ∈ columns)) as [Hin|Hnin];
        destruct (decide (key ∈ c :: columns)) as [Hin'|Hnin'];
        try reflexivity.
      * exfalso. apply Hnin'. apply elem_of_cons. right. exact Hin.
      * exfalso. apply elem_of_cons in Hin' as [->|Hin']; [congruence|tauto].
Qed.

Lemma select_columns_outcome (columns : list string) (f : Calibration.frame) :
  match Calibration.select_columns columns f with
  | Ok subframe =>
      (forall key, key ∈ columns -> key ∈ Calibration.frame_columns f) /\
      Calibration.frame_rows subframe =
        map (fun row : gmap string Calibration.cell =>
               list_to_map
                 (map (fun k => (k, default Calibration.NA (row !! k)))
                      columns))
            (Calibration.frame_rows f)
  | Raise e =>
      exists key, e = KeyError key /\ key ∈ columns /\
                  key ∉ Calibration.frame_columns f
  end.
Proof.
  unfold Calibration.select_columns.
  destruct (filter _ columns) as [|key missing] eqn:Hfilter.
  - split; [|reflexivity]. intros key Hkey.
    destruct (decide (key ∈ Calibration.frame_columns f)) as [Hin|Hnot];
      [exact Hin|].
    exfalso.
    exact (filter_nil_not_elem_of _ _ key Hfilter Hnot Hkey).
  - exists key. split; [reflexivity|].
    assert (key ∈ filter (fun key => key ∉ Calibration.frame_columns f)
                    columns) as Hin
      by (rewrite Hfilter; apply elem_of_cons; left; reflexivity).
    apply list_elem_of_filter in Hin as [Hnot Hin]. split; assumption.
Qed.

Lemma after_calls_means (columns : list string)
    (to_datetime : Calibration.cell -> result Calibration.cell)
    (calls : list (gmap string Calibration.cell * gmap string R)) :
  forall self : Calibration.t,
    Calibration.means (after_calls columns to_datetime calls self) =
    Calibration.means self.
Proof.
  unfold after_calls.
  induction calls as [|call calls IH]; intros self; [reflexivity|].
  cbn [foldl]. rewrite IH.
  exact (proj1 (act_history columns to_datetime self (fst call) (snd call))).
Qed.

Lemma init_returns (columns : list string) (world : Calibration.resources)
    (model : StatefulRNNModel.t) (data data' : Calibration.frame)
    (transform : gmap string Calibration.cell ->
                 result (tensor2 * tensor2 * tensor2 * tensor2))
    (training_means : Calibration.frame)
    (row : gmap string Calibration.cell)
    (rows : list (gmap string Calibration.cell)) :
  Calibration.load_from_checkpoint world (13, 5, 7.5) = Ok model ->
  Calibration.read_training_data world = Ok data ->
  Calibration.drop_no_solar world data = Ok data' ->
  Calibration.fit world data' = Ok transform ->
  Calibration.read_training_means world = Ok training_means ->
  (forall key, key ∈ columns ->
               key ∈ Calibration.frame_columns training_means) ->
  Calibration.frame_rows training_means = row :: rows ->
  exists self, Calibration.init columns world = Ok self.
Proof.
  intros Hload Hread Hdrop Hfit Hmeans Hcols Hrows. unfold Calibration.init.
  cbv zeta. rewrite Hload. unfold mbind at 1, result_bind at 1.
  rewrite Hread. unfold mbind at 1, result_bind at 1.
  rewrite Hdrop. unfold mbind at 1, result_bind at 1.
  rewrite Hfit. unfold mbind at 1, result_bind at 1.
  rewrite Hmeans. unfold mbind at 1, result_bind at 1.
  pose proof (select_columns_outcome columns training_means) as Hsel.
  destruct (Calibration.select_columns columns training_means)
    as [subframe|e].
  - destruct Hsel as [_ Hsub].
    unfold mbind, result_bind, Calibration.iloc0. rewrite Hsub, Hrows.
    cbn [map]. eexists. reflexivity.
  - destruct Hsel as (key & _ & Hin & Hnot). exfalso.
    apply Hnot, Hcols, Hin.
Qed.

Lemma example_world_constructs :
  exists self, Calibration.init Examples.active_columns world = Ok self.
Proof.
  apply (init_returns Examples.active_columns world
           (Calibration.model Examples.calibration) _ _ _ _
           (<["load" := Calibration.Num 1]> Examples.training_means) []
           eq_refl eq_refl eq_refl eq_refl eq_refl).
  - intros key Hkey.
    cbn [world Calibration.read_training_means Calibration.frame_columns].
    apply elem_of_cons. right. exact Hkey.
  - reflexivity.
Defined.

(** X12: what the construction of the adapter comes to once the checkpoint
    is loaded, the training data read and filtered, the preprocessor
    fitted and the file of the means read.  It raises [KeyError] if the
    file lacks one of the active columns and [IndexError] if it has all of
    them and no row; otherwise it returns an adapter with the loaded model,
    the fitted preprocessor, an empty history, the initial recurrent state
    of the model, and as means the first row of the file restricted to the
    active columns, an empty cell being NaN. *)
Theorem init_outcome
    (columns : list string) (world : Calibration.resources)
    (model : StatefulRNNModel.t) (data data' : Calibration.frame)
    (transform : gmap string Calibration.cell ->
                 result (tensor2 * tensor2 * tensor2 * tensor2))
    (training_means : Calibration.frame) :
  Calibration.load_from_checkpoint world (13, 5, 7.5) = Ok model ->
  Calibration.read_training_data world = Ok data ->
  Calibration.drop_no_solar world data = Ok data' ->
  Calibration.fit world data' = Ok transform ->
  Calibration.read_training_means world = Ok training_means ->
  match Calibration.init columns world with
  | Ok self =>
      (forall key, key ∈ columns ->
                   key ∈ Calibration.frame_columns training_means) /\
      (exists row rows,
         Calibration.frame_rows training_means = row :: rows /\
         forall key,
           Calibration.means self !! key =
           if decide (key ∈ columns)
           then Some (default Calibration.NA (row !! key)) else None) /\
      Calibration.model self = model /\
      Calibration.preprocessor_transform self = transform /\
      Calibration.historical_states self = [] /\
      Calibration.h self = StatefulRNNModel.get_initial_h model 1
  | Raise (KeyError key) =>
      key ∈ columns /\ key ∉ Calibration.frame_columns training_means
  | Raise IndexError =>
      (forall key, key ∈ columns ->
                   key ∈ Calibration.frame_columns training_means) /\
      Calibration.frame_rows training_means = []
  | Raise _ => False
  end.
Proof.
  intros Hload Hread Hdrop Hfit Hmeans. unfold Calibration.init.
  cbv zeta. rewrite Hload. unfold mbind at 1, result_bind at 1.
  rewrite Hread. unfold mbind at 1, result_bind at 1.
  rewrite Hdrop. unfold mbind at 1, result_bind at 1.
  rewrite Hfit. unfold mbind at 1, result_bind at 1.
  rewrite Hmeans. unfold mbind at 1, result_bind at 1.
  pose proof (select_columns_outcome columns training_means) as Hsel.
  destruct (Calibration.select_columns columns training_means)
    as [subframe|e].
  - destruct Hsel as [Hcols Hrows].
    unfold mbind, result_bind, Calibration.iloc0. rewrite Hrows.
    destruct (Calibration.frame_rows training_means) as [|row rows].
    + cbn [map]. split; [exact Hcols|reflexivity].
    + cbn [map mret result_ret Calibration.means Calibration.model
           Calibration.preprocessor_transform Calibration.historical_states
           Calibration.h].
      split; [exact Hcols|]. split; [|repeat split].
      exists row, rows. split; [reflexivity|].
      intros key. apply restricted_row_lookup.
  - destruct Hsel as (key & -> & Hin & Hnot).
    cbn. split; assumption.
Qed.

Lemma init_outcome_witness :
  exists self,
    Calibration.init Examples.active_columns world = Ok self /\
    Calibration.means self !! "price" = Some (Calibration.Num 40) /\
    Calibration.means self !! "load" = None.
Proof.
  pose proof (init_outcome Examples.active_columns world
                (Calibration.model Examples.calibration) _ _ _ _
                eq_refl eq_refl eq_refl eq_refl eq_refl) as Hout.
  destruct (Calibration.init Examples.active_columns world) as [self|e]
    eqn:Hinit.
  - exists self. split; [reflexivity|].
    destruct Hout as (_ & (row & rows & Hrows & Hlookup) & _).
    injection Hrows as <- <-. rewrite !Hlookup. split; run; reflexivity.
  - exfalso. destruct e as [key| | | |]; try exact Hout.
    + destruct Hout as [Hin Hnot]. apply Hnot.
      cbn [world Calibration.read_training_means Calibration.frame_columns].
      apply elem_of_cons. right. exact Hin.
    + destruct Hout as [_ Hrows]. discriminate Hrows.
Defined.

(** X17: an adapter that was constructed completes the row of every call:
    its means have a value, possibly NaN, for exactly the active columns,
    no call of [act] changes them, and so the defaults of an absent field
    (line 48) are there at every later call, whatever the calls before it
    were given and whether they returned or raised. *)
Theorem constructed_adapter_completes_every_row
    (columns : list string)
    (to_datetime : Calibration.cell -> result Calibration.cell)
    (world : Calibration.resources) (self : Calibration.t) :
  Calibration.init columns world = Ok self ->
  (forall key, is_Some (Calibration.means self !! key) <-> key ∈ columns) /\
  forall (calls : list (gmap string Calibration.cell * gmap string R))
         (external_state : gmap string Calibration.cell),
    Calibration.means (after_calls columns to_datetime calls self) =
      Calibration.means self /\
    exists current,
      Calibration.complete columns
        (after_calls columns to_datetime calls self) external_state =
      Ok current.
Proof.
  intros Hinit.
  assert (forall key,
            is_Some (Calibration.means self !! key) <-> key ∈ columns)
    as Hdom.
  { unfold Calibration.init in Hinit. cbv zeta in Hinit.
    destruct (Calibration.load_from_checkpoint world _) as [model|e];
      [|discriminate Hinit].
    unfold mbind at 1, result_bind at 1 in Hinit.
    destruct (Calibration.read_training_data world) as [data|e];
      [|discriminate Hinit].
    unfold mbind at 1, result_bind at 1 in Hinit.
    destruct (Calibration.drop_no_solar world data) as [data'|e];
      [|discriminate Hinit].
    unfold mbind at 1, result_bind at 1 in Hinit.
    destruct (Calibration.fit world data') as [transform|e];
      [|discriminate Hinit].
    unfold mbind at 1, result_bind at 1 in Hinit.
    destruct (Calibration.read_training_means world) as [training_means|e];
      [|discriminate Hinit].
    unfold mbind at 1, result_bind at 1 in Hinit.
    pose proof (select_columns_outcome columns training_means) as Hsel.
    destruct (Calibration.select_columns columns training_means)
      as [subframe|e]; [|discriminate Hinit].
    destruct Hsel as [_ Hrows].
    unfold mbind, result_bind, Calibration.iloc0 in Hinit.
    rewrite Hrows in Hinit.
    destruct (Calibration.frame_rows training_means) as [|row rows];
      [discriminate Hinit|].
    cbn [map] in Hinit. injection Hinit as <-.
    intros key. cbn [Calibration.means]. rewrite restricted_row_lookup.
    destruct (decide (key ∈ columns)) as [Hin|Hnot].
    - split; [intros _; exact Hin|intros _; eexists; reflexivity].
    - split; [intros [v Hv]; discriminate Hv|contradiction]. }
  split; [exact Hdom|]. intros calls external_state.
  pose proof (after_calls_means columns to_datetime calls self) as Hsame.
  split; [exact Hsame|].
  destruct (complete_lookup columns
              (after_calls columns to_datetime calls self) external_state)
    as (current & Hcur & _).
  { intros k Hk. rewrite Hsame. apply Hdom. exact Hk. }
  exists current. exact Hcur.
Qed.

Lemma constructed_adapter_completes_every_row_witness :
  exists self current,
    Calibration.init Examples.active_columns world = Ok self /\
    Calibration.complete Examples.active_columns
      (after_calls Examples.active_columns Examples.to_datetime
         [(Examples.without_pv_power, Examples.internal_state)] self)
      Examples.without_price = Ok current.
Proof.
  destruct example_world_constructs as (self & Hinit).
  destruct (constructed_adapter_completes_every_row Examples.active_columns
              Examples.to_datetime world self Hinit) as [_ Hcalls].
  destruct (Hcalls [(Examples.without_pv_power, Examples.internal_state)]
              Examples.without_price) as (_ & current & Hcur).
  exists self, current. split; [exact Hinit|exact Hcur].
Defined.
